(** * A shallow embedding of the interpreter core of [terminal.py]

    The development follows the class [PythonTerminal]: the tokenizer
    [parse_command], the dispatcher [execute_command], the handlers that
    read or write the session ([cmd_cd], [cmd_pwd], [cmd_echo], [cmd_env],
    [cmd_export], [cmd_history], [cmd_alias], [cmd_unalias], ...), the
    bridge [execute_external_command] and the driving loop [run]. The
    file handlers [cmd_ls] and [cmd_rm] are given over the interface
    [FileOps], the other handlers of the file system, the processes and
    the clock over [SysOps], and [full_host] is the host on which every
    name of the registry runs its method. [UI] follows the window of
    [ui/terminal_ui.py] (prompt, Return, the colour tag of the output
    widget, history keys) and [UI2] the history keys and the input box
    of the second window.

    Conventions.
    - A Python [str] is a [string]; a character is read as the code point
      of the same number, so the development covers lines over the code
      points 0 to 255.
    - A Python [dict] is an association list with unique keys kept in
      insertion order (see [Dict]).
    - Everything the interpreter asks of its host (file system, process
      table, clock, child processes) is a field of the interfaces [Host],
      [FileOps] and [SysOps]; theorems quantify over every host, and
      [Posix], [PosixFiles] and [PosixSys] give one concrete host for the
      scenarios that are evaluated.
    - A Python [float] is a binary64 float of the kernel; what Python
      prints for one is left to the host. *)

From Stdlib Require Import Bool Arith ZArith List Lia.
From Stdlib Require Import Sorted Permutation.
From Stdlib Require Import Ascii String DecimalString.
From Stdlib Require PrimFloat FloatOps SpecFloat Uint63.
Import ListNotations.

Local Open Scope list_scope.
Local Open Scope string_scope.

(** ** Python string primitives *)

Module PyStr.

(** Characters that have no literal form here. *)
Definition chr (n : nat) : ascii := ascii_of_nat n.
Definition dquote : ascii := chr 34.
Definition squote : ascii := chr 39.
Definition str1 (c : ascii) : string := String c EmptyString.
Definition nl : string := str1 (chr 10).
Definition esc : string := str1 (chr 27).
Definition DQ : string := str1 dquote.
Definition SQ : string := str1 squote.

(** [not s] on a [str]: true exactly for the empty string. *)
Definition is_empty (s : string) : bool :=
  match s with
  | EmptyString => true
  | String _ _ => false
  end.

(** [str.isspace] on one character: the white space of [str.strip()]
    among the code points below 256. *)
Definition is_space (c : ascii) : bool :=
  let n := nat_of_ascii c in
  (Nat.leb 9 n && Nat.leb n 13) || (Nat.leb 28 n && Nat.leb n 32)
  || Nat.eqb n 133 || Nat.eqb n 160.

(** [s.lstrip(...)], [s.rstrip(...)] and [s.strip(...)] for the character
    set [p]. *)
Fixpoint lstrip_with (p : ascii -> bool) (s : string) : string :=
  match s with
  | EmptyString => EmptyString
  | String c r => if p c then lstrip_with p r else s
  end.

Fixpoint rstrip_with (p : ascii -> bool) (s : string) : string :=
  match s with
  | EmptyString => EmptyString
  | String c r =>
      let r' := rstrip_with p r in
      if is_empty r' && p c then EmptyString else String c r'
  end.

Definition strip_with (p : ascii -> bool) (s : string) : string :=
  rstrip_with p (lstrip_with p s).

(** [s.strip()] *)
Definition strip (s : string) : string := strip_with is_space s.

(** [c in chars] *)
Fixpoint mem_char (c : ascii) (chars : string) : bool :=
  match chars with
  | EmptyString => false
  | String d r => Ascii.eqb c d || mem_char c r
  end.

(** [s.startswith(p)] *)
Definition startswith (s p : string) : bool := String.prefix p s.

(** [sep.join(l)] *)
Definition join (sep : string) (l : list string) : string :=
  String.concat sep l.

(** [s.split(c, 1)] for a one-character separator: the text before the
    first [c] and the text after it, or [None] when [c] does not occur
    (Python then returns the one-element list [[s]]). *)
Fixpoint split_once (c : ascii) (s : string) : option (string * string) :=
  match s with
  | EmptyString => None
  | String d r =>
      if Ascii.eqb d c then Some (EmptyString, r)
      else match split_once c r with
           | Some (a, b) => Some (String d a, b)
           | None => None
           end
  end.

(** [str(n)] for a natural number. *)
Definition str_of_nat (n : nat) : string :=
  NilEmpty.string_of_uint (Nat.to_uint n).

(** [n] copies of the character [c]. *)
Fixpoint replicate (n : nat) (c : ascii) : string :=
  match n with
  | O => EmptyString
  | S k => String c (replicate k c)
  end.

(** [s.rjust(w)]: the format specification [{:w}] of an integer pads its
    digits on the left with spaces up to the width [w]. *)
Definition rjust (w : nat) (s : string) : string :=
  replicate (w - String.length s) " "%char ++ s.

End PyStr.
Import PyStr.

(** ** The tokenizer: [PythonTerminal.parse_command] *)

(** The local variables of the scanning loop. *)
Record lexer : Type := mkLexer {
  tokens : list string;
  current_token : string;
  in_quotes : bool;
  quote_char : option ascii
}.

Definition lexer_init : lexer :=
  {| tokens := []; current_token := EmptyString;
     in_quotes := false; quote_char := None |}.

(** [char in [DQ, SQ]]: the double and the single quote character. *)
Definition is_quote (char : ascii) : bool :=
  Ascii.eqb char dquote || Ascii.eqb char squote.

(** [char == quote_char], where [quote_char] may be [None]. *)
Definition eq_quote (char : ascii) (q : option ascii) : bool :=
  match q with
  | Some c => Ascii.eqb char c
  | None => false
  end.

(** One turn of the [while] loop, on the character [char]. *)
Definition lex_step (s : lexer) (char : ascii) : lexer :=
  if is_quote char && negb (in_quotes s) then
    {| tokens := tokens s; current_token := current_token s;
       in_quotes := true; quote_char := Some char |}
  else if eq_quote char (quote_char s) && in_quotes s then
    {| tokens := tokens s; current_token := current_token s;
       in_quotes := false; quote_char := None |}
  else if Ascii.eqb char " " && negb (in_quotes s) then
    if is_empty (current_token s) then s
    else {| tokens := (tokens s ++ [current_token s])%list;
            current_token := EmptyString;
            in_quotes := in_quotes s; quote_char := quote_char s |}
  else
    {| tokens := tokens s; current_token := current_token s ++ str1 char;
       in_quotes := in_quotes s; quote_char := quote_char s |}.

(** The loop [while i < len(command_line)], from the index where
    [command_line] starts. *)
Fixpoint lex_loop (command_line : string) (s : lexer) : lexer :=
  match command_line with
  | EmptyString => s
  | String char rest => lex_loop rest (lex_step s char)
  end.

(** The flush after the loop. *)
Definition lex_finish (s : lexer) : list string :=
  if is_empty (current_token s) then tokens s
  else (tokens s ++ [current_token s])%list.

Definition parse_command (command_line : string) : list string :=
  if is_empty (strip command_line) then []
  else lex_finish (lex_loop command_line lexer_init).

(** ** Python dictionaries with string keys *)

Module Dict.

(** Unique keys, in insertion order. *)
Definition dict : Type := list (string * string).

(** [d.get(k)] *)
Fixpoint get (k : string) (d : dict) : option string :=
  match d with
  | [] => None
  | (k', v) :: r => if String.eqb k k' then Some v else get k r
  end.

(** [k in d] *)
Definition mem (k : string) (d : dict) : bool :=
  match get k d with
  | Some _ => true
  | None => false
  end.

(** [d.get(k, default)] *)
Definition get_default (k : string) (default : string) (d : dict) : string :=
  match get k d with
  | Some v => v
  | None => default
  end.

(** [d[k] = v]: an existing key keeps its place, a new key goes last. *)
Fixpoint set (k v : string) (d : dict) : dict :=
  match d with
  | [] => [(k, v)]
  | (k', v') :: r =>
      if String.eqb k k' then (k, v) :: r else (k', v') :: set k v r
  end.

(** [del d[k]] for a key that is present. *)
Fixpoint del (k : string) (d : dict) : dict :=
  match d with
  | [] => []
  | (k', v') :: r => if String.eqb k k' then r else (k', v') :: del k r
  end.

End Dict.
Import Dict.

(** ** Outcomes of Python calls *)

(** A call returns a value or raises an [Exception]; [msg] is the text
    [str(e)] of the exception. *)
Inductive outcome (A : Type) : Type :=
| Returned (a : A)
| Raised (msg : string).

Arguments Returned {A} a.
Arguments Raised {A} msg.

(** What [subprocess.run(..., capture_output=True, text=True, timeout=30)]
    can do, as far as [execute_external_command] tells the cases apart. *)
Inductive run_result : Type :=
| Completed (stdout stderr : string)
| TimeoutExpired
| FileNotFoundError
| OtherException (msg : string).

(** ** The session *)

(** The attributes of a [PythonTerminal] object that one of its methods
    assigns or reads ([processes] is never used). *)
Record PythonTerminal : Type := mkTerminal {
  current_dir : string;
  command_history : list string;
  environment_vars : dict;
  aliases : dict
}.

(** The methods the registry [builtin_commands] refers to. *)
Inductive handler : Type :=
| H_cd | H_pwd | H_ls | H_mkdir | H_rmdir | H_rm | H_cp | H_mv | H_cat
| H_echo | H_touch | H_find | H_grep | H_ps | H_top | H_kill | H_env
| H_export | H_history | H_clear | H_exit | H_help | H_whoami | H_date
| H_uptime | H_df | H_free | H_alias | H_unalias.

(** [self.builtin_commands], in the order of its literal. *)
Definition builtin_commands : list (string * handler) :=
  [ ("cd", H_cd); ("pwd", H_pwd); ("ls", H_ls); ("dir", H_ls);
    ("mkdir", H_mkdir); ("rmdir", H_rmdir); ("rm", H_rm); ("cp", H_cp);
    ("mv", H_mv); ("cat", H_cat); ("echo", H_echo); ("touch", H_touch);
    ("find", H_find); ("grep", H_grep); ("ps", H_ps); ("top", H_top);
    ("kill", H_kill); ("env", H_env); ("export", H_export);
    ("history", H_history); ("clear", H_clear); ("exit", H_exit);
    ("help", H_help); ("whoami", H_whoami); ("date", H_date);
    ("uptime", H_uptime); ("df", H_df); ("free", H_free);
    ("alias", H_alias); ("unalias", H_unalias) ].

(** [self.builtin_commands.get(cmd)] *)
Fixpoint lookup_builtin (cmd : string) (reg : list (string * handler))
  : option handler :=
  match reg with
  | [] => None
  | (k, h) :: r => if String.eqb cmd k then Some h else lookup_builtin cmd r
  end.

(** ** The host *)

(** The part of the process the interpreter writes itself: [os.environ]
    and the working directory of the process; [world] is the rest (file
    system, process table, clock). *)
Record Machine (W : Type) : Type := mkMachine {
  os_environ : dict;
  os_cwd : string;
  world : W
}.

Arguments mkMachine {W} _ _ _.
Arguments os_environ {W} _.
Arguments os_cwd {W} _.
Arguments world {W} _.

(** The library and system calls of the modelled methods. A field that
    returns [option string] stands for a call made for its effect: [None]
    when it returns, [Some msg] when it raises an exception of text [msg].
    [os_chdir] tells where the process is once [os.chdir] has returned:
    the directory [os.getcwd()] would give, which is the path with its
    symbolic links resolved and need not be the path that was asked
    for. *)
Record Host (W : Type) : Type := mkHost {
  (** [os.path.expanduser], [isabs], [join], [abspath], [basename] *)
  path_expanduser : Machine W -> string -> string;
  path_isabs : string -> bool;
  path_join : string -> string -> string;
  path_abspath : Machine W -> string -> string;
  path_basename : string -> string;
  (** [os.path.exists], [os.path.isdir] *)
  path_exists : Machine W -> string -> bool;
  path_isdir : Machine W -> string -> bool;
  (** [os.chdir(path)]: the working directory of the process afterwards,
      or the exception *)
  os_chdir : Machine W -> string -> outcome string;
  (** the check [os.environ[key] = value] makes before it stores *)
  environ_setitem : string -> string -> option string;
  (** [platform.node()] *)
  platform_node : Machine W -> string;
  (** [subprocess.run(full_command, cwd=...)] *)
  subprocess_run : list string -> string -> Machine W -> run_result * W;
  (** the handlers that only wrap file system, process and clock calls:
      they read the session and never assign to it *)
  host_handler :
    handler -> list string -> PythonTerminal -> Machine W -> outcome string * W
}.

Arguments path_expanduser {W} _ _ _.
Arguments path_isabs {W} _ _.
Arguments path_join {W} _ _ _.
Arguments path_abspath {W} _ _ _.
Arguments path_basename {W} _ _.
Arguments path_exists {W} _ _ _.
Arguments path_isdir {W} _ _ _.
Arguments os_chdir {W} _ _ _.
Arguments environ_setitem {W} _ _ _.
Arguments platform_node {W} _ _.
Arguments subprocess_run {W} _ _ _ _.
Arguments host_handler {W} _ _ _ _ _.

(** The object and its process. *)
Record State (W : Type) : Type := mkState {
  term : PythonTerminal;
  machine : Machine W
}.

Arguments mkState {W} _ _.
Arguments term {W} _.
Arguments machine {W} _.

(** ** The built-in handlers and the dispatcher *)

Section Interpreter.

Context {W : Type} (host : Host W).

(** Assignments to the attributes of [self] and to the process. *)
Definition set_current_dir (d : string) (t : PythonTerminal) : PythonTerminal :=
  {| current_dir := d; command_history := command_history t;
     environment_vars := environment_vars t; aliases := aliases t |}.

Definition set_command_history (h : list string) (t : PythonTerminal)
  : PythonTerminal :=
  {| current_dir := current_dir t; command_history := h;
     environment_vars := environment_vars t; aliases := aliases t |}.

Definition set_environment_vars (e : dict) (t : PythonTerminal)
  : PythonTerminal :=
  {| current_dir := current_dir t; command_history := command_history t;
     environment_vars := e; aliases := aliases t |}.

Definition set_aliases (a : dict) (t : PythonTerminal) : PythonTerminal :=
  {| current_dir := current_dir t; command_history := command_history t;
     environment_vars := environment_vars t; aliases := a |}.

Definition set_os_environ (e : dict) (m : Machine W) : Machine W :=
  mkMachine e (os_cwd m) (world m).

Definition set_os_cwd (d : string) (m : Machine W) : Machine W :=
  mkMachine (os_environ m) d (world m).

Definition set_world (w : W) (m : Machine W) : Machine W :=
  mkMachine (os_environ m) (os_cwd m) w.

(** *** [cmd_cd] *)

(** The path [cmd_cd] tests: the operand (the home directory without one,
    the recorded previous directory for [-]), expanded, made absolute
    from [self.current_dir] and normalised. *)
Definition cd_target (args : list string) (st : State W) : string :=
  let t := term st in
  let m := machine st in
  let target :=
    match args with
    | [] => path_expanduser host m "~"
    | a :: _ =>
        if String.eqb a "-"
        then Dict.get_default "OLDPWD" (current_dir t) (environment_vars t)
        else a
    end in
  let target := path_expanduser host m target in
  let target :=
    if path_isabs host target then target
    else path_join host (current_dir t) target in
  path_abspath host m target.

Definition cmd_cd (args : list string) (st : State W)
  : outcome string * State W :=
  let t := term st in
  let m := machine st in
  let target := cd_target args st in
  if path_exists host m target && path_isdir host m target then
    let t := set_environment_vars
               (Dict.set "OLDPWD" (current_dir t) (environment_vars t)) t in
    let t := set_current_dir target t in
    match os_chdir host m target with
    | Returned cwd => (Returned EmptyString, mkState t (set_os_cwd cwd m))
    | Raised msg => (Returned ("cd: " ++ msg), mkState t m)
    end
  else
    (Returned ("cd: " ++ target ++ ": No such file or directory"), st).

(** *** [cmd_pwd], [cmd_echo], [cmd_clear], [cmd_exit], [cmd_whoami] *)

Definition cmd_pwd (args : list string) (st : State W)
  : outcome string * State W :=
  (Returned (current_dir (term st)), st).

Definition cmd_echo (args : list string) (st : State W)
  : outcome string * State W :=
  (Returned (join " " args), st).

Definition cmd_clear (args : list string) (st : State W)
  : outcome string * State W :=
  (Returned (esc ++ "[2J" ++ esc ++ "[H"), st).

Definition cmd_exit (args : list string) (st : State W)
  : outcome string * State W :=
  (Returned "EXIT", st).

(** [os.getenv('USER', os.getenv('USERNAME', 'user'))] *)
Definition whoami (m : Machine W) : string :=
  Dict.get_default "USER"
    (Dict.get_default "USERNAME" "user" (os_environ m)) (os_environ m).

Definition cmd_whoami (args : list string) (st : State W)
  : outcome string * State W :=
  (Returned (whoami (machine st)), st).

(** *** [cmd_help] *)

(** [sorted] on strings: insertion into a sorted list, by code points. *)
Fixpoint insert_sorted (s : string) (l : list string) : list string :=
  match l with
  | [] => [s]
  | x :: r => if String.leb s x then s :: l else x :: insert_sorted s r
  end.

Definition sorted (l : list string) : list string :=
  fold_right insert_sorted [] l.

Definition cmd_help (args : list string) (st : State W)
  : outcome string * State W :=
  let commands := sorted (map fst builtin_commands) in
  (Returned ("Available commands:" ++ nl ++ join ", " commands), st).

(** *** [cmd_env] and [cmd_export] *)

Definition cmd_env (args : list string) (st : State W)
  : outcome string * State W :=
  let env := environment_vars (term st) in
  match args with
  | [] => (Returned (join nl (map (fun kv => fst kv ++ "=" ++ snd kv) env)), st)
  | var_name :: _ =>
      (Returned (Dict.get_default var_name
                   ("env: " ++ var_name ++ ": not found") env), st)
  end.

(** The loop [for arg in args] of [cmd_export]. The store into
    [os.environ] comes after the store into [self.environment_vars] and
    may raise; nothing in [cmd_export] catches it. *)
Fixpoint export_loop (args : list string) (st : State W)
  : outcome string * State W :=
  match args with
  | [] => (Returned EmptyString, st)
  | arg :: rest =>
      match split_once "=" arg with
      | Some (key, value) =>
          let t := set_environment_vars
                     (Dict.set key value (environment_vars (term st)))
                     (term st) in
          match environ_setitem host key value with
          | Some msg => (Raised msg, mkState t (machine st))
          | None =>
              let m := set_os_environ
                         (Dict.set key value (os_environ (machine st)))
                         (machine st) in
              export_loop rest (mkState t m)
          end
      | None =>
          (Returned ("export: invalid format " ++ SQ ++ arg ++ SQ), st)
      end
  end.

Definition cmd_export (args : list string) (st : State W)
  : outcome string * State W :=
  match args with
  | [] => (Returned "export: missing operand", st)
  | _ => export_loop args st
  end.

(** *** [cmd_history] *)

(** [l[-n:]] for a positive [n]. *)
Definition last_n {A : Type} (n : nat) (l : list A) : list A :=
  skipn (List.length l - n) l.

(** [enumerate(l, start)] *)
Fixpoint enumerate {A : Type} (start : nat) (l : list A) : list (nat * A) :=
  match l with
  | [] => []
  | x :: r => (start, x) :: enumerate (S start) r
  end.

(** The pairs [(i, cmd)] the loop of [cmd_history] visits. *)
Definition history_rows (h : list string) : list (nat * string) :=
  enumerate 1 (last_n 20 h).

(** The f-string [{i:3} {cmd}]. *)
Definition history_line (row : nat * string) : string :=
  rjust 3 (str_of_nat (fst row)) ++ " " ++ snd row.

Definition history_text (h : list string) : string :=
  match h with
  | [] => EmptyString
  | _ => join nl (map history_line (history_rows h))
  end.

Definition cmd_history (args : list string) (st : State W)
  : outcome string * State W :=
  (Returned (history_text (command_history (term st))), st).

(** *** [cmd_alias] and [cmd_unalias] *)

Fixpoint alias_loop (args : list string) (st : State W)
  : outcome string * State W :=
  match args with
  | [] => (Returned EmptyString, st)
  | arg :: rest =>
      match split_once "=" arg with
      | Some (alias, command) =>
          let a := Dict.set alias (strip_with is_quote command)
                     (aliases (term st)) in
          alias_loop rest (mkState (set_aliases a (term st)) (machine st))
      | None =>
          (Returned ("alias: invalid format " ++ SQ ++ arg ++ SQ), st)
      end
  end.

Definition cmd_alias (args : list string) (st : State W)
  : outcome string * State W :=
  match args with
  | [] =>
      (Returned (join nl (map (fun kv => fst kv ++ "=" ++ SQ ++ snd kv ++ SQ)
                            (aliases (term st)))), st)
  | _ => alias_loop args st
  end.

Fixpoint unalias_loop (args : list string) (st : State W)
  : outcome string * State W :=
  match args with
  | [] => (Returned EmptyString, st)
  | alias :: rest =>
      if Dict.mem alias (aliases (term st)) then
        let a := Dict.del alias (aliases (term st)) in
        unalias_loop rest (mkState (set_aliases a (term st)) (machine st))
      else
        (Returned ("unalias: " ++ alias ++ ": not found"), st)
  end.

Definition cmd_unalias (args : list string) (st : State W)
  : outcome string * State W :=
  match args with
  | [] => (Returned "unalias: missing operand", st)
  | _ => unalias_loop args st
  end.

(** *** The handlers left to the host *)

(** [cmd_ls], [cmd_mkdir], [cmd_rmdir], [cmd_rm], [cmd_cp], [cmd_mv],
    [cmd_cat], [cmd_touch], [cmd_find], [cmd_grep], [cmd_ps], [cmd_top],
    [cmd_kill], [cmd_date], [cmd_uptime], [cmd_df] and [cmd_free] only
    call the file system, [psutil] and the clock: they change the world
    and no attribute of [self]. *)
Definition cmd_host (h : handler) (args : list string) (st : State W)
  : outcome string * State W :=
  let (o, w) := host_handler host h args (term st) (machine st) in
  (o, mkState (term st) (set_world w (machine st))).

(** The call [self.builtin_commands[cmd](args)]. *)
Definition run_handler (h : handler) (args : list string) (st : State W)
  : outcome string * State W :=
  match h with
  | H_cd => cmd_cd args st
  | H_pwd => cmd_pwd args st
  | H_echo => cmd_echo args st
  | H_env => cmd_env args st
  | H_export => cmd_export args st
  | H_history => cmd_history args st
  | H_clear => cmd_clear args st
  | H_exit => cmd_exit args st
  | H_help => cmd_help args st
  | H_whoami => cmd_whoami args st
  | H_alias => cmd_alias args st
  | H_unalias => cmd_unalias args st
  | H_ls | H_mkdir | H_rmdir | H_rm | H_cp | H_mv | H_cat | H_touch
  | H_find | H_grep | H_ps | H_top | H_kill | H_date | H_uptime | H_df
  | H_free => cmd_host h args st
  end.

(** *** [execute_external_command] *)

Definition execute_external_command (cmd : string) (args : list string)
  (st : State W) : outcome string * State W :=
  let full_command := cmd :: args in
  let (r, w) :=
    subprocess_run host full_command (current_dir (term st)) (machine st) in
  let st := mkState (term st) (set_world w (machine st)) in
  match r with
  | Completed stdout stderr =>
      let output :=
        if is_empty stderr then stdout
        else stdout ++ nl ++ "Error: " ++ stderr in
      (Returned (strip output), st)
  | TimeoutExpired => (Returned "Error: Command timed out", st)
  | FileNotFoundError =>
      (Returned ("Error: Command " ++ SQ ++ cmd ++ SQ ++ " not found"), st)
  | OtherException msg => (Returned ("Error: " ++ msg), st)
  end.

(** *** [execute_command] *)

(** [if command_line.strip(): self.command_history.append(command_line)] *)
Definition record_history (command_line : string) (t : PythonTerminal)
  : PythonTerminal :=
  if is_empty (strip command_line) then t
  else set_command_history (command_history t ++ [command_line])%list t.

(** [if cmd in self.aliases: cmd = self.aliases[cmd]] *)
Definition resolve_alias (cmd : string) (a : dict) : string :=
  match Dict.get cmd a with
  | Some replacement => replacement
  | None => cmd
  end.

(** The body of the [try] block. *)
Definition try_execute (command_line : string) (st : State W)
  : outcome string * State W :=
  let st := mkState (record_history command_line (term st)) (machine st) in
  match parse_command command_line with
  | [] => (Returned EmptyString, st)
  | cmd :: args =>
      let cmd := resolve_alias cmd (aliases (term st)) in
      match lookup_builtin cmd builtin_commands with
      | Some h => run_handler h args st
      | None => execute_external_command cmd args st
      end
  end.

(** The [try] block with its handler [except Exception as e]. *)
Definition execute_command (command_line : string) (st : State W)
  : string * State W :=
  match try_execute command_line st with
  | (Returned output, st') => (output, st')
  | (Raised msg, st') => ("Error: " ++ msg, st')
  end.

(** *** [get_prompt] and the loop of [run] *)

Definition get_prompt (st : State W) : string :=
  let user := whoami (machine st) in
  let hostname := platform_node host (machine st) in
  let base := path_basename host (current_dir (term st)) in
  let current_dir := if is_empty base then current_dir (term st) else base in
  user ++ "@" ++ hostname ++ ":" ++ current_dir ++ "$ ".

(** What one call of [input(prompt)] can do. *)
Inductive input_event : Type :=
| Line (text : string)
| KeyboardInterrupt
| EOFError.

(** The state of the loop after the inputs read so far: the texts it
    printed, the session, and whether it has executed [break]. *)
Record loop_state : Type := mkLoop {
  printed : list string;
  session : State W;
  stopped : bool
}.

(** The [while True] loop of [run] over the inputs [inputs], with the
    texts it hands to [print]. The prompt of each turn is [get_prompt],
    shown by [input] and not printed; the three lines of the banner
    come before the loop. *)
Fixpoint run_loop (inputs : list input_event) (st : State W)
  (out : list string) : loop_state :=
  match inputs with
  | [] => mkLoop out st false
  | KeyboardInterrupt :: rest => run_loop rest st (out ++ [(nl ++ "^C")%string])%list
  | EOFError :: _ => mkLoop (out ++ [(nl ++ "Goodbye!")%string])%list st true
  | Line text :: rest =>
      let command := strip text in
      if is_empty command then run_loop rest st out
      else
        let (output, st') := execute_command command st in
        if String.eqb output "EXIT" then
          mkLoop (out ++ ["Goodbye!"])%list st' true
        else if is_empty output then run_loop rest st' out
        else run_loop rest st' (out ++ [output])%list
  end.

End Interpreter.

(** ** A concrete host: a small POSIX machine *)

Module Posix.

(** The world of the sample machine: its directories and regular files
    by absolute normalised path, the symbolic links with the directory
    each stands for, the directories the process may not enter, the
    password database (user name to home directory), the user of the
    process, the programs on the search path with what running each
    comes to, the text of the regular files that have one, and the
    processes by number, each with its name. *)
Record PosixWorld : Type := mkWorld {
  dirs : list string;
  files : list string;
  links : dict;
  locked : list string;
  passwd : dict;
  login : string;
  programs : list (string * run_result);
  contents : dict;
  process_table : list (N * string)
}.

Definition mem_str (s : string) (l : list string) : bool :=
  existsb (String.eqb s) l.

(** [s.split('/')] *)
Fixpoint split_on (c : ascii) (s : string) : list string :=
  match s with
  | EmptyString => [EmptyString]
  | String d r =>
      if Ascii.eqb d c then EmptyString :: split_on c r
      else match split_on c r with
           | x :: xs => String d x :: xs
           | [] => [String d EmptyString]
           end
  end.

(** [s.endswith('/')] *)
Fixpoint ends_with_slash (s : string) : bool :=
  match s with
  | EmptyString => false
  | String c EmptyString => Ascii.eqb c "/"
  | String _ r => ends_with_slash r
  end.

(** [posixpath.isabs] *)
Definition isabs (s : string) : bool := startswith s "/".

(** [posixpath.join(a, b)] *)
Definition join2 (a b : string) : string :=
  if startswith b "/" then b
  else if is_empty a || ends_with_slash a then a ++ b
  else a ++ "/" ++ b.

(** The loop of [posixpath.normpath]; [new_comps] is kept last first. *)
Fixpoint norm_comps (initial_slashes : nat) (comps new_comps : list string)
  : list string :=
  match comps with
  | [] => new_comps
  | comp :: rest =>
      if String.eqb comp EmptyString || String.eqb comp "." then
        norm_comps initial_slashes rest new_comps
      else if negb (String.eqb comp "..")
              || (Nat.eqb initial_slashes 0
                  && match new_comps with [] => true | _ => false end)
              || match new_comps with
                 | top :: _ => String.eqb top ".."
                 | [] => false
                 end
      then norm_comps initial_slashes rest (comp :: new_comps)
      else norm_comps initial_slashes rest (tl new_comps)
  end.

(** [posixpath.normpath] *)
Definition normpath (path : string) : string :=
  if is_empty path then "."
  else
    let initial_slashes :=
      if startswith path "/" then
        if startswith path "//" && negb (startswith path "///") then 2 else 1
      else 0 in
    let comps := rev (norm_comps initial_slashes (split_on "/" path) []) in
    let path := replicate initial_slashes "/" ++ join "/" comps in
    if is_empty path then "." else path.

(** [posixpath.abspath] *)
Definition abspath (m : Machine PosixWorld) (path : string) : string :=
  normpath (if isabs path then path else join2 (os_cwd m) path).

(** [posixpath.basename] *)
Definition basename (p : string) : string :=
  last (split_on "/" p) EmptyString.

(** [posixpath.expanduser] *)
Definition expanduser (m : Machine PosixWorld) (path : string) : string :=
  match path with
  | String "~" rest =>
      let (name, tail) :=
        match split_once "/" rest with
        | Some (name, after) => (name, "/" ++ after)
        | None => (rest, EmptyString)
        end in
      let userhome :=
        if is_empty name then
          match Dict.get "HOME" (os_environ m) with
          | Some h => Some h
          | None => Dict.get (login (world m)) (passwd (world m))
          end
        else Dict.get name (passwd (world m)) in
      match userhome with
      | None => path
      | Some h =>
          let r := rstrip_with (Ascii.eqb "/") h ++ tail in
          if is_empty r then "/" else r
      end
  | _ => path
  end.

(** The directory a path leads to: a symbolic link is followed when it
    is the whole path. *)
Definition realpath (m : Machine PosixWorld) (path : string) : string :=
  let a := abspath m path in
  Dict.get_default a a (links (world m)).

Definition isdir (m : Machine PosixWorld) (path : string) : bool :=
  mem_str (realpath m path) (dirs (world m)).

Definition exists_ (m : Machine PosixWorld) (path : string) : bool :=
  isdir m path || mem_str (abspath m path) (files (world m)).

(** [os.chdir]: refused on a path that is no directory or may not be
    entered; otherwise the process is in the directory the path leads
    to. *)
Definition chdir (m : Machine PosixWorld) (path : string) : outcome string :=
  if negb (isdir m path) then
    Raised ("[Errno 2] No such file or directory: " ++ SQ ++ path ++ SQ)
  else if mem_str (realpath m path) (locked (world m)) then
    Raised ("[Errno 13] Permission denied: " ++ SQ ++ path ++ SQ)
  else Returned (realpath m path).

(** [os.environ[key] = value]: [putenv] refuses an empty name. *)
Definition setitem_check (key value : string) : option string :=
  if is_empty key then Some "[Errno 22] Invalid argument" else None.

(** [dict(l).get(k)] for a list of pairs without repeated keys *)
Fixpoint assoc {A : Type} (k : string) (l : list (string * A)) : option A :=
  match l with
  | [] => None
  | (k', v) :: r => if String.eqb k k' then Some v else assoc k r
  end.

(** [subprocess.run]: the child starts in [cwd], which has to be a
    directory the process may enter; a program on the search path does
    what the world says; any other name is not found. *)
Definition run_program (full_command : list string) (cwd : string)
  (m : Machine PosixWorld) : run_result * PosixWorld :=
  match full_command with
  | prog :: _ =>
      if negb (isdir m cwd) then (FileNotFoundError, world m)
      else if mem_str (realpath m cwd) (locked (world m)) then
        (OtherException ("[Errno 13] Permission denied: " ++ SQ ++ cwd ++ SQ),
         world m)
      else
        match assoc prog (programs (world m)) with
        | Some r => (r, world m)
        | None => (FileNotFoundError, world m)
        end
  | [] => (OtherException "list index out of range", world m)
  end.

(** The file and process commands of the sample machine have nothing to
    report. *)
Definition quiet_handler (h : handler) (args : list string)
  (t : PythonTerminal) (m : Machine PosixWorld) : outcome string * PosixWorld :=
  (Returned EmptyString, world m).

Definition host : Host PosixWorld :=
  {| path_expanduser := expanduser;
     path_isabs := isabs;
     path_join := join2;
     path_abspath := abspath;
     path_basename := basename;
     path_exists := exists_;
     path_isdir := isdir;
     os_chdir := chdir;
     environ_setitem := setitem_check;
     platform_node := fun _ => "localhost";
     subprocess_run := run_program;
     host_handler := quiet_handler |}.

(** A machine with a home directory holding [subdir] and a directory
    [vault] that may not be entered. Of its programs, [banner] prints a
    word, [moan] writes to the error stream only, [sleeper] does not end
    in time, and [broken] cannot be started. *)
Definition sample_world : PosixWorld :=
  {| dirs := ["/"; "/home"; "/home/user"; "/home/user/subdir";
              "/home/user/vault"; "/tmp"];
     files := ["/home/user/notes.txt"];
     links := [];
     locked := ["/home/user/vault"];
     passwd := [("user", "/home/user")];
     login := "user";
     programs :=
       [("banner", Completed ("EXIT" ++ nl) EmptyString);
        ("moan", Completed EmptyString ("no luck" ++ nl));
        ("sleeper", TimeoutExpired);
        ("broken", OtherException "[Errno 8] Exec format error: 'broken'")];
     contents := [("/home/user/notes.txt", "milk" ++ nl ++ "Eggs" ++ nl)];
     process_table := [(1%N, "init"); (40%N, "python3")] |}.

Definition sample_environ : dict :=
  [("HOME", "/home/user"); ("USER", "user"); ("PATH", "/usr/bin")].

(** [PythonTerminal()] on that machine, started in the home directory:
    the state after [__init__]. *)
Definition start : State PosixWorld :=
  {| term := {| current_dir := "/home/user";
                command_history := [];
                environment_vars := sample_environ;
                aliases := [] |};
     machine := mkMachine sample_environ "/home/user" sample_world |}.

(** The same session on a machine where [/home/user/link] is a symbolic
    link to the directory [/tmp]. *)
Definition linked : State PosixWorld :=
  {| term := term start;
     machine :=
       mkMachine sample_environ "/home/user"
         {| dirs := dirs sample_world;
            files := files sample_world;
            links := [("/home/user/link", "/tmp")];
            locked := locked sample_world;
            passwd := passwd sample_world;
            login := login sample_world;
            programs := programs sample_world;
            contents := contents sample_world;
            process_table := process_table sample_world |} |}.

(** The session after the lines [lines], in order. *)
Definition after (lines : list string) (st : State PosixWorld) : State PosixWorld :=
  fold_left (fun s line => snd (execute_command host line s)) lines st.

End Posix.

(** ** Notions the statements are written with *)

(** Every character of [s] satisfies [p]. *)
Fixpoint all_chars (p : ascii -> bool) (s : string) : bool :=
  match s with
  | EmptyString => true
  | String c r => p c && all_chars p r
  end.

(** An empty or white-space-only line. *)
Definition blank (line : string) : Prop := all_chars is_space line = true.

(** Where the dispatcher sends a line: to a handler of the registry, to
    the external bridge, or nowhere (a line without tokens). *)
Inductive route : Type :=
| ToBuiltin (h : handler) (args : list string)
| ToExternal (cmd : string) (args : list string)
| NoCommand.

Definition route_of (a : dict) (command_line : string) : route :=
  match parse_command command_line with
  | [] => NoCommand
  | cmd :: args =>
      let cmd := resolve_alias cmd a in
      match lookup_builtin cmd builtin_commands with
      | Some h => ToBuiltin h args
      | None => ToExternal cmd args
      end
  end.

(** What the dispatcher runs for a route. *)
Definition follow {W : Type} (host : Host W) (r : route) (st : State W)
  : outcome string * State W :=
  match r with
  | ToBuiltin h args => run_handler host h args st
  | ToExternal cmd args => execute_external_command host cmd args st
  | NoCommand => (Returned EmptyString, st)
  end.

(** The session with the line recorded, as the handlers find it. *)
Definition recorded {W : Type} (command_line : string) (st : State W)
  : State W :=
  mkState (record_history command_line (term st)) (machine st).

(** The handlers whose every output is empty, a fixed text, or made of
    lines that start with a fixed word or hold a fixed character. *)
Definition fixed_form (h : handler) : bool :=
  match h with
  | H_cd | H_mkdir | H_rmdir | H_rm | H_cp | H_mv | H_touch | H_grep | H_ps
  | H_top | H_kill | H_export | H_history | H_clear | H_help | H_date
  | H_uptime | H_df | H_free | H_alias | H_unalias => true
  | _ => false
  end.

(** A text other than the sentinel. *)
Definition not_sentinel (text : string) : Prop := text <> "EXIT".

(** A log of 21 entries, [c1] to [c21]. *)
Definition log21 : list string :=
  map (fun i => "c" ++ str_of_nat i) (seq 1 21).

(** The line that defines the alias [ll] with the quoted text [ls -l]. *)
Definition alias_ll_line : string := "alias ll=" ++ SQ ++ "ls -l" ++ SQ.

(** The history contract in the words of the specification: [recent n]
    is the ordered sequence, oldest first, of at most the last [n]
    entries of the log, each with its 1-based sequence number in the
    log. *)
Definition recent (n : nat) (log : list string) : list (nat * string) :=
  last_n n (enumerate 1 log).

(** No token the loop has emitted is empty. *)
Definition tokens_nonempty (s : lexer) : Prop :=
  Forall (fun t => t <> EmptyString) (tokens s).

(** ** Further notions *)

(** A character of a word typed without quoting: no white space and no
    quote character. *)
Definition plain_char (c : ascii) : bool := negb (is_space c || is_quote c).

(** A word typed without quoting: not empty, plain characters only. *)
Definition plain_word (w : string) : bool :=
  negb (is_empty w) && all_chars plain_char w.

(** The text [body] between two quote characters [q]. *)
Definition quoted (q : ascii) (body : string) : string :=
  String q (body ++ str1 q).

(** The keys of a dictionary, in order. *)
Definition keys (d : dict) : list string := map fst d.

(** The three dictionaries of a state are dictionaries: no key twice. *)
Definition dicts_unique {W : Type} (st : State W) : Prop :=
  NoDup (keys (aliases (term st))) /\
  NoDup (keys (environment_vars (term st))) /\
  NoDup (keys (os_environ (machine st))).

(** [needle in s] on strings. *)
Fixpoint str_in (needle s : string) : bool :=
  match s with
  | EmptyString => is_empty needle
  | String _ r => String.prefix needle s || str_in needle r
  end.


(** A name the cd handler can go to as it stands: expansion and
    normalisation leave it alone, it is absolute, it names a directory,
    and the process may enter it. *)
Definition enterable {W : Type} (host : Host W) (m : Machine W) (d : string)
  : Prop :=
  path_expanduser host m d = d /\
  path_isabs host d = true /\
  path_abspath host m d = d /\
  path_exists host m d = true /\
  path_isdir host m d = true /\
  exists cwd, os_chdir host m d = Returned cwd.

(** ** The window: [TerminalUI] of [terminal_ui.py] *)

Module UI.

Section Window.

Context {W : Type} (host : Host W).

(** The attributes of a [TerminalUI] object, with the state of the two
    widgets. [output_box] lists the calls of [append_output] so far,
    each as the text it inserted ([text + end]) and the colour it was
    called with; the text of the output widget is these texts one after
    the other. The widget has the one tag [color]: [color_ranges] are
    the ranges of characters that carry it, each as the offsets of its
    first character and of the character after its last, and
    [color_foreground] is the foreground the tag is configured with
    ([None] before the first [tag_config]); a character outside the
    ranges is shown in the foreground of the widget. [entry] is the
    text in the entry widget; [quit_called] tells that [master.quit()]
    has run. *)
Record TerminalUI : Type := mkUI {
  terminal : State W;
  output_box : list (string * string);
  entry : string;
  history : list string;
  history_index : Z;
  quit_called : bool;
  color_ranges : list (nat * nat);
  color_foreground : option string
}.

Definition set_terminal (t : State W) (ui : TerminalUI) : TerminalUI :=
  mkUI t (output_box ui) (entry ui) (history ui) (history_index ui)
    (quit_called ui) (color_ranges ui) (color_foreground ui).

Definition set_entry (e : string) (ui : TerminalUI) : TerminalUI :=
  mkUI (terminal ui) (output_box ui) e (history ui) (history_index ui)
    (quit_called ui) (color_ranges ui) (color_foreground ui).

Definition set_history (h : list string) (i : Z) (ui : TerminalUI)
  : TerminalUI :=
  mkUI (terminal ui) (output_box ui) (entry ui) h i (quit_called ui)
    (color_ranges ui) (color_foreground ui).

Definition set_history_index (i : Z) (ui : TerminalUI) : TerminalUI :=
  mkUI (terminal ui) (output_box ui) (entry ui) (history ui) i
    (quit_called ui) (color_ranges ui) (color_foreground ui).

Definition set_quit_called (ui : TerminalUI) : TerminalUI :=
  mkUI (terminal ui) (output_box ui) (entry ui) (history ui)
    (history_index ui) true (color_ranges ui) (color_foreground ui).

(** The object at the end of [__init__], before its first prompt. *)
Definition created (t : State W) : TerminalUI :=
  mkUI t [] EmptyString [] (-1)%Z false [] None.

(** The text of the output widget, without the newline that Tk keeps
    after it. *)
Definition box_text (box : list (string * string)) : string :=
  fold_right (fun call rest => fst call ++ rest) EmptyString box.

(** The offset at which the last line of a text starts: the one after
    its last newline. *)
Fixpoint line_start (text : string) : nat :=
  match text with
  | EmptyString => 0
  | String c r =>
      if mem_char (chr 10) r then S (line_start r)
      else if Ascii.eqb c (chr 10) then 1
      else 0
  end.

(** [append_output(text, color, end)]. The text goes in before the
    newline that ends the widget, so [end-1c] is the end of the text:
    [tag_add] is given the last line of the text, from [end-1c
    linestart] to [end-1c lineend], and does nothing when that line is
    empty; [tag_config] then sets the foreground of the tag, for every
    range that carries it. The inserted characters get no tag from
    their neighbours, as the newline after them carries none. *)
Definition append_output (text color end_ : string) (ui : TerminalUI)
  : TerminalUI :=
  let box := (output_box ui ++ [((text ++ end_)%string, color)])%list in
  let first := line_start (box_text box) in
  let last := String.length (box_text box) in
  let ranges :=
    if Nat.ltb first last then (color_ranges ui ++ [(first, last)])%list
    else color_ranges ui in
  mkUI (terminal ui) box (entry ui) (history ui) (history_index ui)
    (quit_called ui) ranges (Some color).

(** The character at offset [i] of the output widget carries the tag. *)
Definition carries_tag (ui : TerminalUI) (i : nat) : bool :=
  existsb (fun r => Nat.leb (fst r) i && Nat.ltb i (snd r)) (color_ranges ui).

(** No range of the tag reaches beyond the text. *)
Definition tag_in_text (ui : TerminalUI) : Prop :=
  Forall (fun r => snd r <= String.length (box_text (output_box ui)))
    (color_ranges ui).

(** [show_prompt] *)
Definition show_prompt (ui : TerminalUI) : TerminalUI :=
  let prompt_text := get_prompt host (terminal ui) in
  let (user_host, current_dir) :=
    match split_once ":" prompt_text with
    | Some (a, b) => (a, b)
    | None => (prompt_text, EmptyString)
    end in
  let ui := append_output (user_host ++ ":") "green" EmptyString ui in
  append_output (current_dir ++ "$ ") "blue" EmptyString ui.

(** The test of [run_command] that picks the colour red. *)
Definition looks_like_error (output : string) : bool :=
  str_in "Error:" output || str_in "No such file" output
  || str_in "invalid" output.

(** [run_command] *)
Definition run_command (ui : TerminalUI) : TerminalUI :=
  let command := strip (entry ui) in
  if is_empty command then show_prompt ui
  else
    let h := (history ui ++ [command])%list in
    let ui := set_history h (Z.of_nat (List.length h)) ui in
    let ui := append_output command "white" nl ui in
    let (output, t) := execute_command host command (terminal ui) in
    let ui := set_terminal t ui in
    let ui :=
      if String.eqb output "EXIT" then
        set_quit_called (append_output "Goodbye!" "red" nl ui)
      else if looks_like_error output then append_output output "red" nl ui
      else append_output output "white" nl ui in
    let ui := set_entry EmptyString ui in
    show_prompt ui.

(** [l[i]] for a Python list and an integer: [None] stands for
    [IndexError]. *)
Definition getitem (l : list string) (i : Z) : option string :=
  let n := Z.of_nat (List.length l) in
  if (0 <=? i)%Z then nth_error l (Z.to_nat i)
  else if (- n <=? i)%Z then nth_error l (Z.to_nat (n + i))
  else None.

(** The end of [history_up] and of [history_down]: the entry is emptied,
    then the item of the history is looked up and inserted. *)
Definition recall (ui : TerminalUI) : outcome unit * TerminalUI :=
  let ui := set_entry EmptyString ui in
  match getitem (history ui) (history_index ui) with
  | Some item => (Returned tt, set_entry item ui)
  | None => (Raised "list index out of range", ui)
  end.

(** [history_up] *)
Definition history_up (ui : TerminalUI) : outcome unit * TerminalUI :=
  match history ui with
  | [] => (Returned tt, ui)
  | _ =>
      recall (set_history_index (Z.max 0 (history_index ui - 1)) ui)
  end.

(** [history_down] *)
Definition history_down (ui : TerminalUI) : outcome unit * TerminalUI :=
  match history ui with
  | [] => (Returned tt, ui)
  | _ =>
      let n := Z.of_nat (List.length (history ui)) in
      let ui := set_history_index (Z.min (n - 1) (history_index ui + 1)) ui in
      if (history_index ui <? n)%Z then recall ui
      else (Returned tt, set_entry EmptyString ui)
  end.

(** What the user does between two events: type a text into the entry. *)
Definition type_text (text : string) (ui : TerminalUI) : TerminalUI :=
  set_entry text ui.

(** The index of the history is between [-1] and the length. *)
Definition index_in_range (ui : TerminalUI) : Prop :=
  (-1 <= history_index ui <= Z.of_nat (List.length (history ui)))%Z.

End Window.

End UI.

(** ** Two handlers on the file system: [cmd_ls] and [cmd_rm] *)

(** [x in l] for a list of strings. *)
Definition in_list (x : string) (l : list string) : bool :=
  existsb (String.eqb x) l.

(** [[arg for arg in args if not arg.startswith("-")]] *)
Definition operands (args : list string) : list string :=
  filter (fun arg => negb (startswith arg "-")) args.

(** What [cmd_rm] tells apart in an exception of [os.remove] or
    [shutil.rmtree]: [FileNotFoundError], or any other [Exception]. *)
Inductive os_error : Type :=
| NotFound (msg : string)
| OtherError (msg : string).

(** The calls of the two handlers that [Host] does not have yet. The
    calls that only read are functions of the machine; [os.remove] and
    [shutil.rmtree] return the new world, with the error if they raise.
    [os_stat] stands for the body of the inner [try] of [cmd_ls]: the
    size [st_size] and the text of [st_mtime] in the format
    [%b %d %H:%M], or [None] when anything there raises. *)
Record FileOps (W : Type) : Type := mkFileOps {
  os_listdir : Machine W -> string -> outcome (list string);
  path_isfile : Machine W -> string -> bool;
  path_dirname : string -> string;
  os_stat : Machine W -> string -> option (nat * string);
  os_remove : Machine W -> string -> option os_error * W;
  shutil_rmtree : Machine W -> string -> option os_error * W
}.

Arguments os_listdir {W} _ _ _.
Arguments path_isfile {W} _ _ _.
Arguments path_dirname {W} _ _.
Arguments os_stat {W} _ _ _.
Arguments os_remove {W} _ _ _.
Arguments shutil_rmtree {W} _ _ _.

Section FileHandlers.

Context {W : Type} (host : Host W) (fs : FileOps W).

(** *** [cmd_ls] *)

(** The list [items] of [cmd_ls] after [items.sort()], with the
    directory the items are in; [Raised] when [os.listdir] raises. *)
Definition ls_items (show_hidden : bool) (target_path : string)
  (m : Machine W) : outcome (list string * string) :=
  let listed :=
    if path_isfile fs m target_path then
      Returned ([path_basename host target_path],
                path_dirname fs target_path)
    else
      match os_listdir fs m target_path with
      | Returned items => Returned (items, target_path)
      | Raised msg => Raised msg
      end in
  match listed with
  | Returned (items, target_path) =>
      let items :=
        if show_hidden then items
        else filter (fun item => negb (startswith item ".")) items in
      Returned (sorted items, target_path)
  | Raised msg => Raised msg
  end.

(** One line of the long format. *)
Definition ls_long_line (target_path : string) (m : Machine W)
  (item : string) : string :=
  let item_path := path_join host target_path item in
  match os_stat fs m item_path with
  | Some (size, mtime) =>
      let is_dir := if path_isdir host m item_path then "d" else "-" in
      is_dir ++ "rwxr-xr-x 1 user user " ++ rjust 8 (str_of_nat size)
      ++ " " ++ mtime ++ " " ++ item
  | None => "?????????? ? ?    ?    ?        ? ? " ++ item
  end.

Definition cmd_ls (args : list string) (t : PythonTerminal) (m : Machine W)
  : outcome string * W :=
  let show_hidden := in_list "-a" args || in_list "--all" args in
  let long_format := in_list "-l" args || in_list "--long" args in
  let target_path :=
    match operands args with
    | p :: _ => p
    | [] => current_dir t
    end in
  if negb (path_exists host m target_path) then
    (Returned ("ls: " ++ target_path ++ ": No such file or directory"),
     world m)
  else
    match ls_items show_hidden target_path m with
    | Returned (items, target_path) =>
        if long_format then
          (Returned (join nl (map (ls_long_line target_path m) items)),
           world m)
        else (Returned (join "  " items), world m)
    | Raised msg => (Returned ("ls: " ++ msg), world m)
    end.

(** *** [cmd_rm] *)

(** The lines the two [except] clauses add for one operand. *)
Definition rm_report (force : bool) (file_path : string)
  (e : option os_error) : list string :=
  match e with
  | None => []
  | Some (NotFound _) =>
      if force then []
      else ["rm: " ++ file_path ++ ": No such file or directory"]
  | Some (OtherError msg) => ["rm: " ++ file_path ++ ": " ++ msg]
  end.

(** The loop [for file_path in files]. *)
Fixpoint rm_loop (recursive force : bool) (files : list string)
  (m : Machine W) (results : list string) : list string * W :=
  match files with
  | [] => (results, world m)
  | file_path :: rest =>
      if path_isdir host m file_path then
        if recursive then
          let (e, w) := shutil_rmtree fs m file_path in
          rm_loop recursive force rest (set_world w m)
            (results ++ rm_report force file_path e)
        else
          rm_loop recursive force rest m
            (results ++ [("rm: " ++ file_path ++ ": is a directory")%string])
      else
        let (e, w) := os_remove fs m file_path in
        rm_loop recursive force rest (set_world w m)
          (results ++ rm_report force file_path e)
  end.

Definition cmd_rm (args : list string) (t : PythonTerminal) (m : Machine W)
  : outcome string * W :=
  match args with
  | [] => (Returned "rm: missing operand", world m)
  | _ =>
      let recursive :=
        in_list "-r" args || in_list "-R" args || in_list "--recursive" args in
      let force := in_list "-f" args || in_list "--force" args in
      let (results, w) := rm_loop recursive force (operands args) m [] in
      (Returned (join nl results), w)
  end.

(** The host whose handlers for [ls], [dir] and [rm] are the two
    above; the other handlers stay with [host]. *)
Definition files_host : Host W :=
  mkHost W (path_expanduser host) (path_isabs host) (path_join host)
    (path_abspath host) (path_basename host) (path_exists host)
    (path_isdir host) (os_chdir host) (environ_setitem host)
    (platform_node host) (subprocess_run host)
    (fun h args t m =>
       match h with
       | H_ls => cmd_ls args t m
       | H_rm => cmd_rm args t m
       | _ => host_handler host h args t m
       end).

End FileHandlers.

(** The file operations with another [shutil.rmtree]. *)
Definition with_rmtree {W : Type}
  (rmtree : Machine W -> string -> option os_error * W) (fs : FileOps W)
  : FileOps W :=
  mkFileOps W (os_listdir fs) (path_isfile fs) (path_dirname fs) (os_stat fs)
    (os_remove fs) rmtree.

(** Not a hidden name. *)
Definition shown_name (item : string) : bool := negb (startswith item ".").

(** The order of [sort] on strings. *)
Definition str_le (a b : string) : Prop := String.leb a b = true.

(** ** The handlers of the file system, the processes and the clock *)

(** A Python [float]. *)
Definition float : Type := PrimFloat.float.

(** An item of [psutil.process_iter(['pid', 'name', 'cpu_percent',
    'memory_percent'])]: the dictionary [proc.info], in which a value
    that [psutil] may not read is [None]. *)
Record proc_info : Type := mkProc {
  proc_pid : N;
  proc_name : option string;
  proc_cpu_percent : option float;
  proc_memory_percent : option float
}.

(** The class of an exception, as far as the [except] clauses of these
    handlers tell classes apart ([FileExistsError] is an [OSError]), with
    its text [str(e)]. *)
Inductive exception_class : Type :=
| E_FileExists
| E_OSError
| E_ValueError
| E_NoSuchProcess
| E_AccessDenied
| E_Other.

Record exception : Type := mkException {
  exc_class : exception_class;
  exc_text : string
}.

(** [isinstance(e, OSError)] and [isinstance(e, FileExistsError)] *)
Definition is_OSError (e : exception) : bool :=
  match exc_class e with
  | E_FileExists | E_OSError => true
  | _ => false
  end.

Definition is_FileExistsError (e : exception) : bool :=
  match exc_class e with
  | E_FileExists => true
  | _ => false
  end.

(** The results of [psutil.virtual_memory()], [psutil.swap_memory()]
    and [psutil.disk_usage('/')], with the fields the handlers read. *)
Record svmem : Type := mkSvmem {
  mem_total : N;
  mem_available : N;
  mem_percent : float;
  mem_used : N
}.

Record sswap : Type := mkSswap {
  swap_total : N;
  swap_used : N;
  swap_free : N
}.

Record sdiskusage : Type := mkSdiskusage {
  disk_total : N;
  disk_used : N;
  disk_free : N;
  disk_percent : float
}.

(** The calls of the handlers below that [Host] and [FileOps] do not
    have. A call made for its effect returns the new world with the
    exception, if it raises one: as an [exception] where the handler
    tells classes apart, as the text [str(e)] where it does not. The
    last three fields are the arithmetic of Python itself on floats,
    which the handlers only print. *)
Record SysOps (W : Type) : Type := mkSysOps {
  (** [os.mkdir(path)], [os.makedirs(path, exist_ok=True)],
      [os.rmdir(path)] *)
  os_mkdir : Machine W -> string -> option exception * W;
  os_makedirs : Machine W -> string -> option exception * W;
  os_rmdir : Machine W -> string -> option exception * W;
  (** [shutil.copytree(src, dst)], [shutil.copy2(src, dst)],
      [shutil.move(src, dst)] *)
  shutil_copytree : Machine W -> string -> string -> option string * W;
  shutil_copy2 : Machine W -> string -> string -> option string * W;
  shutil_move : Machine W -> string -> string -> option string * W;
  (** [Path(path).touch()] *)
  path_touch : Machine W -> string -> option string * W;
  (** [open(path, 'r', encoding='utf-8', errors='replace')] followed by
      [f.read()], and followed by the iteration over the lines of [f],
      each with its line end *)
  read_text : Machine W -> string -> outcome string;
  read_lines : Machine W -> string -> outcome (list string);
  (** the truth value of [re.search(pattern, line, re.IGNORECASE)] *)
  re_search : string -> string -> outcome bool;
  (** [os.walk(path)] run to its end: the triples [(root, dirs, files)] *)
  os_walk :
    Machine W -> string -> outcome (list (string * list string * list string));
  (** the list [processes] that the loop over [psutil.process_iter]
      builds *)
  process_iter : Machine W -> outcome (list proc_info);
  (** [psutil.cpu_percent(interval=1)] *)
  cpu_percent : Machine W -> outcome float;
  virtual_memory : Machine W -> outcome svmem;
  swap_memory : Machine W -> outcome sswap;
  disk_usage : Machine W -> outcome sdiskusage;
  (** [psutil.Process(pid).terminate()] *)
  process_terminate : Machine W -> Z -> option exception * W;
  (** the days and the seconds of the [timedelta]
      [datetime.now() - datetime.fromtimestamp(psutil.boot_time())];
      [None] when one of the calls raises *)
  uptime_delta : Machine W -> option (Z * N);
  (** what [datetime.now().strftime] puts for the directive of a
      letter *)
  now_strftime : Machine W -> ascii -> string;
  (** [str(x)], [format(x, ".nf")] and [a / b] on integers *)
  float_str : float -> string;
  float_fixed : nat -> float -> string;
  int_truediv : N -> N -> float
}.

Arguments os_mkdir {W} _ _ _.
Arguments os_makedirs {W} _ _ _.
Arguments os_rmdir {W} _ _ _.
Arguments shutil_copytree {W} _ _ _ _.
Arguments shutil_copy2 {W} _ _ _ _.
Arguments shutil_move {W} _ _ _ _.
Arguments path_touch {W} _ _ _.
Arguments read_text {W} _ _ _.
Arguments read_lines {W} _ _ _.
Arguments re_search {W} _ _ _.
Arguments os_walk {W} _ _ _.
Arguments process_iter {W} _ _.
Arguments cpu_percent {W} _ _.
Arguments virtual_memory {W} _ _.
Arguments swap_memory {W} _ _.
Arguments disk_usage {W} _ _.
Arguments process_terminate {W} _ _ _.
Arguments uptime_delta {W} _ _.
Arguments now_strftime {W} _ _ _.
Arguments float_str {W} _ _.
Arguments float_fixed {W} _ _ _.
Arguments int_truediv {W} _ _ _.

(** *** Numbers as text *)

(** [str(n)] for an integer *)
Definition str_of_N (n : N) : string :=
  NilZero.string_of_uint (N.to_uint n).

Definition str_of_Z (z : Z) : string :=
  match z with
  | Zneg p => "-" ++ str_of_N (Npos p)
  | _ => str_of_N (Z.to_N z)
  end.

(** The white space [int] skips around a number. *)
Definition is_int_space (c : ascii) : bool :=
  let n := nat_of_ascii c in
  (Nat.leb 9 n && Nat.leb n 13) || Nat.eqb n 32 || Nat.eqb n 133
  || Nat.eqb n 160.

Definition is_digit (c : ascii) : bool :=
  let n := nat_of_ascii c in Nat.leb 48 n && Nat.leb n 57.

Definition digit_value (c : ascii) : Z := Z.of_nat (nat_of_ascii c - 48).

(** The digits of a literal, in which one underscore may stand between
    two digits; [after_digit] tells that the character before was a
    digit. *)
Fixpoint int_digits (s : string) (acc : Z) (after_digit : bool) : option Z :=
  match s with
  | EmptyString => if after_digit then Some acc else None
  | String c r =>
      if is_digit c then int_digits r (10 * acc + digit_value c)%Z true
      else if Ascii.eqb c "_" && after_digit then
        match r with
        | String d _ => if is_digit d then int_digits r acc false else None
        | EmptyString => None
        end
      else None
  end.

(** [int(s)] for a string: [None] stands for [ValueError]. The limit
    that newer interpreters set on the number of digits is left out. *)
Definition py_int (s : string) : option Z :=
  match strip_with is_int_space s with
  | String "+" r => int_digits r 0 false
  | String "-" r => option_map Z.opp (int_digits r 0 false)
  | t => int_digits t 0 false
  end.

(** [s.ljust(w)] and the tab character *)
Definition ljust (w : nat) (s : string) : string :=
  s ++ replicate (w - String.length s) " ".

Definition tab : string := str1 (chr 9).

(** [2 ** 30] and [2 ** 20], written [1024**3] and [1024**2] *)
Definition GiB : N := 1073741824.
Definition MiB : N := 1048576.

Section SystemHandlers.

Context {W : Type} (host : Host W) (fs : FileOps W) (sys : SysOps W).

(** *** [cmd_mkdir] *)

Definition mkdir_report (dir_name : string) (e : option exception)
  : list string :=
  match e with
  | None => []
  | Some x =>
      if is_FileExistsError x then ["mkdir: " ++ dir_name ++ ": File exists"]
      else ["mkdir: " ++ dir_name ++ ": " ++ exc_text x]
  end.

Fixpoint mkdir_loop (create_parents : bool) (dirs : list string)
  (m : Machine W) (results : list string) : list string * W :=
  match dirs with
  | [] => (results, world m)
  | dir_name :: rest =>
      let (e, w) :=
        if create_parents then os_makedirs sys m dir_name
        else os_mkdir sys m dir_name in
      mkdir_loop create_parents rest (set_world w m)
        (results ++ mkdir_report dir_name e)
  end.

Definition cmd_mkdir (args : list string) (t : PythonTerminal) (m : Machine W)
  : outcome string * W :=
  match args with
  | [] => (Returned "mkdir: missing operand", world m)
  | _ =>
      let create_parents := in_list "-p" args || in_list "--parents" args in
      let (results, w) := mkdir_loop create_parents (operands args) m [] in
      (Returned (join nl results), w)
  end.

(** *** [cmd_rmdir] *)

(** The loop of [cmd_rmdir] catches [OSError] only: any other exception
    of [os.rmdir] leaves the handler. *)
Fixpoint rmdir_loop (dirs : list string) (m : Machine W)
  (results : list string) : outcome (list string) * W :=
  match dirs with
  | [] => (Returned results, world m)
  | dir_name :: rest =>
      let (e, w) := os_rmdir sys m dir_name in
      match e with
      | None => rmdir_loop rest (set_world w m) results
      | Some x =>
          if is_OSError x then
            rmdir_loop rest (set_world w m)
              (results ++ [("rmdir: " ++ dir_name ++ ": " ++ exc_text x)%string])
          else (Raised (exc_text x), w)
      end
  end.

Definition cmd_rmdir (args : list string) (t : PythonTerminal) (m : Machine W)
  : outcome string * W :=
  match args with
  | [] => (Returned "rmdir: missing operand", world m)
  | _ =>
      match rmdir_loop args m [] with
      | (Returned results, w) => (Returned (join nl results), w)
      | (Raised msg, w) => (Raised msg, w)
      end
  end.

(** *** [cmd_cp] *)

Definition cp_report (e : option string) : list string :=
  match e with
  | None => []
  | Some msg => [("cp: " ++ msg)%string]
  end.

Fixpoint cp_loop (recursive : bool) (destination : string)
  (source_files : list string) (m : Machine W) (results : list string)
  : list string * W :=
  match source_files with
  | [] => (results, world m)
  | source :: rest =>
      if path_isdir host m source then
        if recursive then
          let dest_path :=
            if path_isdir host m destination
            then path_join host destination (path_basename host source)
            else destination in
          let (e, w) := shutil_copytree sys m source dest_path in
          cp_loop recursive destination rest (set_world w m)
            (results ++ cp_report e)
        else
          cp_loop recursive destination rest m
            (results
             ++ [("cp: " ++ source ++ ": is a directory (not copied)")%string])
      else
        let (e, w) := shutil_copy2 sys m source destination in
        cp_loop recursive destination rest (set_world w m)
          (results ++ cp_report e)
  end.

Definition cmd_cp (args : list string) (t : PythonTerminal) (m : Machine W)
  : outcome string * W :=
  if Nat.ltb (List.length args) 2 then
    (Returned "cp: missing operand", world m)
  else
    let recursive :=
      in_list "-r" args || in_list "-R" args || in_list "--recursive" args in
    let files := operands args in
    if Nat.ltb (List.length files) 2 then
      (Returned "cp: missing destination", world m)
    else
      let source_files := removelast files in
      let destination := last files EmptyString in
      let (results, w) := cp_loop recursive destination source_files m [] in
      (Returned (join nl results), w).

(** *** [cmd_mv] *)

Definition cmd_mv (args : list string) (t : PythonTerminal) (m : Machine W)
  : outcome string * W :=
  match args with
  | source :: destination :: _ =>
      let (e, w) := shutil_move sys m source destination in
      match e with
      | None => (Returned EmptyString, w)
      | Some msg => (Returned ("mv: " ++ msg), w)
      end
  | _ => (Returned "mv: missing operand", world m)
  end.

(** *** [cmd_cat] *)

Definition cat_item (m : Machine W) (file_path : string) : string :=
  match read_text sys m file_path with
  | Returned text => text
  | Raised msg => "cat: " ++ file_path ++ ": " ++ msg
  end.

Definition cmd_cat (args : list string) (t : PythonTerminal) (m : Machine W)
  : outcome string * W :=
  match args with
  | [] => (Returned "cat: missing operand", world m)
  | _ => (Returned (join nl (map (cat_item m) args)), world m)
  end.

(** *** [cmd_touch] *)

Fixpoint touch_loop (files : list string) (m : Machine W)
  (results : list string) : list string * W :=
  match files with
  | [] => (results, world m)
  | file_path :: rest =>
      let (e, w) := path_touch sys m file_path in
      touch_loop rest (set_world w m)
        (results
         ++ match e with
            | None => []
            | Some msg => [("touch: " ++ file_path ++ ": " ++ msg)%string]
            end)
  end.

Definition cmd_touch (args : list string) (t : PythonTerminal) (m : Machine W)
  : outcome string * W :=
  match args with
  | [] => (Returned "touch: missing operand", world m)
  | _ =>
      let (results, w) := touch_loop args m [] in
      (Returned (join nl results), w)
  end.

(** *** [cmd_find] *)

(** The directory to search and the pattern, from the arguments. *)
Definition find_target (args : list string) (t : PythonTerminal)
  (m : Machine W) : string * string :=
  match args with
  | [] => (current_dir t, "*")
  | [a] => if path_exists host m a then (a, "*") else (current_dir t, a)
  | a :: b :: _ => (a, b)
  end.

(** The paths one triple of the walk adds to [results]. *)
Definition find_in (pattern : string)
  (triple : string * list string * list string) : list string :=
  let '(root, dirs, files) := triple in
  map (path_join host root)
    (filter (fun name => String.eqb pattern "*" || str_in pattern name)
       (dirs ++ files)).

Definition cmd_find (args : list string) (t : PythonTerminal) (m : Machine W)
  : outcome string * W :=
  let (path, pattern) := find_target args t m in
  match os_walk sys m path with
  | Returned triples =>
      (Returned (join nl (flat_map (find_in pattern) triples)), world m)
  | Raised msg => (Returned ("find: " ++ msg), world m)
  end.

(** *** [cmd_grep] *)

(** The loop over the lines of one file, with their numbers: a line
    that matches adds a result, an exception of [re.search] ends the
    file with a complaint. *)
Fixpoint grep_lines (pattern file_path : string) (rows : list (nat * string))
  (results : list string) : list string :=
  match rows with
  | [] => results
  | (line_num, line) :: rest =>
      match re_search sys pattern line with
      | Returned true =>
          grep_lines pattern file_path rest
            (results
             ++ [(file_path ++ ":" ++ str_of_nat line_num ++ ":"
                  ++ strip line)%string])
      | Returned false => grep_lines pattern file_path rest results
      | Raised msg =>
          (results ++ [("grep: " ++ file_path ++ ": " ++ msg)%string])%list
      end
  end.

Definition grep_file (pattern : string) (m : Machine W)
  (results : list string) (file_path : string) : list string :=
  match read_lines sys m file_path with
  | Returned lines => grep_lines pattern file_path (enumerate 1 lines) results
  | Raised msg => (results ++ [("grep: " ++ file_path ++ ": " ++ msg)%string])%list
  end.

Definition cmd_grep (args : list string) (t : PythonTerminal) (m : Machine W)
  : outcome string * W :=
  match args with
  | pattern :: ((_ :: _) as files) =>
      (Returned (join nl (fold_left (grep_file pattern m) files [])), world m)
  | _ => (Returned "grep: missing operand", world m)
  end.

(** *** [cmd_ps] and [cmd_top] *)

Definition process_header : string :=
  "PID" ++ tab ++ "NAME" ++ tab ++ tab ++ "CPU%" ++ tab ++ "MEM%".

(** [proc['name'][:15]] padded to 15 columns; the name may be [None]. *)
Definition name_column (p : proc_info) : outcome string :=
  match proc_name p with
  | Some name => Returned (ljust 15 (String.substring 0 15 name))
  | None => Raised "'NoneType' object is not subscriptable"
  end.

(** [format(x, ".1f")] for a value that may be [None] *)
Definition fixed1 (x : option float) : outcome string :=
  match x with
  | Some v => Returned (float_fixed sys 1 v)
  | None => Raised "unsupported format string passed to NoneType.__format__"
  end.

(** [x or 0] for a float that may be [None] *)
Definition or_zero (x : option float) : float :=
  match x with
  | Some v => if PrimFloat.eqb v PrimFloat.zero then PrimFloat.zero else v
  | None => PrimFloat.zero
  end.

(** The row of a process in [cmd_ps]: the parts of the f-string are
    made from left to right. *)
Definition ps_row (p : proc_info) : outcome string :=
  match name_column p with
  | Raised msg => Raised msg
  | Returned name =>
      match fixed1 (proc_cpu_percent p) with
      | Raised msg => Raised msg
      | Returned cpu =>
          match fixed1 (proc_memory_percent p) with
          | Raised msg => Raised msg
          | Returned mem =>
              Returned (str_of_N (proc_pid p) ++ tab ++ name ++ tab ++ cpu
                        ++ tab ++ mem)
          end
      end
  end.

(** The row of a process in [cmd_top], where [None] counts as 0. *)
Definition top_row (p : proc_info) : outcome string :=
  match name_column p with
  | Raised msg => Raised msg
  | Returned name =>
      Returned (str_of_N (proc_pid p) ++ tab ++ name ++ tab
                ++ float_fixed sys 1 (or_zero (proc_cpu_percent p)) ++ tab
                ++ float_fixed sys 1 (or_zero (proc_memory_percent p)))
  end.

(** The loop that appends one row per process; the first row that
    raises ends it. *)
Fixpoint format_rows (row : proc_info -> outcome string)
  (processes : list proc_info) : outcome (list string) :=
  match processes with
  | [] => Returned []
  | p :: rest =>
      match row p with
      | Raised msg => Raised msg
      | Returned line =>
          match format_rows row rest with
          | Raised msg => Raised msg
          | Returned lines => Returned (line :: lines)
          end
      end
  end.

Definition cmd_ps (args : list string) (t : PythonTerminal) (m : Machine W)
  : outcome string * W :=
  match process_iter sys m with
  | Raised msg => (Returned ("ps: " ++ msg), world m)
  | Returned processes =>
      match format_rows ps_row (firstn 20 processes) with
      | Raised msg => (Returned ("ps: " ++ msg), world m)
      | Returned rows => (Returned (join nl (process_header :: rows)), world m)
      end
  end.

(** [processes.sort(key=lambda x: x['cpu_percent'] or 0, reverse=True)]:
    by falling key, processes of equal key in the order they had (for
    keys that are numbers). *)
Fixpoint insert_by_cpu (p : proc_info) (l : list proc_info) : list proc_info :=
  match l with
  | [] => [p]
  | q :: r =>
      if PrimFloat.ltb (or_zero (proc_cpu_percent q))
           (or_zero (proc_cpu_percent p))
      then p :: l
      else q :: insert_by_cpu p r
  end.

Definition sort_by_cpu (l : list proc_info) : list proc_info :=
  fold_left (fun sorted p => insert_by_cpu p sorted) l [].

(** The line of [cmd_top] for the memory or for the disk. *)
Definition usage_line (what : string) (percent : float) (used total : N)
  : string :=
  what ++ " Usage: " ++ float_str sys percent ++ "% ("
  ++ str_of_N (used / GiB) ++ "GB / " ++ str_of_N (total / GiB) ++ "GB)".

Definition cmd_top (args : list string) (t : PythonTerminal) (m : Machine W)
  : outcome string * W :=
  match cpu_percent sys m with
  | Raised msg => (Returned ("top: " ++ msg), world m)
  | Returned cpu =>
  match virtual_memory sys m with
  | Raised msg => (Returned ("top: " ++ msg), world m)
  | Returned memory =>
  match disk_usage sys m with
  | Raised msg => (Returned ("top: " ++ msg), world m)
  | Returned disk =>
  match process_iter sys m with
  | Raised msg => (Returned ("top: " ++ msg), world m)
  | Returned processes =>
      let result :=
        ["System Resource Usage:";
         "CPU Usage: " ++ float_str sys cpu ++ "%";
         usage_line "Memory" (mem_percent memory) (mem_used memory)
           (mem_total memory);
         usage_line "Disk" (disk_percent disk) (disk_used disk)
           (disk_total disk);
         EmptyString;
         "Top Processes:";
         process_header]%string in
      match format_rows top_row (firstn 10 (sort_by_cpu processes)) with
      | Raised msg => (Returned ("top: " ++ msg), world m)
      | Returned rows => (Returned (join nl (result ++ rows)), world m)
      end
  end end end end.

(** *** [cmd_kill] *)

Definition cmd_kill (args : list string) (t : PythonTerminal) (m : Machine W)
  : outcome string * W :=
  match args with
  | [] => (Returned "kill: missing operand", world m)
  | a :: _ =>
      match py_int a with
      | None => (Returned "kill: invalid PID", world m)
      | Some pid =>
          let (e, w) := process_terminate sys m pid in
          match e with
          | None => (Returned ("Process " ++ str_of_Z pid ++ " terminated"), w)
          | Some x =>
              match exc_class x with
              | E_ValueError => (Returned "kill: invalid PID", w)
              | E_NoSuchProcess =>
                  (Returned ("kill: no process with PID " ++ a), w)
              | E_AccessDenied =>
                  (Returned ("kill: permission denied for PID " ++ a), w)
              | _ => (Returned ("kill: " ++ exc_text x), w)
              end
          end
      end
  end.

(** *** [cmd_date], [cmd_uptime], [cmd_df], [cmd_free] *)

(** [strftime("%a %b %d %H:%M:%S %Z %Y")] on [datetime.now()], which
    has no time zone, so that [%Z] gives the empty text. *)
Definition cmd_date (args : list string) (t : PythonTerminal) (m : Machine W)
  : outcome string * W :=
  let f := now_strftime sys m in
  (Returned (f "a"%char ++ " " ++ f "b"%char ++ " " ++ f "d"%char ++ " "
             ++ f "H"%char ++ ":" ++ f "M"%char ++ ":" ++ f "S"%char ++ " "
             ++ EmptyString ++ " " ++ f "Y"%char),
   world m).

Definition cmd_uptime (args : list string) (t : PythonTerminal)
  (m : Machine W) : outcome string * W :=
  match uptime_delta sys m with
  | Some (days, seconds) =>
      (Returned ("up " ++ str_of_Z days ++ " days, "
                 ++ str_of_N (seconds / 3600) ++ " hours, "
                 ++ str_of_N ((seconds / 60) mod 60) ++ " minutes"),
       world m)
  | None => (Returned "uptime: unable to get system uptime", world m)
  end.

Definition cmd_df (args : list string) (t : PythonTerminal) (m : Machine W)
  : outcome string * W :=
  match disk_usage sys m with
  | Returned disk =>
      let total_gb := int_truediv sys (disk_total disk) GiB in
      let used_gb := int_truediv sys (disk_used disk) GiB in
      let free_gb := int_truediv sys (disk_free disk) GiB in
      (Returned ("Filesystem" ++ tab ++ "Size" ++ tab ++ "Used" ++ tab
                 ++ "Avail" ++ tab ++ "Use%" ++ nl ++ "/" ++ tab ++ tab
                 ++ float_fixed sys 1 total_gb ++ "G" ++ tab
                 ++ float_fixed sys 1 used_gb ++ "G" ++ tab
                 ++ float_fixed sys 1 free_gb ++ "G" ++ tab
                 ++ float_fixed sys 0 (disk_percent disk) ++ "%"),
       world m)
  | Raised msg => (Returned ("df: " ++ msg), world m)
  end.

(** One line of [cmd_free]: three numbers of megabytes. *)
Definition free_line (label : string) (total used free : N) : string :=
  let mb := fun n => float_fixed sys 0 (int_truediv sys n MiB) ++ "MB" in
  label ++ tab ++ tab ++ mb total ++ tab ++ tab ++ mb used ++ tab ++ tab
  ++ mb free.

Definition cmd_free (args : list string) (t : PythonTerminal) (m : Machine W)
  : outcome string * W :=
  match virtual_memory sys m with
  | Raised msg => (Returned ("free: " ++ msg), world m)
  | Returned memory =>
      match swap_memory sys m with
      | Raised msg => (Returned ("free: " ++ msg), world m)
      | Returned swap =>
          (Returned
             (join nl
                [("Type" ++ tab ++ tab ++ "Total" ++ tab ++ tab ++ "Used"
                  ++ tab ++ tab ++ "Free")%string;
                 free_line "Mem:" (mem_total memory) (mem_used memory)
                   (mem_available memory);
                 free_line "Swap:" (swap_total swap) (swap_used swap)
                   (swap_free swap)]),
           world m)
      end
  end.

(** *** The host with all the handlers of [terminal.py] *)

(** The host on which every name of the registry runs the method
    modelled here: [host] gives the calls of the dispatcher and of the
    handlers on the session, [fs] and [sys] the calls of the others. *)
Definition full_host : Host W :=
  mkHost W (path_expanduser host) (path_isabs host) (path_join host)
    (path_abspath host) (path_basename host) (path_exists host)
    (path_isdir host) (os_chdir host) (environ_setitem host)
    (platform_node host) (subprocess_run host)
    (fun h args t m =>
       match h with
       | H_ls => cmd_ls host fs args t m
       | H_mkdir => cmd_mkdir args t m
       | H_rmdir => cmd_rmdir args t m
       | H_rm => cmd_rm host fs args t m
       | H_cp => cmd_cp args t m
       | H_mv => cmd_mv args t m
       | H_cat => cmd_cat args t m
       | H_touch => cmd_touch args t m
       | H_find => cmd_find args t m
       | H_grep => cmd_grep args t m
       | H_ps => cmd_ps args t m
       | H_top => cmd_top args t m
       | H_kill => cmd_kill args t m
       | H_date => cmd_date args t m
       | H_uptime => cmd_uptime args t m
       | H_df => cmd_df args t m
       | H_free => cmd_free args t m
       | _ => host_handler host h args t m
       end).

End SystemHandlers.

(** A path holds a separator, as every absolute path does. *)
Definition has_separator (p : string) : bool :=
  mem_char "/" p || mem_char "\" p.

(** The handlers whose text comes from what they were given: an
    argument, the value of a variable, a file name or the text of a
    file. *)
Definition relays_text (h : handler) : bool :=
  match h with
  | H_echo | H_env | H_whoami | H_ls | H_cat => true
  | _ => false
  end.

(** ** The second window: [TerminalUI] of [ui/terminal_engine.py] *)

Module UI2.

(** The attributes the two arrow keys read and write. [mode_shell] is
    the test [self.terminal.mode == 'shell'] on the engine object, whose
    class is not among the sources; [input_box] is the text of the
    input widget and [input_height] its height in lines. *)
Record TerminalUI : Type := mkUI {
  mode_shell : bool;
  input_box : string;
  input_height : nat;
  history : list string;
  history_index : Z
}.

(** The line of the index [end-1c] of a text widget: one more than the
    number of newline characters in its text. *)
Fixpoint count_lines (text : string) : nat :=
  match text with
  | EmptyString => 1
  | String c r =>
      if Ascii.eqb c (chr 10) then S (count_lines r) else count_lines r
  end.

(** [adjust_input_height] *)
Definition adjust_input_height (ui : TerminalUI) : TerminalUI :=
  let current_lines := count_lines (input_box ui) in
  let new_height := Nat.max 1 (Nat.min current_lines 10) in
  mkUI (mode_shell ui) (input_box ui) new_height (history ui)
    (history_index ui).

Definition set_index (i : Z) (ui : TerminalUI) : TerminalUI :=
  mkUI (mode_shell ui) (input_box ui) (input_height ui) (history ui) i.

Definition set_input (text : string) (ui : TerminalUI) : TerminalUI :=
  mkUI (mode_shell ui) text (input_height ui) (history ui) (history_index ui).

(** The input box is emptied, then the item of the history is looked up
    and inserted, then the height is adjusted. *)
Definition recall (ui : TerminalUI) : outcome unit * TerminalUI :=
  let ui := set_input EmptyString ui in
  match UI.getitem (history ui) (history_index ui) with
  | Some item => (Returned tt, adjust_input_height (set_input item ui))
  | None => (Raised "list index out of range", ui)
  end.

(** [history_up] *)
Definition history_up (ui : TerminalUI) : outcome unit * TerminalUI :=
  match mode_shell ui, history ui with
  | true, _ :: _ => recall (set_index (Z.max 0 (history_index ui - 1)) ui)
  | _, _ => (Returned tt, ui)
  end.

(** [history_down] *)
Definition history_down (ui : TerminalUI) : outcome unit * TerminalUI :=
  match mode_shell ui, history ui with
  | true, _ :: _ =>
      let n := Z.of_nat (List.length (history ui)) in
      if (history_index ui <? n - 1)%Z then
        recall (set_index (history_index ui + 1) ui)
      else
        (Returned tt,
         adjust_input_height (set_input EmptyString (set_index n ui)))
  | _, _ => (Returned tt, ui)
  end.

Definition index_in_range (ui : TerminalUI) : Prop :=
  (-1 <= history_index ui <= Z.of_nat (List.length (history ui)))%Z.

End UI2.

(** ** The file operations of the sample machine *)

Module PosixFiles.

Import Posix.

(** [posixpath.dirname] *)
Definition dirname (p : string) : string :=
  match rev (split_on "/" p) with
  | _ :: before =>
      match before with
      | [] => EmptyString
      | _ =>
          let head := join "/" (rev before) ++ "/" in
          if all_chars (Ascii.eqb "/") head then head
          else rstrip_with (Ascii.eqb "/") head
      end
  | [] => EmptyString
  end.

Definition set_files (d f : list string) (w : PosixWorld) : PosixWorld :=
  mkWorld d f (links w) (locked w) (passwd w) (login w) (programs w)
    (contents w) (process_table w).

(** [os.listdir]: the names directly under a directory, directories
    first. *)
Definition listdir (m : Machine PosixWorld) (path : string)
  : outcome (list string) :=
  let d := realpath m path in
  if isdir m path then
    Returned
      (map basename
         (filter (fun p => negb (String.eqb p d) && String.eqb (dirname p) d)
            (dirs (world m) ++ files (world m))))
  else Raised ("[Errno 2] No such file or directory: " ++ SQ ++ path ++ SQ).

Definition isfile (m : Machine PosixWorld) (path : string) : bool :=
  mem_str (abspath m path) (files (world m)).

(** Every file of the sample machine is empty and as old as the epoch. *)
Definition stat (m : Machine PosixWorld) (path : string)
  : option (nat * string) :=
  if exists_ m path then Some (0, "Jan 01 00:00") else None.

(** [os.remove] *)
Definition remove (m : Machine PosixWorld) (path : string)
  : option os_error * PosixWorld :=
  let a := abspath m path in
  if isfile m path then
    (None,
     set_files (dirs (world m))
       (filter (fun p => negb (String.eqb p a)) (files (world m))) (world m))
  else if isdir m path then
    (Some (OtherError ("[Errno 21] Is a directory: " ++ SQ ++ path ++ SQ)),
     world m)
  else
    (Some (NotFound ("[Errno 2] No such file or directory: "
                     ++ SQ ++ path ++ SQ)),
     world m).

(** [shutil.rmtree] *)
Definition rmtree (m : Machine PosixWorld) (path : string)
  : option os_error * PosixWorld :=
  let a := abspath m path in
  let outside :=
    fun p => negb (String.eqb p a) && negb (startswith p (a ++ "/")) in
  if isdir m path then
    (None,
     set_files (filter outside (dirs (world m)))
       (filter outside (files (world m))) (world m))
  else
    (Some (NotFound ("[Errno 2] No such file or directory: "
                     ++ SQ ++ path ++ SQ)),
     world m).

Definition ops : FileOps PosixWorld :=
  mkFileOps PosixWorld listdir isfile dirname stat remove rmtree.

(** The sample machine with [ls] and [rm]. *)
Definition host : Host PosixWorld := files_host Posix.host ops.

(** The sample session with a hidden file added to the home directory. *)
Definition start : State PosixWorld :=
  mkState (term Posix.start)
    (mkMachine sample_environ "/home/user"
       (set_files (dirs sample_world)
          ["/home/user/notes.txt"; "/home/user/.profile"] sample_world)).

End PosixFiles.

(** ** The remaining operations of the sample machine *)

Module PosixSys.

Import Posix.

Definition set_tree (d f : list string) (c : dict) (w : PosixWorld)
  : PosixWorld :=
  mkWorld d f (links w) (locked w) (passwd w) (login w) (programs w) c
    (process_table w).

Definition set_process_table (t : list (N * string)) (w : PosixWorld)
  : PosixWorld :=
  mkWorld (dirs w) (files w) (links w) (locked w) (passwd w) (login w)
    (programs w) (contents w) t.

Definition no_entry (path : string) : string :=
  "[Errno 2] No such file or directory: " ++ SQ ++ path ++ SQ.

Definition file_exists (path : string) : string :=
  "[Errno 17] File exists: " ++ SQ ++ path ++ SQ.

(** The directory a new entry goes into is there. *)
Definition parent_is_dir (m : Machine PosixWorld) (a : string) : bool :=
  mem_str (PosixFiles.dirname a) (dirs (world m)).

(** [os.mkdir] *)
Definition mkdir (m : Machine PosixWorld) (path : string)
  : option exception * PosixWorld :=
  let a := abspath m path in
  if exists_ m path then
    (Some (mkException E_FileExists (file_exists path)), world m)
  else if negb (parent_is_dir m a) then
    (Some (mkException E_OSError (no_entry path)), world m)
  else
    (None,
     set_tree (dirs (world m) ++ [a])%list (files (world m))
       (contents (world m)) (world m)).

(** The paths from the root down to [a]. *)
Definition ancestors (a : string) : list string :=
  let comps := filter (fun c => negb (is_empty c)) (split_on "/" a) in
  map (fun n => "/" ++ join "/" (firstn n comps))
    (seq 1 (List.length comps)).

(** [os.makedirs(path, exist_ok=True)] *)
Definition makedirs (m : Machine PosixWorld) (path : string)
  : option exception * PosixWorld :=
  let a := abspath m path in
  if existsb (fun p => mem_str p (files (world m))) (ancestors a) then
    (Some (mkException E_FileExists (file_exists path)), world m)
  else
    (None,
     set_tree
       (dirs (world m)
        ++ filter (fun p => negb (mem_str p (dirs (world m)))) (ancestors a))%list
       (files (world m)) (contents (world m)) (world m)).

(** A path lies below the directory [a]. *)
Definition below (a p : string) : bool :=
  startswith p (if String.eqb a "/" then a else a ++ "/")
  && negb (String.eqb p a).

(** [os.rmdir] *)
Definition rmdir (m : Machine PosixWorld) (path : string)
  : option exception * PosixWorld :=
  let a := abspath m path in
  if mem_char (chr 0) path then
    (Some (mkException E_ValueError "embedded null byte"), world m)
  else if mem_str a (files (world m)) then
    (Some (mkException E_OSError
             ("[Errno 20] Not a directory: " ++ SQ ++ path ++ SQ)), world m)
  else if negb (mem_str a (dirs (world m))) then
    (Some (mkException E_OSError (no_entry path)), world m)
  else if existsb (below a) (dirs (world m) ++ files (world m))%list then
    (Some (mkException E_OSError
             ("[Errno 39] Directory not empty: " ++ SQ ++ path ++ SQ)),
     world m)
  else
    (None,
     set_tree (filter (fun p => negb (String.eqb p a)) (dirs (world m)))
       (files (world m)) (contents (world m)) (world m)).

(** The path [p], which is [a] or lies below it, moved to [b]. *)
Definition moved (a b p : string) : string :=
  b ++ String.substring (String.length a) (String.length p) p.

Definition in_tree (a p : string) : bool := String.eqb p a || below a p.

(** The tree at [a] written once more at [b]. *)
Definition copy_tree (a b : string) (w : PosixWorld) : PosixWorld :=
  set_tree
    (dirs w ++ map (moved a b) (filter (in_tree a) (dirs w)))%list
    (files w ++ map (moved a b) (filter (in_tree a) (files w)))%list
    (contents w
     ++ map (fun kv => (moved a b (fst kv), snd kv))
          (filter (fun kv => in_tree a (fst kv)) (contents w)))%list
    w.

(** The tree at [a] taken away. *)
Definition drop_tree (a : string) (w : PosixWorld) : PosixWorld :=
  set_tree
    (filter (fun p => negb (in_tree a p)) (dirs w))
    (filter (fun p => negb (in_tree a p)) (files w))
    (filter (fun kv => negb (in_tree a (fst kv))) (contents w))
    w.

(** [shutil.copytree] *)
Definition copytree (m : Machine PosixWorld) (src dst : string)
  : option string * PosixWorld :=
  let a := abspath m src in
  let b := abspath m dst in
  if exists_ m dst then (Some (file_exists dst), world m)
  else if negb (mem_str a (dirs (world m))) then (Some (no_entry src), world m)
  else if negb (parent_is_dir m b) then (Some (no_entry dst), world m)
  else (None, copy_tree a b (world m)).

(** Where a file copied or moved to [dst] ends up. *)
Definition landing (m : Machine PosixWorld) (src dst : string) : string :=
  if isdir m dst then abspath m (join2 dst (basename src))
  else abspath m dst.

(** [shutil.copy2] *)
Definition copy2 (m : Machine PosixWorld) (src dst : string)
  : option string * PosixWorld :=
  let a := abspath m src in
  let b := landing m src dst in
  if negb (mem_str a (files (world m))) then (Some (no_entry src), world m)
  else if negb (parent_is_dir m b) then (Some (no_entry dst), world m)
  else
    (None,
     copy_tree a b
       (set_tree (dirs (world m))
          (filter (fun p => negb (String.eqb p b)) (files (world m)))
          (filter (fun kv => negb (String.eqb (fst kv) b))
             (contents (world m)))
          (world m))).

(** [shutil.move] *)
Definition move (m : Machine PosixWorld) (src dst : string)
  : option string * PosixWorld :=
  let a := abspath m src in
  let b := landing m src dst in
  if negb (exists_ m src) then (Some (no_entry src), world m)
  else if isdir m dst && exists_ m b then
    (Some ("Destination path " ++ SQ ++ b ++ SQ ++ " already exists"),
     world m)
  else if negb (parent_is_dir m b) then (Some (no_entry dst), world m)
  else (None, drop_tree a (copy_tree a b (drop_tree b (world m)))).

(** [Path(path).touch()] *)
Definition touch (m : Machine PosixWorld) (path : string)
  : option string * PosixWorld :=
  let a := abspath m path in
  if exists_ m path then (None, world m)
  else if negb (parent_is_dir m a) then (Some (no_entry path), world m)
  else
    (None,
     set_tree (dirs (world m)) (files (world m) ++ [a])%list
       (contents (world m)) (world m)).

(** [open(path).read()]: a file without a text of its own is empty. *)
Definition read (m : Machine PosixWorld) (path : string) : outcome string :=
  let a := abspath m path in
  if mem_str a (files (world m)) then
    Returned (Dict.get_default a EmptyString (contents (world m)))
  else if isdir m path then
    Raised ("[Errno 21] Is a directory: " ++ SQ ++ path ++ SQ)
  else Raised (no_entry path).

(** The lines of a text, each with its newline. *)
Fixpoint lines_of (text : string) : list string :=
  match text with
  | EmptyString => []
  | String c r =>
      if Ascii.eqb c (chr 10) then str1 c :: lines_of r
      else match lines_of r with
           | [] => [str1 c]
           | l :: ls => String c l :: ls
           end
  end.

Definition readlines (m : Machine PosixWorld) (path : string)
  : outcome (list string) :=
  match read m path with
  | Returned text => Returned (lines_of text)
  | Raised msg => Raised msg
  end.

(** A letter in lower case. *)
Definition lower (c : ascii) : ascii :=
  let n := nat_of_ascii c in
  if Nat.leb 65 n && Nat.leb n 90 then ascii_of_nat (n + 32) else c.

Fixpoint lower_str (s : string) : string :=
  match s with
  | EmptyString => EmptyString
  | String c r => String (lower c) (lower_str r)
  end.

(** [re.search] with [re.IGNORECASE], for the patterns the sample
    machine is given: words without special characters, which match
    where they occur. *)
Definition search (pattern line : string) : outcome bool :=
  Returned (str_in (lower_str pattern) (lower_str line)).

(** The names directly under the directory [a], taken from [l]. *)
Definition children (a : string) (l : list string) : list string :=
  map basename
    (filter (fun p => negb (String.eqb p a)
                      && String.eqb (PosixFiles.dirname p) a) l).

(** [os.walk(path)], top down: nothing for the empty path or for a path
    that is no directory; the root of a directory below [path] is
    [path] joined with the way down to it. *)
Definition walk (m : Machine PosixWorld) (path : string)
  : outcome (list (string * list string * list string)) :=
  let a := abspath m path in
  if is_empty path || negb (mem_str a (dirs (world m))) then Returned []
  else
    Returned
      (map (fun d =>
              (if String.eqb d a then path
               else join2 path
                      (String.substring
                         (String.length (if String.eqb a "/" then a
                                         else a ++ "/"))
                         (String.length d) d),
               children d (dirs (world m)),
               children d (files (world m))))
         (filter (in_tree a) (dirs (world m)))).

(** [psutil.Process(pid).terminate()]: the first process may not be
    touched. *)
Definition terminate (m : Machine PosixWorld) (pid : Z)
  : option exception * PosixWorld :=
  let table := process_table (world m) in
  if (pid <? 0)%Z then
    (Some (mkException E_ValueError
             ("pid must be a positive integer (got " ++ str_of_Z pid ++ ")")),
     world m)
  else if negb (existsb (fun p => N.eqb (fst p) (Z.to_N pid)) table) then
    (Some (mkException E_NoSuchProcess
             ("process PID not found (pid=" ++ str_of_Z pid ++ ")")),
     world m)
  else if (pid =? 1)%Z then
    (Some (mkException E_AccessDenied ("(pid=" ++ str_of_Z pid ++ ")")),
     world m)
  else
    (None,
     set_process_table
       (filter (fun p => negb (N.eqb (fst p) (Z.to_N pid))) table)
       (world m)).

(** The float [n / 10]. *)
Definition tenths (n : Z) : float :=
  PrimFloat.div (PrimFloat.of_uint63 (Uint63.of_Z n))
    (PrimFloat.of_uint63 (Uint63.of_Z 10)).

(** What [psutil] tells of the processes: each takes no processor time
    and a tenth of a percent of the memory. *)
Definition processes (m : Machine PosixWorld) : outcome (list proc_info) :=
  Returned
    (map (fun p => mkProc (fst p) (Some (snd p)) (Some (tenths 0))
                     (Some (tenths 1)))
       (process_table (world m))).

(** The text of the directives at the start of the epoch. *)
Definition strftime (m : Machine PosixWorld) (directive : ascii) : string :=
  if Ascii.eqb directive "a" then "Thu"
  else if Ascii.eqb directive "b" then "Jan"
  else if Ascii.eqb directive "d" then "01"
  else if Ascii.eqb directive "Y" then "1970"
  else "00".

(** [q] written with [n] digits after the point, [q] being the number
    times [10 ** n]. *)
Definition digits_text (n : nat) (q : Z) : string :=
  let unit := (10 ^ Z.of_nat n)%Z in
  let frac := str_of_Z (q mod unit) in
  str_of_Z (q / unit)
  ++ (if Nat.eqb n 0 then EmptyString
      else "." ++ replicate (n - String.length frac) "0" ++ frac).

(** [format(x, ".nf")]: the exact value of the float, rounded to [n]
    digits, to the even neighbour in a tie. *)
Definition fixed (n : nat) (x : float) : string :=
  match FloatOps.Prim2SF x with
  | SpecFloat.S754_nan => "nan"
  | SpecFloat.S754_infinity s => if s then "-inf" else "inf"
  | SpecFloat.S754_zero s => (if s then "-" else EmptyString) ++ digits_text n 0
  | SpecFloat.S754_finite s mant e =>
      let num :=
        (Zpos mant * 10 ^ Z.of_nat n * (if (0 <=? e)%Z then 2 ^ e else 1))%Z in
      let den := (if (0 <=? e)%Z then 1 else 2 ^ (- e))%Z in
      let q := (num / den)%Z in
      let r := (num mod den)%Z in
      let q :=
        if (den <? 2 * r)%Z || ((2 * r =? den)%Z && Z.odd q) then (q + 1)%Z
        else q in
      (if s then "-" else EmptyString) ++ digits_text n q
  end.

(** [a / b] on integers below [2 ** 63]. *)
Definition truediv (a b : N) : float :=
  PrimFloat.div (PrimFloat.of_uint63 (Uint63.of_Z (Z.of_N a)))
    (PrimFloat.of_uint63 (Uint63.of_Z (Z.of_N b))).

(** The machine is at rest, three days and a bit after it was started;
    its floats have one digit after the point, which [str] shows as
    [format(x, ".1f")] does. *)
Definition ops : SysOps PosixWorld :=
  {| os_mkdir := mkdir;
     os_makedirs := makedirs;
     os_rmdir := rmdir;
     shutil_copytree := copytree;
     shutil_copy2 := copy2;
     shutil_move := move;
     path_touch := touch;
     read_text := read;
     read_lines := readlines;
     re_search := search;
     os_walk := walk;
     process_iter := processes;
     cpu_percent := fun _ => Returned (tenths 0);
     virtual_memory :=
       fun _ => Returned (mkSvmem (8 * GiB) (6 * GiB) (tenths 250) (2 * GiB));
     swap_memory := fun _ => Returned (mkSswap (2 * GiB) 0 (2 * GiB));
     disk_usage :=
       fun _ => Returned (mkSdiskusage (100 * GiB) (40 * GiB) (60 * GiB)
                            (tenths 400));
     process_terminate := terminate;
     uptime_delta := fun _ => Some (3%Z, 7384%N);
     now_strftime := strftime;
     float_str := fixed 1;
     float_fixed := fixed;
     int_truediv := truediv |}.

(** The sample machine with every handler of [terminal.py]. *)
Definition host : Host PosixWorld := full_host Posix.host PosixFiles.ops ops.

(** The sample session on a machine where [/tmp] holds one file, whose
    name and whose text are the word [EXIT]. *)
Definition start : State PosixWorld :=
  mkState (term Posix.start)
    (mkMachine sample_environ "/home/user"
       (set_tree (dirs sample_world)
          (files sample_world ++ ["/tmp/EXIT"])%list
          (contents sample_world ++ [("/tmp/EXIT", "EXIT")])%list
          sample_world)).

End PosixSys.

(** A second window in shell mode after the commands [ls] and [pwd]. *)
Definition sample_window2 : UI2.TerminalUI :=
  UI2.mkUI true EmptyString 1 ["ls"; "pwd"] 2%Z.

(** A window on the sample session, with a text typed into the entry. *)
Definition sample_window (text : string) : @UI.TerminalUI Posix.PosixWorld :=
  UI.type_text text (UI.created Posix.start).

(** ** The tokenizer *)

Section Tokenizer.

Lemma lstrip_all (p : ascii -> bool) (s : string) :
  all_chars p s = true -> lstrip_with p s = EmptyString.
Proof.
  induction s as [|c r IH]; simpl; [reflexivity|].
  intros H. apply andb_true_iff in H as [Hc Hr].
  rewrite Hc. auto.
Qed.

Lemma lstrip_head (p : ascii -> bool) (s : string) :
  lstrip_with p s = EmptyString \/
  exists c r, lstrip_with p s = String c r /\ p c = false.
Proof.
  induction s as [|c r IH]; simpl; [now left|].
  destruct (p c) eqn:E; [exact IH|].
  right. now exists c, r.
Qed.

Lemma lstrip_empty_all (p : ascii -> bool) (s : string) :
  lstrip_with p s = EmptyString -> all_chars p s = true.
Proof.
  induction s as [|c r IH]; simpl; [reflexivity|].
  destruct (p c); [auto | discriminate].
Qed.

Lemma rstrip_head (p : ascii -> bool) (c : ascii) (r : string) :
  p c = false -> is_empty (rstrip_with p (String c r)) = false.
Proof.
  intros H. simpl. rewrite H, andb_false_r. reflexivity.
Qed.

(** The guard of [parse_command] and of the history append is exactly
    blankness. *)
Lemma strip_blank (line : string) :
  is_empty (strip line) = true <-> blank line.
Proof.
  unfold strip, strip_with, blank. split.
  - intros H. apply lstrip_empty_all.
    destruct (lstrip_head is_space line) as [E | (c & r & E & Hc)]; [exact E|].
    rewrite E, (rstrip_head _ _ _ Hc) in H. discriminate.
  - intros H. rewrite (lstrip_all _ _ H). reflexivity.
Qed.

Lemma strip_not_blank (line : string) :
  is_empty (strip line) = false <-> ~ blank line.
Proof.
  rewrite <- strip_blank. destruct (is_empty (strip line)); split; congruence.
Qed.

(** Inside an open quote the loop appends every character but the
    closing quote to the buffer. *)
Lemma lex_loop_in_quote (q : ascii) (rest : string) :
  forall toks cur,
    mem_char q rest = false ->
    lex_loop rest (mkLexer toks cur true (Some q))
    = mkLexer toks (cur ++ rest) true (Some q).
Proof.
  induction rest as [|c r IH]; intros toks cur H; simpl.
  - f_equal. induction cur; simpl; congruence.
  - simpl in H. apply orb_false_iff in H as [Hq Hr].
    unfold lex_step; simpl.
    rewrite andb_false_r.
    rewrite Ascii.eqb_sym, Hq. simpl.
    rewrite andb_false_r.
    rewrite IH by assumption. f_equal.
    clear. induction cur; simpl; congruence.
Qed.

Lemma lex_loop_app (a b : string) (s : lexer) :
  lex_loop (a ++ b) s = lex_loop b (lex_loop a s).
Proof.
  revert s. induction a as [|c r IH]; intros s; simpl; auto.
Qed.

Lemma is_empty_false (s : string) : is_empty s = false -> s <> EmptyString.
Proof. destruct s; simpl; congruence. Qed.

Lemma lex_step_nonempty (s : lexer) (c : ascii) :
  tokens_nonempty s -> tokens_nonempty (lex_step s c).
Proof.
  unfold tokens_nonempty, lex_step. intros H.
  destruct (is_quote c && negb (in_quotes s)); simpl; [exact H|].
  destruct (eq_quote c (quote_char s) && in_quotes s); simpl; [exact H|].
  destruct (Ascii.eqb c " " && negb (in_quotes s)); simpl; [|exact H].
  destruct (is_empty (current_token s)) eqn:E; simpl; [exact H|].
  apply Forall_app. split; [exact H|].
  constructor; [now apply is_empty_false | constructor].
Qed.

Lemma lex_loop_nonempty (line : string) :
  forall s, tokens_nonempty s -> tokens_nonempty (lex_loop line s).
Proof.
  induction line as [|c r IH]; intros s H; simpl; [exact H|].
  apply IH, lex_step_nonempty, H.
Qed.

Lemma lex_finish_nonempty (s : lexer) :
  tokens_nonempty s -> Forall (fun t => t <> EmptyString) (lex_finish s).
Proof.
  unfold tokens_nonempty, lex_finish. intros H.
  destruct (is_empty (current_token s)) eqn:E; [exact H|].
  apply Forall_app. split; [exact H|].
  constructor; [now apply is_empty_false | constructor].
Qed.

Lemma quote_not_space (q : ascii) : is_quote q = true -> is_space q = false.
Proof.
  unfold is_quote. intros H. apply orb_true_iff in H as [H | H];
    apply Ascii.eqb_eq in H; subst q; reflexivity.
Qed.

Lemma all_chars_app (p : ascii -> bool) (a b : string) :
  all_chars p (a ++ b) = all_chars p a && all_chars p b.
Proof.
  induction a as [|c r IH]; simpl; [reflexivity|].
  rewrite IH. apply andb_assoc.
Qed.

Lemma quoted_not_blank (pre : string) (q : ascii) (rest : string) :
  is_quote q = true -> ~ blank (pre ++ String q rest).
Proof.
  unfold blank. intros Hq H. rewrite all_chars_app in H. simpl in H.
  rewrite (quote_not_space q Hq) in H. simpl in H.
  rewrite andb_false_r in H. discriminate.
Qed.

Lemma parse_command_blank (line : string) :
  blank line -> parse_command line = [].
Proof.
  intros H. unfold parse_command.
  apply strip_blank in H. rewrite H. reflexivity.
Qed.

(** C7: the tokenizer satisfies its test vector. A blank line (empty or
    white space only) has no tokens; the plain line [a b] gives [a] and
    [b]; in the line [a DQ b c DQ d] the quotes are consumed and [b c] is
    one token; the unterminated quote of [a DQ b] raises nothing and
    gives [a] and [b]. In general, when a quote opens after [pre] and
    never closes, all of the rest of the line joins the buffer and is
    flushed as the final token. *)
Theorem tokenizer_test_vector :
  (forall line, blank line -> parse_command line = []) /\
  parse_command "a b" = ["a"; "b"] /\
  parse_command ("a " ++ DQ ++ "b c" ++ DQ ++ " d") = ["a"; "b c"; "d"] /\
  parse_command ("a " ++ DQ ++ "b") = ["a"; "b"] /\
  (forall pre q rest,
     is_quote q = true ->
     in_quotes (lex_loop pre lexer_init) = false ->
     mem_char q rest = false ->
     let s := lex_loop pre lexer_init in
     parse_command (pre ++ String q rest)
     = if is_empty (current_token s ++ rest) then tokens s
       else (tokens s ++ [(current_token s ++ rest)%string])%list).
Proof.
  split; [|split; [|split; [|split]]]; try reflexivity.
  - apply parse_command_blank.
  - intros pre q rest Hq Hin Hrest s.
    unfold parse_command.
    assert (Hnb : is_empty (strip (pre ++ String q rest)) = false)
      by (apply strip_not_blank, quoted_not_blank, Hq).
    rewrite Hnb, lex_loop_app. fold s. simpl.
    assert (Hstep : lex_step s q
                    = mkLexer (tokens s) (current_token s) true (Some q)).
    { unfold lex_step. subst s. rewrite Hq, Hin. reflexivity. }
    rewrite Hstep, lex_loop_in_quote by assumption.
    reflexivity.
Qed.

(** The theorem [tokenizer_test_vector] at the line of three spaces and
    at an open quote after [a ]. *)
Lemma tokenizer_test_vector_witness :
  parse_command "   " = [] /\
  parse_command ("a " ++ String dquote "b c") = ["a"; "b c"].
Proof.
  split.
  - apply (proj1 tokenizer_test_vector). reflexivity.
  - apply (proj2 (proj2 (proj2 (proj2 tokenizer_test_vector))) "a " dquote "b c");
      reflexivity.
Defined.

(** C8, as the claim states it, fails: the explicitly quoted empty
    string of the line [a DQ DQ b] gives no token at its position. *)
Lemma quoted_empty_string_dropped :
  parse_command ("a " ++ DQ ++ DQ ++ " b") = ["a"; "b"] /\
  parse_command ("a " ++ SQ ++ SQ ++ " b") = ["a"; "b"] /\
  existsb is_empty (parse_command ("a " ++ DQ ++ DQ ++ " b")) = false.
Proof. repeat split. Qed.

(** C8 (amended): no token of any line is the empty string, and an
    explicitly quoted empty string gives none: outside quotes, a quote
    character followed at once by the same character leaves the token
    list and the buffer as they were. *)
Theorem no_token_is_empty :
  (forall line, Forall (fun t => t <> EmptyString) (parse_command line)) /\
  (forall s q,
     is_quote q = true -> in_quotes s = false ->
     let s' := lex_step (lex_step s q) q in
     tokens s' = tokens s /\ current_token s' = current_token s /\
     in_quotes s' = false).
Proof.
  split.
  - intros line. unfold parse_command.
    destruct (is_empty (strip line)); [constructor|].
    apply lex_finish_nonempty, lex_loop_nonempty. constructor.
  - intros s q Hq Hin s'. subst s'.
    assert (Hstep : lex_step s q
                    = mkLexer (tokens s) (current_token s) true (Some q)).
    { unfold lex_step. rewrite Hq, Hin. reflexivity. }
    rewrite Hstep. unfold lex_step. simpl.
    rewrite andb_false_r, Ascii.eqb_refl. simpl.
    repeat split.
Qed.

(** The theorem [no_token_is_empty] at the line [a DQ DQ b] and at a
    double quote met outside quotes. *)
Lemma no_token_is_empty_witness :
  Forall (fun t => t <> EmptyString) (parse_command ("a " ++ DQ ++ DQ ++ " b"))
  /\ tokens (lex_step (lex_step lexer_init dquote) dquote) = [].
Proof.
  split.
  - apply (proj1 no_token_is_empty).
  - apply (proj2 no_token_is_empty lexer_init dquote); reflexivity.
Defined.

End Tokenizer.

(** ** Dictionaries *)

Section DictFacts.

Lemma get_set_same (k v : string) (d : dict) :
  Dict.get k (Dict.set k v d) = Some v.
Proof.
  induction d as [|[k' v'] r IH]; simpl.
  - now rewrite String.eqb_refl.
  - destruct (String.eqb k k') eqn:E; simpl; rewrite ?String.eqb_refl, ?E; auto.
Qed.

Lemma get_set_other (k k' v : string) (d : dict) :
  k <> k' -> Dict.get k (Dict.set k' v d) = Dict.get k d.
Proof.
  intros Hne. apply String.eqb_neq in Hne.
  induction d as [|[k2 v2] r IH]; simpl.
  - now rewrite Hne.
  - destruct (String.eqb k' k2) eqn:E; simpl.
    + apply String.eqb_eq in E. subst k2. now rewrite Hne.
    + now rewrite IH.
Qed.

End DictFacts.

(** ** The dispatcher *)

Section Dispatcher.

Context {W : Type} (host : Host W).

Lemma aliases_record_history (line : string) (t : PythonTerminal) :
  aliases (record_history line t) = aliases t.
Proof. unfold record_history. now destruct (is_empty (strip line)). Qed.

(** The [try] block runs the route of the line on the session with the
    line recorded. *)
Lemma try_execute_follow (line : string) (st : State W) :
  try_execute host line st
  = follow host (route_of (aliases (term st)) line) (recorded line st).
Proof.
  unfold try_execute, route_of, recorded. cbn [term machine].
  rewrite aliases_record_history.
  destruct (parse_command line) as [|cmd args]; [reflexivity|].
  cbv zeta.
  destruct (lookup_builtin (resolve_alias cmd (aliases (term st)))
              builtin_commands); reflexivity.
Qed.

(** *** No handler assigns [self.command_history] *)

Lemma export_loop_history (args : list string) :
  forall st, command_history (term (snd (export_loop host args st)))
             = command_history (term st).
Proof.
  induction args as [|arg rest IH]; intros st; simpl; [reflexivity|].
  destruct (split_once "=" arg) as [[key value]|]; [|reflexivity].
  destruct (environ_setitem host key value); [reflexivity|].
  rewrite IH. reflexivity.
Qed.

Lemma alias_loop_history (args : list string) :
  forall st : State W, command_history (term (snd (alias_loop args st)))
             = command_history (term st).
Proof.
  induction args as [|arg rest IH]; intros st; simpl; [reflexivity|].
  destruct (split_once "=" arg) as [[alias command]|]; [|reflexivity].
  rewrite IH. reflexivity.
Qed.

Lemma unalias_loop_history (args : list string) :
  forall st : State W, command_history (term (snd (unalias_loop args st)))
             = command_history (term st).
Proof.
  induction args as [|arg rest IH]; intros st; simpl; [reflexivity|].
  destruct (Dict.mem arg (aliases (term st))); [|reflexivity].
  rewrite IH. reflexivity.
Qed.

Lemma run_handler_history (h : handler) (args : list string) (st : State W) :
  command_history (term (snd (run_handler host h args st)))
  = command_history (term st).
Proof.
  destruct h; simpl; try reflexivity;
    try (unfold cmd_host; destruct (host_handler host _ args (term st) (machine st));
         reflexivity).
  - unfold cmd_cd.
    destruct (path_exists host _ _ && path_isdir host _ _); [|reflexivity].
    destruct (os_chdir host _ _); reflexivity.
  - unfold cmd_env. destruct args; reflexivity.
  - unfold cmd_export. destruct args; [reflexivity|]. apply export_loop_history.
  - unfold cmd_alias. destruct args; [reflexivity|]. apply alias_loop_history.
  - unfold cmd_unalias. destruct args; [reflexivity|]. apply unalias_loop_history.
Qed.

Lemma external_history (cmd : string) (args : list string) (st : State W) :
  command_history (term (snd (execute_external_command host cmd args st)))
  = command_history (term st).
Proof.
  unfold execute_external_command.
  destruct (subprocess_run host _ _ _) as [r w]. destruct r; reflexivity.
Qed.

Lemma follow_history (r : route) (st : State W) :
  command_history (term (snd (follow host r st)))
  = command_history (term st).
Proof.
  destruct r; simpl;
    [apply run_handler_history | apply external_history | reflexivity].
Qed.

Lemma execute_command_snd (line : string) (st : State W) :
  snd (execute_command host line st) = snd (try_execute host line st).
Proof.
  unfold execute_command.
  destruct (try_execute host line st) as [[output|msg] st']; reflexivity.
Qed.

Lemma execute_command_history (line : string) (st : State W) :
  command_history (term (snd (execute_command host line st)))
  = command_history (record_history line (term st)).
Proof.
  rewrite execute_command_snd, try_execute_follow, follow_history.
  reflexivity.
Qed.

Lemma record_history_not_blank (line : string) (t : PythonTerminal) :
  ~ blank line ->
  record_history line t
  = set_command_history (command_history t ++ [line])%list t.
Proof.
  intros H. apply strip_not_blank in H.
  unfold record_history. now rewrite H.
Qed.

Lemma record_history_blank (line : string) (t : PythonTerminal) :
  blank line -> record_history line t = t.
Proof.
  intros H. apply strip_blank in H.
  unfold record_history. now rewrite H.
Qed.

Lemma route_of_alias (a : dict) (line cmd : string) (args : list string)
  (replacement : string) :
  parse_command line = cmd :: args ->
  Dict.get cmd a = Some replacement ->
  route_of a line
  = match lookup_builtin replacement builtin_commands with
    | Some h => ToBuiltin h args
    | None => ToExternal replacement args
    end.
Proof.
  intros Hp Ha. unfold route_of, resolve_alias. rewrite Hp, Ha. reflexivity.
Qed.

(** C1 (amended): once the alias [ll] is defined with the replacement
    text [ls -l], the line [ll /tmp extra] goes to the external bridge
    with the whole text [ls -l] as the command name and the arguments
    [/tmp] and [extra]: the text is not split again, and it is no key of
    the registry. In general the head token alone is replaced, the
    remaining tokens are passed on unchanged after it, and the new name
    is looked up in the registry first ([ll=ls] does reach the entry
    [ls], with the tokens typed after [ll]). *)
Theorem alias_substitution_keeps_arguments :
  (forall st : State W,
     Dict.get "ll" (aliases (term (snd (cmd_alias ["ll=ls -l"] st))))
     = Some "ls -l") /\
  (forall a, Dict.get "ll" a = Some "ls -l" ->
     route_of a "ll /tmp extra" = ToExternal "ls -l" ["/tmp"; "extra"]) /\
  (forall a, Dict.get "ll" a = Some "ls" ->
     route_of a "ll -l /tmp extra" = ToBuiltin H_ls ["-l"; "/tmp"; "extra"]) /\
  (forall a line cmd args replacement,
     parse_command line = cmd :: args ->
     Dict.get cmd a = Some replacement ->
     route_of a line
     = match lookup_builtin replacement builtin_commands with
       | Some h => ToBuiltin h args
       | None => ToExternal replacement args
       end) /\
  (forall line (st : State W),
     try_execute host line st
     = follow host (route_of (aliases (term st)) line) (recorded line st)).
Proof.
  split; [|split; [|split; [|split]]].
  - intros st. simpl. apply get_set_same.
  - intros a Ha. now rewrite (route_of_alias a _ "ll" ["/tmp"; "extra"] "ls -l").
  - intros a Ha.
    now rewrite (route_of_alias a _ "ll" ["-l"; "/tmp"; "extra"] "ls").
  - apply route_of_alias.
  - apply try_execute_follow.
Qed.

(** C2 (amended): [exit] is not reserved, the alias table is consulted
    first. In a session without an alias of key [exit] the line [exit]
    returns the sentinel; with such an alias the line is routed to the
    replacement instead. *)
Theorem exit_unless_aliased :
  (forall st : State W,
     Dict.get "exit" (aliases (term st)) = None ->
     fst (execute_command host "exit" st) = "EXIT") /\
  (forall a replacement,
     Dict.get "exit" a = Some replacement ->
     route_of a "exit"
     = match lookup_builtin replacement builtin_commands with
       | Some h => ToBuiltin h []
       | None => ToExternal replacement []
       end).
Proof.
  split.
  - intros st Ha. unfold execute_command.
    rewrite try_execute_follow. unfold route_of, resolve_alias.
    change (parse_command "exit") with ["exit"]. cbv beta iota zeta.
    rewrite Ha. reflexivity.
  - intros a replacement Ha. now apply (route_of_alias a "exit" "exit").
Qed.

(** C10: a line with a character that is no white space is appended to
    the history as it was typed (not trimmed, its head token not yet
    replaced by an alias) before tokenization and dispatch: whatever the
    route and its outcome, the history afterwards is the old one followed
    by the line, the handler runs on the session that already holds it,
    and the history command lists it as its last entry. *)
Theorem raw_line_recorded_before_dispatch :
  forall (line : string) (st : State W),
    ~ blank line ->
    let h := (command_history (term st) ++ [line])%list in
    command_history (term (snd (execute_command host line st))) = h /\
    try_execute host line st
    = follow host (route_of (aliases (term st)) line)
        (mkState (set_command_history h (term st)) (machine st)) /\
    (forall args,
       route_of (aliases (term st)) line = ToBuiltin H_history args ->
       fst (execute_command host line st) = history_text h).
Proof.
  intros line st Hnb h. subst h.
  assert (Hrec : recorded line st
                 = mkState (set_command_history
                              (command_history (term st) ++ [line])%list
                              (term st)) (machine st)).
  { unfold recorded. now rewrite record_history_not_blank. }
  split; [|split].
  - rewrite execute_command_history, record_history_not_blank by assumption.
    reflexivity.
  - now rewrite try_execute_follow, Hrec.
  - intros args Hr. unfold execute_command.
    rewrite try_execute_follow, Hr, Hrec. reflexivity.
Qed.

Lemma try_execute_blank (line : string) (st : State W) :
  blank line -> try_execute host line st = (Returned EmptyString, st).
Proof.
  intros H. unfold try_execute.
  rewrite record_history_blank by assumption.
  rewrite (parse_command_blank line H). now destruct st.
Qed.

(** The loop of [run] executes [break] only at the end of the input or
    after a line whose output is exactly the sentinel. *)
Lemma run_loop_stop_cause (inputs : list input_event) :
  forall (st : State W) (out : list string),
    stopped (run_loop host inputs st out) = true ->
    In EOFError inputs \/
    exists text st0,
      In (Line text) inputs /\
      fst (execute_command host (strip text) st0) = "EXIT".
Proof.
  induction inputs as [|ev rest IH]; intros st out H; simpl in H.
  - discriminate.
  - destruct ev as [text| |].
    + destruct (is_empty (strip text)).
      * destruct (IH _ _ H) as [He | (t & s0 & Hin & Hs)];
          [left; now right | right; exists t, s0; split; [now right | exact Hs]].
      * destruct (execute_command host (strip text) st) as [output st'] eqn:E.
        destruct (String.eqb output "EXIT") eqn:Eo.
        -- right. exists text, st. split; [now left|].
           rewrite E. now apply String.eqb_eq.
        -- assert (Hrest : exists out',
                     stopped (run_loop host rest st' out') = true)
             by (destruct (is_empty output); eauto).
           destruct Hrest as [out' Hrest].
           destruct (IH _ _ Hrest) as [He | (t & s0 & Hin & Hs)];
             [left; now right
             | right; exists t, s0; split; [now right | exact Hs]].
    + destruct (IH _ _ H) as [He | (t & s0 & Hin & Hs)];
        [left; now right | right; exists t, s0; split; [now right | exact Hs]].
    + left. now left.
Qed.

(** *** Which outputs can be the sentinel *)

Lemma mem_char_app (c : ascii) (a b : string) :
  mem_char c (a ++ b) = mem_char c a || mem_char c b.
Proof.
  induction a as [|d r IH]; simpl; [reflexivity|].
  rewrite IH. apply orb_assoc.
Qed.

Lemma join_cons (sep x : string) (l : list string) :
  join sep (x :: l)
  = match l with [] => x | _ :: _ => x ++ sep ++ join sep l end.
Proof. reflexivity. Qed.

Lemma mem_char_join_head (c : ascii) (sep x : string) (l : list string) :
  mem_char c x = true -> mem_char c (join sep (x :: l)) = true.
Proof.
  intros H. rewrite join_cons. destruct l; [exact H|].
  rewrite mem_char_app, H. reflexivity.
Qed.

Lemma last_n_not_nil {A : Type} (n : nat) (l : list A) :
  0 < n -> l <> [] -> last_n n l <> [].
Proof.
  unfold last_n. intros Hn Hl H.
  destruct l as [|x r]; [congruence|].
  apply (f_equal (@List.length A)) in H. rewrite length_skipn in H.
  cbn [List.length] in H. lia.
Qed.

Lemma history_text_not_sentinel (h : list string) : history_text h <> "EXIT".
Proof.
  unfold history_text, history_rows. destruct h as [|c r]; [discriminate|].
  destruct (last_n 20 (c :: r)) as [|x l] eqn:E.
  - exfalso. revert E. apply last_n_not_nil; [lia | discriminate].
  - simpl enumerate. simpl map. rewrite join_cons.
    destruct (map history_line (enumerate 2 l)); simpl; discriminate.
Qed.

Lemma cd_not_sentinel (args : list string) (st : State W) :
  fst (cmd_cd host args st) <> Returned "EXIT".
Proof.
  unfold cmd_cd.
  destruct (path_exists host _ _ && path_isdir host _ _); [|simpl; discriminate].
  destruct (os_chdir host _ _); simpl; discriminate.
Qed.

Lemma export_loop_not_sentinel (args : list string) :
  forall st, fst (export_loop host args st) <> Returned "EXIT".
Proof.
  induction args as [|arg rest IH]; intros st; simpl; [discriminate|].
  destruct (split_once "=" arg) as [[key value]|]; [|simpl; discriminate].
  destruct (environ_setitem host key value); [simpl; discriminate | apply IH].
Qed.

Lemma alias_loop_not_sentinel (args : list string) :
  forall st : State W, fst (alias_loop args st) <> Returned "EXIT".
Proof.
  induction args as [|arg rest IH]; intros st; simpl; [discriminate|].
  destruct (split_once "=" arg) as [[alias command]|];
    [apply IH | simpl; discriminate].
Qed.

Lemma alias_listing_not_sentinel (a : dict) :
  join nl (map (fun kv => fst kv ++ "=" ++ SQ ++ snd kv ++ SQ) a) <> "EXIT".
Proof.
  destruct a as [|[k v] r]; [discriminate|].
  intros H. apply (f_equal (mem_char "=")) in H.
  simpl map in H. rewrite mem_char_join_head in H; [discriminate|].
  simpl. rewrite mem_char_app. simpl. apply orb_true_r.
Qed.

Lemma unalias_loop_not_sentinel (args : list string) :
  forall st : State W, fst (unalias_loop args st) <> Returned "EXIT".
Proof.
  induction args as [|arg rest IH]; intros st; simpl; [discriminate|].
  destruct (Dict.mem arg (aliases (term st)));
    [apply IH | simpl; discriminate].
Qed.

(** *** The history display *)

Lemma enumerate_snd {A : Type} (l : list A) :
  forall n, map snd (enumerate n l) = l.
Proof. induction l as [|x r IH]; intros n; simpl; [|rewrite IH]; reflexivity. Qed.

Lemma enumerate_fst {A : Type} (l : list A) :
  forall n, map fst (enumerate n l) = seq n (List.length l).
Proof. induction l as [|x r IH]; intros n; simpl; [|rewrite IH]; reflexivity. Qed.

Lemma enumerate_length {A : Type} (l : list A) :
  forall n, List.length (enumerate n l) = List.length l.
Proof. induction l as [|x r IH]; intros n; simpl; [|rewrite IH]; reflexivity. Qed.

Lemma enumerate_skipn {A : Type} (k : nat) :
  forall (l : list A) n,
    skipn k (enumerate n l) = enumerate (n + k) (skipn k l).
Proof.
  induction k as [|k IH]; intros l n; simpl.
  - now rewrite Nat.add_0_r.
  - destruct l as [|x r]; simpl; [reflexivity|].
    rewrite IH. f_equal. lia.
Qed.

Lemma enumerate_shift {A : Type} (k : nat) (l : list A) :
  forall n,
    enumerate (n + k) l = map (fun r => (fst r + k, snd r)) (enumerate n l).
Proof.
  induction l as [|x r IH]; intros n; simpl; [reflexivity|].
  f_equal. apply (IH (S n)).
Qed.

Lemma last_n_length {A : Type} (n : nat) (l : list A) :
  List.length (last_n n l) <= n.
Proof. unfold last_n. rewrite length_skipn. lia. Qed.

Lemma last_n_short {A : Type} (n : nat) (l : list A) :
  List.length l <= n -> last_n n l = l.
Proof.
  unfold last_n. intros H.
  replace (List.length l - n) with 0 by lia. reflexivity.
Qed.

(** The rows of the display against the numbering of the contract: the
    contract's number is the displayed one plus the number of entries
    that are no longer shown. *)
Lemma recent_history_rows (h : list string) :
  recent 20 h
  = map (fun r => (fst r + (List.length h - 20), snd r)) (history_rows h).
Proof.
  unfold recent, history_rows, last_n.
  rewrite enumerate_length, enumerate_skipn.
  apply enumerate_shift.
Qed.

(** C5 (amended): the history display lists, oldest first, at most the
    most recent 20 entries and numbers them from 1 by their place in the
    display. The number is the global 1-based sequence number as long as
    the log has at most 20 entries (beyond that the global number is the
    displayed one plus the count of entries dropped from the display);
    after exactly [c1], [c2], [c3] the two most recent rows are
    [(2, c2)] and [(3, c3)]; and a blank line is never appended. *)
Theorem history_display :
  forall h : list string,
    map snd (history_rows h) = last_n 20 h /\
    List.length (history_rows h) <= 20 /\
    map fst (history_rows h) = seq 1 (List.length (last_n 20 h)) /\
    (List.length h <= 20 -> history_rows h = recent 20 h) /\
    recent 20 h
    = map (fun r => (fst r + (List.length h - 20), snd r)) (history_rows h)
    /\
    (forall c1 c2 c3,
       last_n 2 (history_rows [c1; c2; c3]) = [(2, c2); (3, c3)] /\
       history_text [c1; c2; c3]
       = "  1 " ++ c1 ++ nl ++ "  2 " ++ c2 ++ nl ++ "  3 " ++ c3) /\
    (forall (line : string) (st : State W),
       blank line ->
       command_history (term (snd (execute_command host line st)))
       = command_history (term st)).
Proof.
  intros h. unfold history_rows. repeat split.
  - apply enumerate_snd.
  - rewrite enumerate_length. apply last_n_length.
  - apply enumerate_fst.
  - intros Hle. unfold recent.
    rewrite (last_n_short 20 h Hle), last_n_short; [reflexivity|].
    now rewrite enumerate_length.
  - apply recent_history_rows.
  - intros line st Hb.
    now rewrite execute_command_history, record_history_blank.
Qed.

(** *** Changing directory *)


(** *** The two environments *)

(** [cmd_export] writes both environments: after a well-formed argument
    that [os.environ] accepts, the session's map and the process
    environment hold the value under the key. *)
Lemma export_mirrors (arg key value : string) (st : State W) :
  split_once "=" arg = Some (key, value) ->
  environ_setitem host key value = None ->
  let st' := snd (cmd_export host [arg] st) in
  Dict.get key (environment_vars (term st')) = Some value /\
  Dict.get key (os_environ (machine st')) = Some value.
Proof.
  intros Hs He. simpl. rewrite Hs, He. simpl.
  split; apply get_set_same.
Qed.

(** [cmd_cd] never writes the process environment. *)
Lemma cd_keeps_os_environ (args : list string) (st : State W) :
  os_environ (machine (snd (cmd_cd host args st))) = os_environ (machine st).
Proof.
  unfold cmd_cd.
  destruct (path_exists host _ _ && path_isdir host _ _); [|reflexivity].
  destruct (os_chdir host _ _); reflexivity.
Qed.

End Dispatcher.

(** ** Scenarios on the sample machine *)

Section Scenarios.

(** The theorem [alias_substitution_keeps_arguments] in a session where
    [ll] stands for [ls -l]. *)
Lemma alias_substitution_witness :
  route_of [("ll", "ls -l")] "ll /tmp extra"
  = ToExternal "ls -l" ["/tmp"; "extra"] /\
  route_of [("ll", "ls")] "ll -l /tmp extra"
  = ToBuiltin H_ls ["-l"; "/tmp"; "extra"].
Proof.
  pose proof (alias_substitution_keeps_arguments Posix.host)
    as (_ & H1 & H2 & _).
  split; [apply H1 | apply H2]; reflexivity.
Defined.

(** C1, as the claim states it, fails: after the line that defines
    [ll] as [ls -l], the line [ll /tmp extra] does not reach the
    registry entry [ls] with the arguments [-l], [/tmp], [extra]; the
    bridge is asked for a program called [ls -l] and reports that there
    is none. *)
Lemma alias_text_not_split :
  aliases (term (Posix.after [alias_ll_line] Posix.start)) = [("ll", "ls -l")]
  /\ lookup_builtin "ls -l" builtin_commands = None
  /\ route_of [("ll", "ls -l")] "ll /tmp extra"
     = ToExternal "ls -l" ["/tmp"; "extra"]
  /\ fst (execute_command Posix.host "ll /tmp extra"
            (Posix.after [alias_ll_line] Posix.start))
     = "Error: Command 'ls -l' not found".
Proof. repeat split. Qed.

(** The theorem [exit_unless_aliased] in the fresh session and under
    the alias [exit=pwd]. *)
Lemma exit_unless_aliased_witness :
  fst (execute_command Posix.host "exit" Posix.start) = "EXIT" /\
  route_of [("exit", "pwd")] "exit" = ToBuiltin H_pwd [].
Proof.
  pose proof (exit_unless_aliased Posix.host) as (H1 & H2).
  split; [apply H1 | apply (H2 _ "pwd")]; reflexivity.
Defined.

(** C2, as the claim states it, fails: once [alias exit=pwd] has run,
    the line [exit] prints the working directory and the loop of [run]
    goes on. *)
Lemma exit_overridden_by_alias :
  aliases (term (Posix.after ["alias exit=pwd"] Posix.start))
  = [("exit", "pwd")]
  /\ route_of [("exit", "pwd")] "exit" = ToBuiltin H_pwd []
  /\ fst (execute_command Posix.host "exit"
            (Posix.after ["alias exit=pwd"] Posix.start))
     = "/home/user"
  /\ stopped (run_loop Posix.host [Line "alias exit=pwd"; Line "exit"]
                Posix.start [])
     = false.
Proof. repeat split. Qed.

(** The theorem [history_display] on a log of three entries and on a
    line of spaces. *)
Lemma history_display_witness :
  history_rows ["c1"; "c2"; "c3"] = recent 20 ["c1"; "c2"; "c3"] /\
  command_history (term (snd (execute_command Posix.host "   " Posix.start)))
  = [].
Proof.
  pose proof (history_display Posix.host ["c1"; "c2"; "c3"])
    as (_ & _ & _ & H1 & _ & _ & H2).
  split.
  - apply H1. simpl. lia.
  - apply (H2 "   " Posix.start). reflexivity.
Defined.

(** C5, as the claim states it, fails: with 21 entries in the log the
    display starts at the second one and numbers it 1, while its
    sequence number in the log is 2; the last row is numbered 20, not
    21. *)
Lemma history_numbers_restart :
  List.length log21 = 21
  /\ hd_error (history_rows log21) = Some (1, "c2")
  /\ hd_error (recent 20 log21) = Some (2, "c2")
  /\ last (history_rows log21) (0, EmptyString) = (20, "c21")
  /\ last (recent 20 log21) (0, EmptyString) = (21, "c21").
Proof. repeat split. Qed.



(** The theorem [raw_line_recorded_before_dispatch] on a padded line
    that names no command, and on the history command. *)
Lemma raw_line_recorded_witness :
  command_history
    (term (snd (execute_command Posix.host "  nosuch  " Posix.start)))
  = ["  nosuch  "] /\
  fst (execute_command Posix.host "history" Posix.start) = "  1 history".
Proof.
  assert (Ha : ~ blank "  nosuch  ") by (unfold blank; simpl; discriminate).
  assert (Hb : ~ blank "history") by (unfold blank; simpl; discriminate).
  split.
  - exact (proj1 (raw_line_recorded_before_dispatch Posix.host
                    "  nosuch  " Posix.start Ha)).
  - apply (proj2 (proj2 (raw_line_recorded_before_dispatch Posix.host
                           "history" Posix.start Hb)) []).
    reflexivity.
Defined.

(** C6: the code breaks the claim. [cmd_cd] never writes [os.environ],
    whatever the host and the arguments; after [cd subdir] the session's
    map holds [OLDPWD] and the process environment, which child
    processes inherit, does not. *)
Theorem cd_does_not_mirror_oldpwd :
  (forall (W : Type) (host : Host W) (args : list string) (st : State W),
     os_environ (machine (snd (cmd_cd host args st)))
     = os_environ (machine st)) /\
  (fst (execute_command Posix.host "cd subdir" Posix.start) = EmptyString /\
   Dict.get "OLDPWD"
     (environment_vars
        (term (snd (execute_command Posix.host "cd subdir" Posix.start))))
   = Some "/home/user" /\
   Dict.get "OLDPWD"
     (os_environ
        (machine (snd (execute_command Posix.host "cd subdir" Posix.start))))
   = None).
Proof.
  split.
  - intros W host args st. apply cd_keeps_os_environ.
  - repeat split.
Qed.

End Scenarios.

(** ** More on the tokenizer *)

Section Words.

Lemma append_assoc (a b c : string) : (a ++ b) ++ c = a ++ (b ++ c).
Proof. induction a as [|x r IH]; simpl; [|rewrite IH]; reflexivity. Qed.

Lemma append_empty_r (a : string) : a ++ EmptyString = a.
Proof. induction a as [|x r IH]; simpl; [|rewrite IH]; reflexivity. Qed.

Lemma plain_char_inv (c : ascii) :
  plain_char c = true ->
  is_space c = false /\ is_quote c = false /\ Ascii.eqb c " " = false.
Proof.
  unfold plain_char. intros H. apply negb_true_iff, orb_false_iff in H.
  destruct H as [Hs Hq]. repeat split; try assumption.
  destruct (Ascii.eqb_spec c " ") as [->|]; [discriminate Hs | reflexivity].
Qed.

Lemma plain_word_inv (w : string) :
  plain_word w = true -> is_empty w = false /\ all_chars plain_char w = true.
Proof.
  unfold plain_word. intros H. apply andb_true_iff in H as [H1 H2].
  split; [now apply negb_true_iff | exact H2].
Qed.

(** Outside quotes the loop appends a run of plain characters to the
    buffer and nothing else happens. *)
Lemma lex_loop_plain (w : string) :
  forall toks cur,
    all_chars plain_char w = true ->
    lex_loop w (mkLexer toks cur false None)
    = mkLexer toks (cur ++ w) false None.
Proof.
  induction w as [|c r IH]; intros toks cur H; simpl.
  - now rewrite append_empty_r.
  - simpl in H. apply andb_true_iff in H as [Hc Hr].
    destruct (plain_char_inv c Hc) as (_ & Hq & Hsp).
    unfold lex_step. simpl. rewrite Hq, Hsp. simpl.
    rewrite IH by assumption. now rewrite append_assoc.
Qed.

(** A space met outside quotes with a word in the buffer emits the
    word. *)
Lemma lex_step_flush (toks : list string) (cur : string) :
  is_empty cur = false ->
  lex_step (mkLexer toks cur false None) " "
  = mkLexer (toks ++ [cur]) EmptyString false None.
Proof. intros H. unfold lex_step. simpl. now rewrite H. Qed.

Lemma lex_loop_word_space (w : string) (toks : list string) (rest : string) :
  plain_word w = true ->
  lex_loop (w ++ String " " rest) (mkLexer toks EmptyString false None)
  = lex_loop rest (mkLexer (toks ++ [w]) EmptyString false None).
Proof.
  intros H. destruct (plain_word_inv w H) as [Hne Hall].
  rewrite lex_loop_app, lex_loop_plain by assumption.
  simpl lex_loop. simpl append. now rewrite lex_step_flush.
Qed.

(** Words separated by single spaces and followed by one more space: the
    loop emits them all and ends with an empty buffer. *)
Lemma lex_loop_words_space (words : list string) :
  forall toks,
    Forall (fun w => plain_word w = true) words ->
    lex_loop (join " " words ++ " ") (mkLexer toks EmptyString false None)
    = mkLexer (toks ++ words) EmptyString false None.
Proof.
  induction words as [|w ws IH]; intros toks H.
  - simpl. now rewrite app_nil_r.
  - inversion H as [|? ? Hw Hws]; subst.
    rewrite join_cons. destruct ws as [|x l].
    + change (w ++ " ") with (w ++ String " " EmptyString).
      rewrite lex_loop_word_space by assumption. reflexivity.
    + rewrite append_assoc.
      change (" " ++ join " " (x :: l)) with (String " " (join " " (x :: l))).
      change (String " " (join " " (x :: l)) ++ " ")
        with (String " " (join " " (x :: l) ++ " ")).
      rewrite lex_loop_word_space by assumption.
      rewrite IH by assumption. now rewrite <- app_assoc.
Qed.

(** The same words without the final space: the last one is still in
    the buffer and the flush after the loop emits it. *)
Lemma lex_words (words : list string) :
  forall toks,
    Forall (fun w => plain_word w = true) words ->
    lex_finish (lex_loop (join " " words)
                  (mkLexer toks EmptyString false None))
    = (toks ++ words)%list.
Proof.
  induction words as [|w ws IH]; intros toks H.
  - simpl. unfold lex_finish. simpl. now rewrite app_nil_r.
  - inversion H as [|? ? Hw Hws]; subst.
    rewrite join_cons. destruct ws as [|x l].
    + destruct (plain_word_inv w Hw) as [Hne Hall].
      rewrite lex_loop_plain by assumption. unfold lex_finish. simpl.
      now rewrite Hne.
    + change (" " ++ join " " (x :: l)) with (String " " (join " " (x :: l))).
      rewrite lex_loop_word_space by assumption.
      rewrite IH by assumption. now rewrite <- app_assoc.
Qed.

Lemma plain_word_not_blank (w rest : string) :
  plain_word w = true -> ~ blank (w ++ rest).
Proof.
  intros H. destruct (plain_word_inv w H) as [Hne Hall].
  destruct w as [|c r]; [discriminate|].
  simpl in Hall. apply andb_true_iff in Hall as [Hc _].
  destruct (plain_char_inv c Hc) as (Hs & _).
  unfold blank. simpl. now rewrite Hs.
Qed.

Lemma join_words_not_blank (w : string) (ws : list string) :
  plain_word w = true -> ~ blank (join " " (w :: ws)).
Proof.
  intros H. rewrite join_cons. destruct ws.
  - rewrite <- (append_empty_r w). now apply plain_word_not_blank.
  - now apply plain_word_not_blank.
Qed.

Lemma parse_command_words (words : list string) :
  Forall (fun w => plain_word w = true) words ->
  parse_command (join " " words) = words.
Proof.
  intros H. destruct words as [|w ws]; [reflexivity|].
  unfold parse_command.
  assert (Hnb : is_empty (strip (join " " (w :: ws))) = false).
  { apply strip_not_blank, join_words_not_blank. now inversion H. }
  rewrite Hnb. apply (lex_words (w :: ws) [] H).
Qed.

(** X1: tokenizing is the inverse of joining with single spaces. For
    every list of words typed without quoting (each one not empty, with
    no white space and no quote character), the line made of the words
    separated by single spaces tokenizes to exactly those words. *)
Theorem tokenize_joined_words :
  forall words : list string,
    Forall (fun w => plain_word w = true) words ->
    parse_command (join " " words) = words.
Proof. exact parse_command_words. Qed.

(** The theorem [tokenize_joined_words] on three words. *)
Lemma tokenize_joined_words_witness :
  parse_command (join " " ["cp"; "-r"; "a/b.txt"]) = ["cp"; "-r"; "a/b.txt"].
Proof.
  apply tokenize_joined_words.
  repeat constructor.
Defined.

Lemma quoted_not_blank_after (pre : string) (q : ascii) (body : string) :
  is_quote q = true -> ~ blank (pre ++ quoted q body).
Proof. intros Hq. unfold quoted. now apply quoted_not_blank. Qed.

(** After an opening quote [q], a body without [q] and the closing [q]
    leave the body in the buffer, outside quotes. *)
Lemma lex_loop_quoted (q : ascii) (body : string) (toks : list string)
  (cur : string) :
  is_quote q = true ->
  mem_char q body = false ->
  lex_loop (quoted q body) (mkLexer toks cur false None)
  = mkLexer toks (cur ++ body) false None.
Proof.
  intros Hq Hb. unfold quoted. simpl lex_loop.
  assert (Hopen : lex_step (mkLexer toks cur false None) q
                  = mkLexer toks cur true (Some q)).
  { unfold lex_step. simpl. now rewrite Hq. }
  rewrite Hopen, lex_loop_app, lex_loop_in_quote by assumption.
  simpl. unfold lex_step. simpl.
  now rewrite andb_false_r, Ascii.eqb_refl.
Qed.

(** X2: quoting keeps an argument whole. For every list of unquoted
    words, every quote character [q] and every non-empty body that does
    not contain [q] (it may contain spaces and the other quote
    character), the words followed by a space and the quoted body
    tokenize to the words and then the body as one token, without its
    quotes. *)
Theorem quoted_argument_is_one_token :
  forall (words : list string) (q : ascii) (body : string),
    Forall (fun w => plain_word w = true) words ->
    is_quote q = true ->
    mem_char q body = false ->
    is_empty body = false ->
    parse_command (join " " words ++ " " ++ quoted q body)
    = (words ++ [body])%list.
Proof.
  intros words q body Hw Hq Hb Hne. unfold parse_command.
  assert (Hnb : is_empty (strip (join " " words ++ " " ++ quoted q body))
                = false).
  { apply strip_not_blank. rewrite <- append_assoc.
    now apply quoted_not_blank_after. }
  rewrite Hnb, <- append_assoc, lex_loop_app. unfold lexer_init.
  rewrite lex_loop_words_space by assumption.
  rewrite lex_loop_quoted by assumption.
  unfold lex_finish. simpl. now rewrite Hne.
Qed.

(** The theorem [quoted_argument_is_one_token] on a file name with a
    space and an apostrophe between double quotes. *)
Lemma quoted_argument_witness :
  parse_command ("cat " ++ quoted dquote ("my file's copy.txt"))
  = ["cat"; "my file's copy.txt"].
Proof.
  apply (quoted_argument_is_one_token ["cat"] dquote "my file's copy.txt");
    try reflexivity.
  repeat constructor.
Defined.

End Words.

(** ** More on the dispatcher *)

Section Sessions.

Context {W : Type} (host : Host W).

Lemma route_of_words (a : dict) (cmd : string) (words : list string) :
  Forall (fun w => plain_word w = true) (cmd :: words) ->
  route_of a (join " " (cmd :: words))
  = match lookup_builtin (resolve_alias cmd a) builtin_commands with
    | Some h => ToBuiltin h words
    | None => ToExternal (resolve_alias cmd a) words
    end.
Proof.
  intros H. unfold route_of. now rewrite parse_command_words.
Qed.

Lemma resolve_alias_none (cmd : string) (a : dict) :
  Dict.get cmd a = None -> resolve_alias cmd a = cmd.
Proof. intros H. unfold resolve_alias. now rewrite H. Qed.

(** X3: the words typed after a command reach its handler as they were
    typed. For a command word and argument words typed without quoting
    and separated by single spaces, the line is routed by the command
    word (after alias replacement) with exactly the argument words; so,
    unless [echo] has an alias, [echo] followed by words returns the
    words separated by single spaces. *)
Theorem typed_words_reach_handler :
  forall (st : State W) (cmd : string) (words : list string),
    Forall (fun w => plain_word w = true) (cmd :: words) ->
    route_of (aliases (term st)) (join " " (cmd :: words))
    = match lookup_builtin (resolve_alias cmd (aliases (term st)))
              builtin_commands with
      | Some h => ToBuiltin h words
      | None => ToExternal (resolve_alias cmd (aliases (term st))) words
      end /\
    (cmd = "echo" -> Dict.get "echo" (aliases (term st)) = None ->
     fst (execute_command host (join " " (cmd :: words)) st)
     = join " " words).
Proof.
  intros st cmd words H. split; [now apply route_of_words|].
  intros -> Ha. unfold execute_command.
  rewrite try_execute_follow, route_of_words by assumption.
  rewrite (resolve_alias_none _ _ Ha). reflexivity.
Qed.

(** *** Dictionaries stay dictionaries *)

Lemma keys_set (k v : string) (d : dict) :
  keys (Dict.set k v d)
  = if Dict.mem k d then keys d else (keys d ++ [k])%list.
Proof.
  unfold keys, Dict.mem.
  induction d as [|[k' v'] r IH]; simpl; [reflexivity|].
  destruct (String.eqb_spec k k') as [->|Hne]; simpl; [reflexivity|].
  rewrite IH. now destruct (Dict.get k r).
Qed.

Lemma mem_keys (k : string) (d : dict) :
  Dict.mem k d = true <-> In k (keys d).
Proof.
  unfold keys, Dict.mem.
  induction d as [|[k' v'] r IH]; simpl; [split; [discriminate | tauto]|].
  destruct (String.eqb_spec k k') as [->|Hne]; [tauto|].
  rewrite IH. split; [tauto | intros [E|E]; [congruence | exact E]].
Qed.

Lemma set_unique (k v : string) (d : dict) :
  NoDup (keys d) -> NoDup (keys (Dict.set k v d)).
Proof.
  intros H. rewrite keys_set. destruct (Dict.mem k d) eqn:E; [exact H|].
  apply NoDup_app; [exact H | repeat constructor; intros [] |].
  intros x Hx [<-|[]]. apply mem_keys in Hx. congruence.
Qed.

Lemma del_keys_incl (k x : string) (d : dict) :
  In x (keys (Dict.del k d)) -> In x (keys d).
Proof.
  unfold keys. induction d as [|[k' v'] r IH]; simpl; [tauto|].
  destruct (String.eqb k k'); simpl; tauto.
Qed.

Lemma del_unique (k : string) (d : dict) :
  NoDup (keys d) -> NoDup (keys (Dict.del k d)).
Proof.
  induction d as [|[k' v'] r IH]; simpl; intros H; [exact H|].
  inversion H as [|? ? Hnotin Hr]; subst.
  destruct (String.eqb k k'); [exact Hr|].
  simpl. constructor; [|now apply IH].
  intros Hin. apply Hnotin. now apply del_keys_incl in Hin.
Qed.

Lemma export_loop_unique (args : list string) :
  forall st, dicts_unique st -> dicts_unique (snd (export_loop host args st)).
Proof.
  induction args as [|arg rest IH]; intros st H; simpl; [exact H|].
  destruct (split_once "=" arg) as [[key value]|]; [|exact H].
  destruct H as (Ha & He & Ho).
  destruct (environ_setitem host key value).
  - simpl. repeat split; simpl; auto using set_unique.
  - apply IH. repeat split; simpl; auto using set_unique.
Qed.

Lemma alias_loop_unique (args : list string) :
  forall st : State W,
    dicts_unique st -> dicts_unique (snd (alias_loop args st)).
Proof.
  induction args as [|arg rest IH]; intros st H; simpl; [exact H|].
  destruct (split_once "=" arg) as [[alias command]|]; [|exact H].
  destruct H as (Ha & He & Ho).
  apply IH. repeat split; simpl; auto using set_unique.
Qed.

Lemma unalias_loop_unique (args : list string) :
  forall st : State W,
    dicts_unique st -> dicts_unique (snd (unalias_loop args st)).
Proof.
  induction args as [|arg rest IH]; intros st H; simpl; [exact H|].
  destruct (Dict.mem arg (aliases (term st))); [|exact H].
  destruct H as (Ha & He & Ho).
  apply IH. repeat split; simpl; auto using del_unique.
Qed.

Lemma run_handler_unique (h : handler) (args : list string) (st : State W) :
  dicts_unique st -> dicts_unique (snd (run_handler host h args st)).
Proof.
  intros H.
  destruct h; simpl; try exact H;
    try (unfold cmd_host;
         destruct (host_handler host _ args (term st) (machine st));
         exact H).
  - unfold cmd_cd. destruct H as (Ha & He & Ho).
    destruct (path_exists host _ _ && path_isdir host _ _);
      [|repeat split; assumption].
    destruct (os_chdir host _ _); repeat split; simpl;
      auto using set_unique.
  - unfold cmd_env. now destruct args.
  - unfold cmd_export. destruct args; [exact H|].
    now apply export_loop_unique.
  - unfold cmd_alias. destruct args; [exact H|].
    now apply alias_loop_unique.
  - unfold cmd_unalias. destruct args; [exact H|].
    now apply unalias_loop_unique.
Qed.

Lemma external_unique (cmd : string) (args : list string) (st : State W) :
  dicts_unique st ->
  dicts_unique (snd (execute_external_command host cmd args st)).
Proof.
  intros H. unfold execute_external_command.
  destruct (subprocess_run host _ _ _) as [r w]. destruct r; exact H.
Qed.

Lemma recorded_unique (line : string) (st : State W) :
  dicts_unique st -> dicts_unique (recorded line st).
Proof.
  unfold dicts_unique, recorded, record_history. simpl.
  now destruct (is_empty (strip line)).
Qed.

(** The dictionaries of the session stay dictionaries. If no key
    occurs twice in the alias table, in the session's environment map
    and in the process environment, the same holds after any line has
    been executed, on every host: the stores made by cd, export, alias
    and unalias replace or add one key and never duplicate one. *)
Lemma execute_command_keeps_keys_unique :
  forall (line : string) (st : State W),
    dicts_unique st -> dicts_unique (snd (execute_command host line st)).
Proof.
  intros line st H.
  rewrite execute_command_snd, try_execute_follow.
  apply (recorded_unique line) in H.
  destruct (route_of (aliases (term st)) line); simpl;
    [now apply run_handler_unique | now apply external_unique | exact H].
Qed.

End Sessions.

(** ** Stores and their loops *)

Section Stores.

Context {W : Type} (host : Host W).

Lemma split_once_app (key value : string) :
  mem_char "=" key = false ->
  split_once "=" (key ++ "=" ++ value) = Some (key, value).
Proof.
  change ("=" ++ value) with (String "=" value).
  induction key as [|c r IH]; intros H; [reflexivity|].
  cbn [mem_char] in H. apply orb_false_iff in H as [Hc Hr].
  cbn [append split_once]. rewrite Ascii.eqb_sym in Hc.
  rewrite Hc, (IH Hr). reflexivity.
Qed.

Lemma plain_assignment (key value : string) :
  plain_word key = true -> all_chars plain_char value = true ->
  plain_word (key ++ "=" ++ value) = true.
Proof.
  intros Hk Hv. destruct (plain_word_inv key Hk) as [Hne Hall].
  unfold plain_word. rewrite !all_chars_app, Hall, Hv.
  destruct key; [discriminate | reflexivity].
Qed.

Lemma export_loop_aliases (args : list string) :
  forall st, aliases (term (snd (export_loop host args st)))
             = aliases (term st).
Proof.
  induction args as [|arg rest IH]; intros st; simpl; [reflexivity|].
  destruct (split_once "=" arg) as [[key value]|]; [|reflexivity].
  destruct (environ_setitem host key value); [reflexivity|].
  now rewrite IH.
Qed.

Lemma environment_recorded (line : string) (st : State W) :
  environment_vars (term (recorded line st)) = environment_vars (term st).
Proof.
  unfold recorded, record_history. simpl.
  now destruct (is_empty (strip line)).
Qed.

(** The line [export key=value] on a host that accepts the pair. *)
Lemma export_line (st : State W) (key value : string) :
  plain_word key = true ->
  all_chars plain_char value = true ->
  mem_char "=" key = false ->
  environ_setitem host key value = None ->
  Dict.get "export" (aliases (term st)) = None ->
  let r := execute_command host ("export " ++ key ++ "=" ++ value) st in
  fst r = EmptyString /\
  Dict.get key (environment_vars (term (snd r))) = Some value /\
  Dict.get key (os_environ (machine (snd r))) = Some value /\
  aliases (term (snd r)) = aliases (term st).
Proof.
  intros Hk Hv Heq Hset Hax r. subst r.
  pose proof (plain_assignment key value Hk Hv) as Harg.
  assert (Hr1 : route_of (aliases (term st))
                  ("export " ++ key ++ "=" ++ value)
                = ToBuiltin H_export [key ++ "=" ++ value]).
  { change ("export " ++ key ++ "=" ++ value)
      with (join " " ["export"; key ++ "=" ++ value]).
    rewrite route_of_words by (repeat constructor; assumption).
    now rewrite (resolve_alias_none _ _ Hax). }
  assert (Hx : execute_command host ("export " ++ key ++ "=" ++ value) st
               = (EmptyString,
                  snd (export_loop host [key ++ "=" ++ value]
                         (recorded ("export " ++ key ++ "=" ++ value) st)))).
  { unfold execute_command. rewrite try_execute_follow, Hr1.
    cbn [follow run_handler cmd_export export_loop].
    rewrite (split_once_app key value Heq), Hset. reflexivity. }
  rewrite Hx. cbn [fst snd]. split; [reflexivity|].
  set (st1 := snd (export_loop host _ _)).
  assert (Hal : aliases (term st1) = aliases (term st)).
  { subst st1. rewrite export_loop_aliases. unfold recorded. simpl.
    apply aliases_record_history. }
  assert (Hget : Dict.get key (environment_vars (term st1)) = Some value
                 /\ Dict.get key (os_environ (machine st1)) = Some value).
  { subst st1. cbn [export_loop].
    rewrite (split_once_app key value Heq), Hset. simpl.
    split; apply get_set_same. }
  tauto.
Qed.

(** X4: a variable that has been exported can be read back. For a key
    and a value typed without quoting, the key without [=], on a host
    whose process environment accepts the pair, and unless [export] or
    [env] has an alias: the line [export key=value] returns the empty
    text, the line [env key] run next returns the value, and the
    process environment holds the value under the key as well. *)
Theorem export_then_env :
  forall (st : State W) (key value : string),
    plain_word key = true ->
    all_chars plain_char value = true ->
    mem_char "=" key = false ->
    environ_setitem host key value = None ->
    Dict.get "export" (aliases (term st)) = None ->
    Dict.get "env" (aliases (term st)) = None ->
    let r := execute_command host ("export " ++ key ++ "=" ++ value) st in
    fst r = EmptyString /\
    fst (execute_command host ("env " ++ key) (snd r)) = value /\
    Dict.get key (os_environ (machine (snd r))) = Some value.
Proof.
  intros st key value Hk Hv Heq Hset Hax Hae r. subst r.
  destruct (export_line st key value Hk Hv Heq Hset Hax)
    as (H1 & H2 & H3 & Hal).
  split; [exact H1|]. split; [|exact H3].
  set (st1 := snd (execute_command host _ st)) in *.
  unfold execute_command. rewrite try_execute_follow.
  change ("env " ++ key) with (join " " ["env"; key]).
  rewrite route_of_words by (repeat constructor; assumption).
  rewrite Hal, (resolve_alias_none _ _ Hae).
  cbn [lookup_builtin builtin_commands String.eqb Ascii.eqb Bool.eqb].
  cbn [follow run_handler]. unfold cmd_env. cbn [fst].
  rewrite environment_recorded. unfold Dict.get_default.
  now rewrite H2.
Qed.

(** X5: exporting [USER] changes who the terminal says you are. For a
    name typed without quoting that the process environment accepts,
    and unless [export] or [whoami] has an alias: after the line
    [export USER=name] the line [whoami] returns the name and the prompt
    starts with the name and an at sign, because [cmd_export] writes the
    process environment that [cmd_whoami] and [get_prompt] read. *)
Theorem export_user_changes_whoami :
  forall (st : State W) (name : string),
    plain_word name = true ->
    environ_setitem host "USER" name = None ->
    Dict.get "export" (aliases (term st)) = None ->
    Dict.get "whoami" (aliases (term st)) = None ->
    let st1 := snd (execute_command host ("export USER=" ++ name) st) in
    fst (execute_command host "whoami" st1) = name /\
    exists rest, get_prompt host st1 = name ++ "@" ++ rest.
Proof.
  intros st name Hn Hset Hax Haw st1.
  destruct (plain_word_inv name Hn) as [_ Hall].
  destruct (export_line st "USER" name eq_refl Hall eq_refl Hset Hax)
    as (_ & _ & H3 & Hal).
  change ("export " ++ "USER" ++ "=" ++ name) with ("export USER=" ++ name)
    in H3, Hal.
  fold st1 in H3, Hal.
  assert (Hw : whoami (machine st1) = name).
  { unfold whoami, Dict.get_default. now rewrite H3. }
  clearbody st1. split.
  - unfold execute_command. rewrite try_execute_follow.
    unfold route_of. change (parse_command "whoami") with ["whoami"].
    cbv beta iota zeta. rewrite Hal, (resolve_alias_none _ _ Haw).
    cbn [follow run_handler lookup_builtin builtin_commands String.eqb
           Ascii.eqb Bool.eqb].
    unfold cmd_whoami. cbn [fst]. exact Hw.
  - unfold get_prompt. rewrite Hw. eexists. reflexivity.
Qed.

(** *** The loops stop at the first bad argument *)

Lemma export_loop_app (good more : list string) :
  forall st,
    fst (export_loop host good st) = Returned EmptyString ->
    export_loop host (good ++ more) st
    = export_loop host more (snd (export_loop host good st)).
Proof.
  induction good as [|arg rest IH]; intros st H; simpl in *; [reflexivity|].
  destruct (split_once "=" arg) as [[key value]|]; [|discriminate H].
  destruct (environ_setitem host key value); [discriminate H|].
  now apply IH.
Qed.

Lemma alias_loop_app (good more : list string) :
  forall st : State W,
    fst (alias_loop good st) = Returned EmptyString ->
    alias_loop (good ++ more) st
    = alias_loop more (snd (alias_loop good st)).
Proof.
  induction good as [|arg rest IH]; intros st H; simpl in *; [reflexivity|].
  destruct (split_once "=" arg) as [[alias command]|]; [|discriminate H].
  now apply IH.
Qed.

Lemma unalias_loop_app (good more : list string) :
  forall st : State W,
    fst (unalias_loop good st) = Returned EmptyString ->
    unalias_loop (good ++ more) st
    = unalias_loop more (snd (unalias_loop good st)).
Proof.
  induction good as [|arg rest IH]; intros st H; simpl in *; [reflexivity|].
  destruct (Dict.mem arg (aliases (term st))); [|discriminate H].
  now apply IH.
Qed.

(** X6: export, alias and unalias stop at their first bad argument and
    are not undone. When the loop of the handler accepts the arguments
    [good] (there may be none, so the bad argument may come first), then
    with a bad argument after them (no [=] for export and alias, a name
    without alias for unalias) the handler returns the complaint about
    that argument, the session is the one the good arguments alone leave
    behind, and whatever follows the bad argument is never looked at. *)
Theorem bad_argument_stops_loop :
  forall (good rest : list string) (bad : string) (st : State W),
    (fst (export_loop host good st) = Returned EmptyString ->
     split_once "=" bad = None ->
     cmd_export host (good ++ bad :: rest) st
     = (Returned ("export: invalid format " ++ SQ ++ bad ++ SQ),
        snd (export_loop host good st))) /\
    (fst (alias_loop good st) = Returned EmptyString ->
     split_once "=" bad = None ->
     cmd_alias (good ++ bad :: rest) st
     = (Returned ("alias: invalid format " ++ SQ ++ bad ++ SQ),
        snd (alias_loop good st))) /\
    (fst (unalias_loop good st) = Returned EmptyString ->
     Dict.mem bad (aliases (term (snd (unalias_loop good st)))) = false ->
     cmd_unalias (good ++ bad :: rest) st
     = (Returned ("unalias: " ++ bad ++ ": not found"),
        snd (unalias_loop good st))).
Proof.
  intros good rest bad st. split; [|split].
  - intros H Hb. unfold cmd_export.
    destruct (good ++ bad :: rest)%list eqn:E;
      [now destruct good|]. rewrite <- E.
    rewrite export_loop_app by exact H.
    set (st1 := snd (export_loop host good st)) in *.
    cbn [export_loop]. now rewrite Hb.
  - intros H Hb. unfold cmd_alias.
    destruct (good ++ bad :: rest)%list eqn:E;
      [now destruct good|]. rewrite <- E.
    rewrite alias_loop_app by exact H. simpl. now rewrite Hb.
  - intros H Hb. unfold cmd_unalias.
    destruct (good ++ bad :: rest)%list eqn:E;
      [now destruct good|]. rewrite <- E.
    rewrite unalias_loop_app by exact H.
    set (st1 := snd (unalias_loop good st)) in *.
    cbn [unalias_loop]. now rewrite Hb.
Qed.

(** *** Defining and removing an alias *)

Lemma del_set_fresh (k v : string) (d : dict) :
  Dict.get k d = None -> Dict.del k (Dict.set k v d) = d.
Proof.
  induction d as [|[k' v'] r IH]; simpl; intros H.
  - now rewrite String.eqb_refl.
  - destruct (String.eqb k k') eqn:E; [discriminate H|].
    simpl. rewrite E. now rewrite IH.
Qed.

Lemma get_del_same (k : string) (d : dict) :
  NoDup (keys d) -> Dict.get k (Dict.del k d) = None.
Proof.
  induction d as [|[k' v'] r IH]; simpl; intros H; [reflexivity|].
  inversion H as [|? ? Hnotin Hr]; subst.
  destruct (String.eqb_spec k k') as [->|Hne].
  - destruct (Dict.get k' r) eqn:E; [|reflexivity].
    exfalso. apply Hnotin, mem_keys. unfold Dict.mem. now rewrite E.
  - simpl. destruct (String.eqb_spec k k'); [congruence|]. now apply IH.
Qed.

(** X7: defining an alias and removing it again. For a name without
    [=]: after [alias name=text] the name stands for the text with the
    quote characters at its two ends stripped; [unalias name] then
    returns the empty text and the name has no alias any more (in a
    table without repeated keys); if the name had no alias before, the
    whole session is back to what it was; and [unalias] of a name
    without alias changes nothing and says so. *)
Theorem alias_then_unalias :
  forall (st : State W) (name text : string),
    mem_char "=" name = false ->
    let r := cmd_alias [name ++ "=" ++ text] st in
    fst r = Returned EmptyString /\
    Dict.get name (aliases (term (snd r)))
    = Some (strip_with is_quote text) /\
    fst (cmd_unalias [name] (snd r)) = Returned EmptyString /\
    (NoDup (keys (aliases (term st))) ->
     Dict.get name (aliases (term (snd (cmd_unalias [name] (snd r)))))
     = None) /\
    (Dict.get name (aliases (term st)) = None ->
     snd (cmd_unalias [name] (snd r)) = st /\
     cmd_unalias [name] st
     = (Returned ("unalias: " ++ name ++ ": not found"), st)).
Proof.
  intros st name text Heq r. subst r.
  unfold cmd_alias, cmd_unalias. cbn [alias_loop].
  rewrite (split_once_app name text Heq).
  cbn [fst snd unalias_loop term machine aliases set_aliases].
  unfold Dict.mem. rewrite get_set_same.
  cbn [fst snd unalias_loop term machine aliases set_aliases].
  split; [reflexivity|]. split; [reflexivity|].
  split; [reflexivity|]. split.
  - intros Hu. apply get_del_same. now apply set_unique.
  - intros Hn. split.
    + rewrite del_set_fresh by assumption.
      destruct st as [[cd ch ev al] m]. reflexivity.
    + cbn [unalias_loop]. unfold Dict.mem. now rewrite Hn.
Qed.

End Stores.

(** ** What a command leaves alone *)

Section Frames.

Context {W : Type} (host : Host W).




Lemma recorded_frame (line : string) (st : State W) :
  current_dir (term (recorded line st)) = current_dir (term st) /\
  aliases (term (recorded line st)) = aliases (term st) /\
  environment_vars (term (recorded line st)) = environment_vars (term st).
Proof.
  unfold recorded, record_history. simpl.
  destruct (is_empty (strip line)); simpl; tauto.
Qed.





(** *** The session's directory and the directory of the process *)

(** X9: the session's directory is the path that was asked for, whatever
    the process does. For a line routed to the cd handler whose target
    exists as a directory, [self.current_dir] becomes the target and
    [OLDPWD] the directory left, both before [os.chdir] is called. When
    [os.chdir] returns, the output is empty and the process is in the
    directory [os.chdir] has put it in, which need not be the path the
    session holds; when [os.chdir] raises, the output is [cd: ] followed
    by the message, the process has not moved, and the session names
    the target all the same. *)
Theorem cd_sets_session_directory :
  forall (line : string) (args : list string) (st : State W),
    route_of (aliases (term st)) line = ToBuiltin H_cd args ->
    let target := cd_target host args (recorded line st) in
    path_exists host (machine st) target = true ->
    path_isdir host (machine st) target = true ->
    let r := execute_command host line st in
    current_dir (term (snd r)) = target /\
    Dict.get "OLDPWD" (environment_vars (term (snd r)))
    = Some (current_dir (term st)) /\
    (forall cwd,
       os_chdir host (machine st) target = Returned cwd ->
       fst r = EmptyString /\ os_cwd (machine (snd r)) = cwd) /\
    (forall msg,
       os_chdir host (machine st) target = Raised msg ->
       fst r = "cd: " ++ msg /\
       os_cwd (machine (snd r)) = os_cwd (machine st)).
Proof.
  intros line args st Hr target Hx Hd r. subst r.
  pose proof (recorded_frame line st) as (R1 & _).
  unfold execute_command. rewrite try_execute_follow, Hr.
  cbn [follow run_handler]. unfold cmd_cd. fold target.
  change (machine (recorded line st)) with (machine st).
  rewrite Hx, Hd. cbn [andb].
  assert (Hold : forall t' : PythonTerminal,
            Dict.get "OLDPWD"
              (environment_vars
                 (set_current_dir target
                    (set_environment_vars
                       (Dict.set "OLDPWD" (current_dir (term (recorded line st)))
                          (environment_vars (term (recorded line st)))) t')))
            = Some (current_dir (term st))).
  { intros t'. cbn [set_current_dir set_environment_vars environment_vars].
    rewrite get_set_same. now rewrite R1. }
  destruct (os_chdir host (machine st) target) as [cwd|msg];
    cbn [fst snd term machine];
    (split; [reflexivity | split; [apply Hold | split]]).
  - intros cwd' H. injection H as <-. split; reflexivity.
  - intros msg H. discriminate H.
  - intros cwd' H. discriminate H.
  - intros msg' H. injection H as <-. split; reflexivity.
Qed.

End Frames.

(** ** Going back with [cd -] *)

Section CdMinus.

Context {W : Type} (host : Host W).

Lemma cd_target_minus (st : State W) :
  let prev := Dict.get_default "OLDPWD" (current_dir (term st))
                (environment_vars (term st)) in
  path_expanduser host (machine st) prev = prev ->
  path_isabs host prev = true ->
  path_abspath host (machine st) prev = prev ->
  cd_target host ["-"] st = prev.
Proof.
  intros prev He Ha Hn. unfold cd_target. cbn [String.eqb Ascii.eqb Bool.eqb].
  fold prev. now rewrite He, Ha.
Qed.

Lemma cmd_cd_minus (st : State W) (cwd : string) :
  let prev := Dict.get_default "OLDPWD" (current_dir (term st))
                (environment_vars (term st)) in
  path_expanduser host (machine st) prev = prev ->
  path_isabs host prev = true ->
  path_abspath host (machine st) prev = prev ->
  path_exists host (machine st) prev = true ->
  path_isdir host (machine st) prev = true ->
  os_chdir host (machine st) prev = Returned cwd ->
  cmd_cd host ["-"] st
  = (Returned EmptyString,
     mkState
       (set_current_dir prev
          (set_environment_vars
             (Dict.set "OLDPWD" (current_dir (term st))
                (environment_vars (term st))) (term st)))
       (set_os_cwd cwd (machine st))).
Proof.
  intros prev He Ha Hn Hx Hd Hc.
  unfold cmd_cd. rewrite (cd_target_minus st He Ha Hn). fold prev.
  now rewrite Hx, Hd, Hc.
Qed.

(** X10: [cd -] swaps the current directory and the recorded previous
    one. Let [prev] be the value under [OLDPWD] in the session's map, or
    the current directory when there is none. If [prev] is a name the
    handler can go to as it stands, [cd -] returns the empty text, makes
    [prev] the current directory of the session, leaves the process in
    the directory that [os.chdir] reports for [prev], and records the
    directory it left under [OLDPWD]; when that directory can be entered
    in turn, a second [cd -] leads back to it and records [prev]. *)
Theorem cd_minus_swaps :
  forall st : State W,
    let cur := current_dir (term st) in
    let prev := Dict.get_default "OLDPWD" cur (environment_vars (term st)) in
    enterable host (machine st) prev ->
    let r := cmd_cd host ["-"] st in
    (fst r = Returned EmptyString /\
     current_dir (term (snd r)) = prev /\
     os_chdir host (machine st) prev = Returned (os_cwd (machine (snd r))) /\
     Dict.get "OLDPWD" (environment_vars (term (snd r))) = Some cur) /\
    (enterable host (machine (snd r)) cur ->
     let r2 := cmd_cd host ["-"] (snd r) in
     fst r2 = Returned EmptyString /\
     current_dir (term (snd r2)) = cur /\
     Dict.get "OLDPWD" (environment_vars (term (snd r2))) = Some prev).
Proof.
  intros st cur prev (He & Ha & Hn & Hx & Hd & cwd & Hc) r. subst r.
  rewrite (cmd_cd_minus st cwd He Ha Hn Hx Hd Hc). fold cur prev.
  cbn [fst snd].
  split.
  - repeat split; [exact Hc | apply get_set_same].
  - intros (He1 & Ha1 & Hn1 & Hx1 & Hd1 & cwd1 & Hc1). cbv zeta.
    set (st1 := mkState _ _) in *.
    assert (Hprev1 : Dict.get_default "OLDPWD" (current_dir (term st1))
                       (environment_vars (term st1)) = cur).
    { subst st1. unfold Dict.get_default. simpl. now rewrite get_set_same. }
    pose proof (cmd_cd_minus st1 cwd1) as H1. cbv zeta in H1.
    rewrite Hprev1 in H1. rewrite (H1 He1 Ha1 Hn1 Hx1 Hd1 Hc1). cbn [fst snd].
    repeat split. simpl. apply get_set_same.
Qed.

End CdMinus.

(** ** Trimmed text *)

Section Trimmed.

Variable p : ascii -> bool.

Lemma rstrip_cons_keep (c : ascii) (r : string) :
  p c = false -> rstrip_with p (String c r) = String c (rstrip_with p r).
Proof. intros H. simpl. now rewrite H, andb_false_r. Qed.

Lemma rstrip_idem (s : string) :
  rstrip_with p (rstrip_with p s) = rstrip_with p s.
Proof.
  induction s as [|c r IH]; [reflexivity|].
  simpl. destruct (is_empty (rstrip_with p r) && p c) eqn:E; [reflexivity|].
  simpl. now rewrite IH, E.
Qed.

Lemma lstrip_fixed (c : ascii) (r : string) :
  p c = false -> lstrip_with p (String c r) = String c r.
Proof. intros H. simpl. now rewrite H. Qed.

Lemma strip_with_idem (s : string) :
  strip_with p (strip_with p s) = strip_with p s.
Proof.
  unfold strip_with.
  destruct (lstrip_head p s) as [E | (c & r & E & Hc)]; rewrite E.
  - reflexivity.
  - rewrite (rstrip_cons_keep c r Hc), (lstrip_fixed c _ Hc).
    rewrite <- (rstrip_cons_keep c r Hc). apply rstrip_idem.
Qed.

Lemma strip_with_first (s : string) (c : ascii) (r : string) :
  strip_with p s = String c r -> p c = false.
Proof.
  unfold strip_with.
  destruct (lstrip_head p s) as [E | (c' & r' & E & Hc)]; rewrite E.
  - discriminate.
  - rewrite (rstrip_cons_keep c' r' Hc). congruence.
Qed.

Lemma rstrip_last (s : string) :
  forall r c, rstrip_with p s = r ++ String c EmptyString -> p c = false.
Proof.
  induction s as [|a s' IH]; intros r c H; simpl in H.
  - destruct r; discriminate.
  - destruct (is_empty (rstrip_with p s') && p a) eqn:E.
    + destruct r; discriminate.
    + destruct r as [|x r0]; simpl in H.
      * injection H as -> Hr. rewrite Hr in E. exact E.
      * injection H as _ Hr. now apply (IH r0).
Qed.

Lemma lstrip_app_keep (a : string) (c : ascii) (n : string) :
  p c = false ->
  lstrip_with p (a ++ String c n) = lstrip_with p a ++ String c n.
Proof.
  intros H. induction a as [|x r IH]; simpl; [now rewrite H|].
  destruct (p x); [exact IH | reflexivity].
Qed.

Lemma rstrip_app_keep (a y : string) :
  is_empty (rstrip_with p y) = false ->
  rstrip_with p (a ++ y) = a ++ rstrip_with p y.
Proof.
  intros H. induction a as [|x r IH]; simpl; [reflexivity|].
  rewrite IH.
  assert (Hne : is_empty (r ++ rstrip_with p y) = false)
    by (destruct r; [exact H | reflexivity]).
  now rewrite Hne.
Qed.

End Trimmed.

Section ExternalOutput.

Context {W : Type} (host : Host W).

Lemma prefix_app (n b : string) : String.prefix n (n ++ b) = true.
Proof.
  induction n as [|c r IH]; simpl; [now destruct b|].
  destruct (ascii_dec c c); [exact IH | congruence].
Qed.

Lemma str_in_app (n a b : string) : str_in n (a ++ n ++ b) = true.
Proof.
  induction a as [|x r IH].
  - simpl append. destruct (n ++ b) eqn:E.
    + destruct n; [reflexivity | discriminate].
    + cbn [str_in]. rewrite <- E, prefix_app. reflexivity.
  - cbn [append str_in]. rewrite IH. apply orb_true_r.
Qed.

(** Trimming keeps the word [Error:] wherever it stands. *)
Lemma strip_keeps_error (a b : string) :
  str_in "Error:" (strip (a ++ "Error:" ++ b)) = true.
Proof.
  unfold strip, strip_with.
  change ("Error:" ++ b)
    with (String "E" (String "r" (String "r" (String "o" (String "r"
            (String ":" b)))))).
  rewrite lstrip_app_keep by reflexivity.
  rewrite rstrip_app_keep
    by (rewrite rstrip_cons_keep by reflexivity; reflexivity).
  rewrite !rstrip_cons_keep by reflexivity.
  apply (str_in_app "Error:").
Qed.

(** X11: the text of a completed external command is trimmed, and a
    non-empty error stream always shows. When [subprocess.run] returns,
    the bridge returns a text that trimming would not change: it does
    not start and does not end with white space. With an empty error
    stream it is the trimmed standard output; otherwise it contains the
    word [Error:], whatever the two streams hold. *)
Theorem external_output_trimmed :
  forall (cmd : string) (args : list string) (st : State W)
         (out err : string) (w : W),
    subprocess_run host (cmd :: args) (current_dir (term st)) (machine st)
    = (Completed out err, w) ->
    exists text,
      fst (execute_external_command host cmd args st) = Returned text /\
      strip text = text /\
      (forall c r, text = String c r -> is_space c = false) /\
      (forall r c, text = r ++ str1 c -> is_space c = false) /\
      (is_empty err = true -> text = strip out) /\
      (is_empty err = false -> str_in "Error:" text = true).
Proof.
  intros cmd args st out err w H.
  unfold execute_external_command. rewrite H.
  eexists. split; [reflexivity|].
  split; [apply strip_with_idem|].
  split; [intros c r E; exact (strip_with_first _ _ _ _ E)|].
  split; [intros r c E; exact (rstrip_last _ _ _ _ E)|].
  split; intros E; rewrite E; [reflexivity|].
  change (out ++ nl ++ "Error: " ++ err)
    with (out ++ nl ++ "Error:" ++ " " ++ err).
  rewrite <- append_assoc. apply strip_keeps_error.
Qed.

End ExternalOutput.

(** ** The boundary of the dispatcher *)

Section Boundary.

Context {W : Type} (host : Host W).

(** C4: [execute_command] returns a string for every line and state,
    whatever the host does: the text the [try] block returns, or the
    text [Error: ] followed by the message of the exception it raises.
    For a line that goes to the bridge, every failure of
    [subprocess.run] comes back as a text of its own: a timeout, a
    program that is not found, any other exception with its message,
    and a non-empty error stream, which is appended after [Error: ] and
    survives the trimming. An exception raised by a handler becomes the
    error line too. In the loop of [run] a line whose execution raised
    only prints that text, after which the loop goes on with the next
    input; and the loop stops only at the end of the input or on the
    sentinel. *)
Theorem dispatch_boundary_catches :
  forall (line : string) (st : State W),
    ((exists output st',
        try_execute host line st = (Returned output, st') /\
        execute_command host line st = (output, st')) \/
     (exists msg st',
        try_execute host line st = (Raised msg, st') /\
        execute_command host line st = ("Error: " ++ msg, st'))) /\
    (forall cmd args,
       route_of (aliases (term st)) line = ToExternal cmd args ->
       let run :=
         fst (subprocess_run host (cmd :: args) (current_dir (term st))
                (machine st)) in
       let output := fst (execute_command host line st) in
       (run = TimeoutExpired -> output = "Error: Command timed out") /\
       (run = FileNotFoundError ->
        output = "Error: Command " ++ SQ ++ cmd ++ SQ ++ " not found") /\
       (forall msg, run = OtherException msg -> output = "Error: " ++ msg) /\
       (forall out err,
          run = Completed out err ->
          output
          = strip (if is_empty err then out
                   else out ++ nl ++ "Error: " ++ err) /\
          (is_empty err = false -> str_in "Error:" output = true))) /\
    (forall h args msg st',
       route_of (aliases (term st)) line = ToBuiltin h args ->
       run_handler host h args (recorded line st) = (Raised msg, st') ->
       execute_command host line st = ("Error: " ++ msg, st')) /\
    (forall msg st' rest out,
       try_execute host (strip line) st = (Raised msg, st') ->
       run_loop host (Line line :: rest) st out
       = run_loop host rest st' (out ++ [("Error: " ++ msg)%string])%list) /\
    (forall inputs out,
       stopped (run_loop host inputs st out) = true ->
       In EOFError inputs \/
       exists text st0,
         In (Line text) inputs /\
         fst (execute_command host (strip text) st0) = "EXIT").
Proof.
  intros line st. split; [|split; [|split; [|split]]].
  - unfold execute_command.
    destruct (try_execute host line st) as [[output|msg] st'];
      [left | right]; eauto.
  - intros cmd args Hr run output. subst run output.
    pose proof (recorded_frame line st) as (R1 & _).
    unfold execute_command. rewrite try_execute_follow, Hr.
    cbn [follow]. unfold execute_external_command.
    change (machine (recorded line st)) with (machine st).
    rewrite R1.
    destruct (subprocess_run host (cmd :: args) (current_dir (term st))
                (machine st)) as [r w].
    cbn [fst].
    split; [|split; [|split]].
    + intros ->. reflexivity.
    + intros ->. reflexivity.
    + intros msg ->. reflexivity.
    + intros out err ->. cbn [fst]. split; [reflexivity|].
      intros E. rewrite E.
      change (out ++ nl ++ "Error: " ++ err)
        with (out ++ nl ++ "Error:" ++ " " ++ err).
      rewrite <- append_assoc. apply strip_keeps_error.
  - intros h args msg st' Hr H.
    unfold execute_command. rewrite try_execute_follow, Hr.
    cbn [follow]. now rewrite H.
  - intros msg st' rest out H. simpl.
    destruct (is_empty (strip line)) eqn:E.
    + destruct (strip line); [|discriminate].
      rewrite try_execute_blank in H by reflexivity. discriminate.
    + unfold execute_command. rewrite H. reflexivity.
  - intros inputs out. apply run_loop_stop_cause.
Qed.

End Boundary.

(** ** The loop of [run] *)

Section Loop.

Context {W : Type} (host : Host W).

(** X12: the loop of [run] reads its input in order and reads nothing
    after it has stopped. Running it over [inputs] followed by [post] is
    running it over [inputs] and, unless it has executed [break] there,
    going on over [post] from the session and the printed texts reached;
    once stopped, whatever follows in the input has no effect at all. *)
Theorem run_loop_app :
  forall (inputs post : list input_event) (st : State W)
         (out : list string),
    let r := run_loop host inputs st out in
    run_loop host (inputs ++ post) st out
    = if stopped r then r
      else run_loop host post (session r) (printed r).
Proof.
  induction inputs as [|ev rest IH]; intros post st out; cbv zeta.
  - reflexivity.
  - destruct ev as [text| |]; cbn [app run_loop].
    + destruct (is_empty (strip text)); [apply IH|].
      destruct (execute_command host (strip text) st) as [output st'].
      destruct (String.eqb output "EXIT"); [reflexivity|].
      destruct (is_empty output); apply IH.
    + apply IH.
    + reflexivity.
Qed.

Lemma strip_not_blank_twice (text : string) :
  ~ blank text -> ~ blank (strip text).
Proof.
  intros H. apply strip_not_blank. apply strip_not_blank in H.
  unfold strip in *. now rewrite strip_with_idem.
Qed.

(** X13: what [run] records. A blank input line is skipped: nothing is
    executed, printed or recorded. Any other line is trimmed before it
    is executed, so the history gains the line without the white space
    around it, whatever the command does. *)
Theorem run_records_trimmed_lines :
  forall (text : string) (rest : list input_event) (st : State W)
         (out : list string),
    (blank text ->
     run_loop host (Line text :: rest) st out = run_loop host rest st out) /\
    (~ blank text ->
     command_history (term (session (run_loop host [Line text] st out)))
     = (command_history (term st) ++ [strip text])%list).
Proof.
  intros text rest st out. split; intros H.
  - apply strip_blank in H. cbn [run_loop]. now rewrite H.
  - pose proof (strip_not_blank_twice text H) as H2.
    apply strip_not_blank in H. cbn [run_loop]. rewrite H.
    pose proof (execute_command_history host (strip text) st) as Hh.
    rewrite record_history_not_blank in Hh by assumption.
    destruct (execute_command host (strip text) st) as [output st'].
    cbn [snd] in Hh.
    destruct (String.eqb output "EXIT"); [exact Hh|].
    destruct (is_empty output); exact Hh.
Qed.

End Loop.

(** ** The window *)

Section WindowFacts.

Context {W : Type} (host : Host W).

Import UI.

Lemma getitem_in_range (l : list string) (i : Z) :
  (0 <= i < Z.of_nat (List.length l))%Z ->
  exists x, getitem l i = Some x /\ In x l.
Proof.
  intros [H0 H1]. unfold getitem.
  apply Z.leb_le in H0. rewrite H0.
  destruct (nth_error l (Z.to_nat i)) as [x|] eqn:E.
  - exists x. split; [reflexivity|]. now apply nth_error_In in E.
  - apply nth_error_None in E. apply Z.leb_le in H0. lia.
Qed.

Lemma recall_in_range (ui : @TerminalUI W) :
  (0 <= history_index ui < Z.of_nat (List.length (history ui)))%Z ->
  exists item,
    recall ui = (Returned tt, set_entry item (set_entry EmptyString ui)) /\
    In item (history ui).
Proof.
  intros H. unfold recall. cbn [history history_index set_entry].
  destruct (getitem_in_range _ _ H) as (x & Hx & Hin).
  rewrite Hx. now exists x.
Qed.

Lemma history_up_safe (ui : @TerminalUI W) :
  index_in_range ui ->
  fst (history_up ui) = Returned tt /\
  index_in_range (snd (history_up ui)) /\
  history (snd (history_up ui)) = history ui /\
  (history ui <> [] -> In (entry (snd (history_up ui))) (history ui)).
Proof.
  unfold index_in_range, history_up. intros H.
  destruct (history ui) as [|x l] eqn:Eh.
  - cbn [fst snd]. rewrite Eh. repeat split; try tauto; apply H.
  - set (ui1 := set_history_index _ ui).
    assert (Hr : (0 <= history_index ui1
                  < Z.of_nat (List.length (history ui1)))%Z).
    { subst ui1. cbn [history history_index set_history_index].
      rewrite Eh. cbn [List.length] in *. lia. }
    destruct (recall_in_range ui1 Hr) as (item & -> & Hin).
    cbn [fst snd history history_index entry set_entry].
    subst ui1. cbn [history history_index set_history_index] in *.
    rewrite Eh in *. repeat split; try assumption; try lia; intros _; assumption.
Qed.

Lemma history_down_safe (ui : @TerminalUI W) :
  index_in_range ui ->
  fst (history_down ui) = Returned tt /\
  index_in_range (snd (history_down ui)) /\
  history (snd (history_down ui)) = history ui /\
  (history ui <> [] -> In (entry (snd (history_down ui))) (history ui)).
Proof.
  unfold index_in_range, history_down. intros H.
  destruct (history ui) as [|x l] eqn:Eh.
  - cbn [fst snd]. rewrite Eh. repeat split; try tauto; apply H.
  - cbv zeta. set (ui1 := set_history_index _ ui).
    assert (Hr : (0 <= history_index ui1
                  < Z.of_nat (List.length (history ui1)))%Z).
    { subst ui1. cbn [history history_index set_history_index].
      rewrite Eh. cbn [List.length] in *. lia. }
    assert (Hlt : (history_index ui1 <? Z.of_nat (List.length (x :: l)))%Z
                  = true).
    { apply Z.ltb_lt. subst ui1.
      cbn [history history_index set_history_index] in *.
      rewrite Eh in Hr. apply Hr. }
    rewrite Hlt.
    destruct (recall_in_range ui1 Hr) as (item & -> & Hin).
    cbn [fst snd history history_index entry set_entry].
    subst ui1. cbn [history history_index set_history_index] in *.
    rewrite Eh in *. repeat split; try assumption; try lia; intros _; assumption.
Qed.

Lemma show_prompt_keeps (ui : @TerminalUI W) :
  history (show_prompt host ui) = history ui /\
  history_index (show_prompt host ui) = history_index ui /\
  entry (show_prompt host ui) = entry ui /\
  terminal (show_prompt host ui) = terminal ui /\
  quit_called (show_prompt host ui) = quit_called ui.
Proof.
  unfold show_prompt.
  destruct (split_once ":" (get_prompt host (terminal ui))) as [[a b]|];
    repeat split.
Qed.

Lemma run_command_history (ui : @TerminalUI W) :
  ~ blank (entry ui) ->
  history (run_command host ui) = (history ui ++ [strip (entry ui)])%list /\
  history_index (run_command host ui)
  = Z.of_nat (List.length (history ui ++ [strip (entry ui)])) /\
  entry (run_command host ui) = EmptyString.
Proof.
  intros H. apply strip_not_blank in H. unfold run_command. rewrite H.
  cbv zeta.
  destruct (execute_command host (strip (entry ui)) _) as [output t].
  destruct (String.eqb output "EXIT"); [|destruct (looks_like_error output)];
    unfold show_prompt;
    match goal with
    | |- context [split_once ":" ?x] =>
        destruct (split_once ":" x) as [[a b]|]
    end; repeat split.
Qed.

Lemma run_command_in_range (ui : @TerminalUI W) :
  index_in_range ui -> index_in_range (run_command host ui).
Proof.
  intros H. unfold index_in_range.
  destruct (is_empty (strip (entry ui))) eqn:E.
  - unfold run_command. rewrite E.
    destruct (show_prompt_keeps ui) as (H1 & H2 & _).
    rewrite H1, H2. apply H.
  - apply strip_not_blank in E.
    destruct (run_command_history ui E) as (H1 & H2 & _).
    rewrite H1, H2. lia.
Qed.

(** X14: the arrow keys never fail. The index of the window's history
    starts between [-1] and the length of the history and stays there
    through typing, Return, Up and Down; in such a state Up and Down
    raise no [IndexError], and once the history is not empty the entry
    holds one of its items after either key. *)
Theorem history_keys_never_fail :
  (forall t : State W, index_in_range (created t)) /\
  (forall ui : @TerminalUI W,
     index_in_range ui ->
     (fst (history_up ui) = Returned tt /\
      index_in_range (snd (history_up ui)) /\
      (history ui <> [] -> In (entry (snd (history_up ui))) (history ui))) /\
     (fst (history_down ui) = Returned tt /\
      index_in_range (snd (history_down ui)) /\
      (history ui <> [] -> In (entry (snd (history_down ui))) (history ui))) /\
     index_in_range (run_command host ui) /\
     (forall text, index_in_range (type_text text ui))).
Proof.
  split.
  - intros t. unfold index_in_range, created. simpl. lia.
  - intros ui H.
    destruct (history_up_safe ui H) as (U1 & U2 & _ & U3).
    destruct (history_down_safe ui H) as (D1 & D2 & _ & D3).
    split; [now split|]. split; [now split|].
    split; [now apply run_command_in_range | intros text; exact H].
Qed.

Lemma getitem_last (h : list string) (c : string) :
  getitem (h ++ [c]) (Z.of_nat (List.length h)) = Some c.
Proof.
  unfold getitem.
  assert (H0 : (0 <=? Z.of_nat (List.length h))%Z = true)
    by (apply Z.leb_le; lia).
  rewrite H0, Nat2Z.id, nth_error_app2 by lia.
  now rewrite Nat.sub_diag.
Qed.

(** X15: Up brings back the command just run. After Return on an entry
    that is not blank, the entry is empty and the history ends with the
    trimmed text; Up then puts that text into the entry, and Down after
    it leaves it there (Down never goes past the newest item). *)
Theorem up_recalls_last_command :
  forall ui : @TerminalUI W,
    ~ blank (entry ui) ->
    let ui1 := run_command host ui in
    let ui2 := snd (history_up ui1) in
    entry ui1 = EmptyString /\
    last (history ui1) EmptyString = strip (entry ui) /\
    entry ui2 = strip (entry ui) /\
    entry (snd (history_down ui2)) = strip (entry ui).
Proof.
  intros ui H ui1 ui2.
  destruct (run_command_history ui H) as (H1 & H2 & H3). fold ui1 in H1, H2, H3.
  set (c := strip (entry ui)) in *. set (h := history ui) in *.
  assert (Hup : history_up ui1
                = (Returned tt,
                   set_entry c
                     (set_entry EmptyString
                        (set_history_index (Z.of_nat (List.length h)) ui1)))).
  { unfold history_up. rewrite H1, H2.
    destruct (h ++ [c])%list eqn:E; [now destruct h|]. rewrite <- E in *.
    replace (Z.max 0 (Z.of_nat (List.length (h ++ [c])) - 1))
      with (Z.of_nat (List.length h))
      by (rewrite length_app; cbn [List.length]; lia).
    unfold recall. cbn [history history_index set_entry set_history_index].
    now rewrite H1, getitem_last. }
  split; [exact H3|]. split; [rewrite H1; apply last_last|].
  subst ui2. rewrite Hup. cbn [snd]. split; [reflexivity|].
  unfold history_down.
  cbn [history history_index set_entry set_history_index]. rewrite H1.
  destruct (h ++ [c])%list eqn:E; [now destruct h|]. rewrite <- E in *.
  cbv zeta. cbn [history history_index set_entry set_history_index].
  rewrite ?H1.
  replace (Z.min (Z.of_nat (List.length (h ++ [c])) - 1)
             (Z.of_nat (List.length h) + 1))
    with (Z.of_nat (List.length h))
    by (rewrite length_app; cbn [List.length]; lia).
  assert (Hlt : (Z.of_nat (List.length h)
                 <? Z.of_nat (List.length (h ++ [c])))%Z = true)
    by (apply Z.ltb_lt; rewrite length_app; cbn [List.length]; lia).
  rewrite Hlt. unfold recall.
  cbn [history history_index set_entry set_history_index].
  now rewrite H1, getitem_last.
Qed.

Lemma error_word_in (msg : string) : str_in "Error:" ("Error: " ++ msg) = true.
Proof. apply (str_in_app "Error:" EmptyString (" " ++ msg)). Qed.

Lemma show_prompt_box (ui : @TerminalUI W) :
  exists p1 p2,
    output_box (show_prompt host ui)
    = (output_box ui ++ [(p1, "green"); (p2, "blue")])%list.
Proof.
  unfold show_prompt.
  destruct (split_once ":" (get_prompt host (terminal ui))) as [[a b]|];
    eexists; eexists; unfold append_output; cbn [output_box];
    rewrite <- app_assoc; reflexivity.
Qed.

(** *** The colour tag of the output widget *)

Lemma str_length_app (a b : string) :
  String.length (a ++ b) = String.length a + String.length b.
Proof. induction a as [|c r IH]; simpl; [reflexivity | now rewrite IH]. Qed.

Lemma box_text_app (a b : list (string * string)) :
  box_text (a ++ b) = box_text a ++ box_text b.
Proof.
  induction a as [|c r IH]; simpl; [reflexivity|].
  now rewrite IH, append_assoc.
Qed.

Lemma box_text_one (text colour : string) :
  box_text [(text, colour)] = text.
Proof. simpl. apply append_empty_r. Qed.

(** A text that ends with a newline has an empty last line. *)
Lemma line_start_newline_end (a : string) :
  line_start (a ++ nl) = String.length (a ++ nl).
Proof.
  induction a as [|c r IH]; [reflexivity|].
  cbn [append line_start String.length].
  rewrite mem_char_app. cbn [nl str1 mem_char].
  rewrite Ascii.eqb_refl, orb_true_r. now rewrite IH.
Qed.

(** What is written after a newline starts no earlier than that. *)
Lemma line_start_after_newline (a b : string) :
  String.length (a ++ nl) <= line_start ((a ++ nl) ++ b).
Proof.
  induction a as [|c r IH].
  - cbn [append nl str1 line_start String.length].
    destruct (mem_char (chr 10) b); [lia|].
    rewrite Ascii.eqb_refl. lia.
  - cbn [append line_start String.length].
    rewrite !mem_char_app. cbn [nl str1 mem_char].
    rewrite Ascii.eqb_refl. cbn [orb]. rewrite orb_true_r. cbn [orb].
    apply le_n_S. exact IH.
Qed.

(** One call of [append_output]: the text goes in, the tag takes the
    colour, and the only range the tag can gain is the last line of the
    new text. *)
Lemma append_output_spec (text colour end_ : string) (ui : @TerminalUI W) :
  let ui' := append_output text colour end_ ui in
  let content := box_text (output_box ui) ++ text ++ end_ in
  output_box ui' = (output_box ui ++ [((text ++ end_)%string, colour)])%list /\
  color_foreground ui' = Some colour /\
  exists extra,
    color_ranges ui' = (color_ranges ui ++ extra)%list /\
    Forall (fun r => line_start content <= fst r /\ fst r < snd r /\
                     snd r <= String.length content) extra.
Proof.
  cbv zeta. unfold append_output.
  cbn [output_box color_foreground color_ranges].
  rewrite box_text_app, box_text_one.
  split; [reflexivity|]. split; [reflexivity|].
  destruct (Nat.ltb_spec (line_start (box_text (output_box ui) ++ text ++ end_))
              (String.length (box_text (output_box ui) ++ text ++ end_)))
    as [Hlt|Hge].
  - eexists. split; [reflexivity|].
    constructor; [|constructor]. cbn [fst snd]. lia.
  - exists []. split; [now rewrite app_nil_r | constructor].
Qed.

Lemma carries_tag_ranges (ui : @TerminalUI W) (i : nat) :
  carries_tag ui i = true <->
  exists r, In r (color_ranges ui) /\ fst r <= i /\ i < snd r.
Proof.
  unfold carries_tag. rewrite existsb_exists.
  split; intros (r & Hin & H); exists r; split; try assumption.
  - apply andb_true_iff in H as [H1 H2].
    apply Nat.leb_le in H1. apply Nat.ltb_lt in H2. now split.
  - apply andb_true_iff. split; [apply Nat.leb_le | apply Nat.ltb_lt]; apply H.
Qed.

(** A prompt shown after a finished line: its two pieces go in, the tag
    is left blue, and the ranges it gains lie in the prompt. *)
Lemma show_prompt_after_line (ui : @TerminalUI W) (before : string) :
  box_text (output_box ui) = before ++ nl ->
  exists p1 p2 extra,
    output_box (show_prompt host ui)
    = (output_box ui ++ [(p1, "green"); (p2, "blue")])%list /\
    color_foreground (show_prompt host ui) = Some "blue" /\
    color_ranges (show_prompt host ui) = (color_ranges ui ++ extra)%list /\
    Forall (fun r => String.length (before ++ nl) <= fst r /\
                     snd r <= String.length ((before ++ nl) ++ p1 ++ p2)) extra.
Proof.
  intros Hb. unfold show_prompt.
  destruct (split_once ":" (get_prompt host (terminal ui))) as [[a b]|];
    [set (q1 := (a ++ ":")%string); set (q2 := (b ++ "$ ")%string)
    |set (q1 := (get_prompt host (terminal ui) ++ ":")%string);
     set (q2 := (EmptyString ++ "$ ")%string)];
    (destruct (append_output_spec q1 "green" EmptyString ui)
       as (B6 & _ & e6 & R6 & F6);
     set (ui6 := append_output q1 "green" EmptyString ui) in *;
     destruct (append_output_spec q2 "blue" EmptyString ui6)
       as (B7 & C7 & e7 & R7 & F7);
     cbv zeta in F6, F7;
     exists q1, q2, (e6 ++ e7)%list;
     rewrite B7, B6, R7, R6, <- !app_assoc, !append_empty_r;
     split; [reflexivity|]; split; [exact C7|]; split; [reflexivity|];
     rewrite B6, box_text_app, box_text_one in F7;
     rewrite !append_empty_r, Hb in F6;
     rewrite !append_empty_r, Hb, append_assoc in F7;
     pose proof (line_start_after_newline before q1) as L6;
     pose proof (line_start_after_newline before (q1 ++ q2)) as L7;
     assert (Len : String.length ((before ++ nl) ++ q1)
                   <= String.length ((before ++ nl) ++ q1 ++ q2))
       by (rewrite <- append_assoc, (str_length_app ((before ++ nl) ++ q1));
           lia);
     apply Forall_app; split;
     (eapply Forall_impl; [|eassumption]); cbn beta; intros r Hr; lia).
Qed.

(** What Return leaves in the output widget: the command and the text
    shown for it, each on a line of its own, then the two pieces of the
    prompt; the tag is left blue, and the ranges it has gained start
    after the line of the text shown. *)
Lemma run_command_box (ui : @TerminalUI W) :
  ~ blank (entry ui) ->
  let command := strip (entry ui) in
  let output := fst (execute_command host command (terminal ui)) in
  let shown := if String.eqb output "EXIT" then "Goodbye!" else output in
  let colour := if String.eqb output "EXIT" then "red"
                else if looks_like_error output then "red" else "white" in
  let text := box_text (output_box ui) ++ command ++ nl ++ shown ++ nl in
  exists p1 p2 extra,
    output_box (run_command host ui)
    = (output_box ui
       ++ [((command ++ nl)%string, "white"); ((shown ++ nl)%string, colour);
           (p1, "green"); (p2, "blue")])%list /\
    color_foreground (run_command host ui) = Some "blue" /\
    color_ranges (run_command host ui) = (color_ranges ui ++ extra)%list /\
    Forall (fun r => String.length text <= fst r /\
                     snd r <= String.length (text ++ p1 ++ p2)) extra.
Proof.
  intros H command output shown colour text.
  apply strip_not_blank in H. unfold run_command. rewrite H.
  fold command. cbv zeta.
  destruct (execute_command host command
              (terminal
                 (append_output command "white" nl
                    (set_history (history ui ++ [command])
                       (Z.of_nat (List.length (history ui ++ [command])))
                       ui)))) as [out t] eqn:Ex.
  assert (Eo : output = out).
  { subst output. cbn [terminal append_output set_history] in Ex.
    now rewrite Ex. }
  set (ui1 := set_history (history ui ++ [command])
                (Z.of_nat (List.length (history ui ++ [command]))) ui) in *.
  set (ui2 := append_output command "white" nl ui1) in *.
  set (ui3 := set_terminal t ui2).
  set (ui4 := if String.eqb out "EXIT"
              then set_quit_called (append_output "Goodbye!" "red" nl ui3)
              else if looks_like_error out
                   then append_output out "red" nl ui3
                   else append_output out "white" nl ui3).
  set (ui5 := set_entry EmptyString ui4).
  destruct (append_output_spec command "white" nl ui1) as (B2 & _ & e2 & R2 & F2).
  fold ui2 in B2, R2. cbv zeta in F2.
  change (output_box ui1) with (output_box ui) in B2, F2.
  change (color_ranges ui1) with (color_ranges ui) in R2.
  assert (S4 : output_box ui4
               = (output_box ui3 ++ [((shown ++ nl)%string, colour)])%list /\
               exists e4,
                 color_ranges ui4 = (color_ranges ui3 ++ e4)%list /\
                 Forall (fun r =>
                           line_start (box_text (output_box ui3) ++ shown ++ nl)
                           <= fst r /\ fst r < snd r /\
                           snd r <= String.length
                                      (box_text (output_box ui3) ++ shown ++ nl))
                   e4).
  { subst ui4 shown colour. rewrite Eo.
    destruct (String.eqb out "EXIT").
    - destruct (append_output_spec "Goodbye!" "red" nl ui3) as (B & _ & e & R & F).
      split; [exact B | exists e; split; [exact R | exact F]].
    - destruct (looks_like_error out).
      + destruct (append_output_spec out "red" nl ui3) as (B & _ & e & R & F).
        split; [exact B | exists e; split; [exact R | exact F]].
      + destruct (append_output_spec out "white" nl ui3) as (B & _ & e & R & F).
        split; [exact B | exists e; split; [exact R | exact F]]. }
  destruct S4 as (B4 & e4 & R4 & F4).
  change (output_box ui3) with (output_box ui2) in B4, F4.
  change (color_ranges ui3) with (color_ranges ui2) in R4.
  rewrite B2, box_text_app, box_text_one in F4.
  rewrite !append_assoc in F4. rewrite ?append_assoc in F2.
  assert (T5 : box_text (output_box ui5)
               = (box_text (output_box ui) ++ command ++ nl ++ shown) ++ nl).
  { change (output_box ui5) with (output_box ui4).
    rewrite B4, B2, !box_text_app, !box_text_one, !append_assoc. reflexivity. }
  destruct (show_prompt_after_line ui5 _ T5) as (p1 & p2 & e5 & B5 & C5 & R5 & F5).
  change (output_box ui5) with (output_box ui4) in B5.
  change (color_ranges ui5) with (color_ranges ui4) in R5.
  rewrite !append_assoc in F5.
  exists p1, p2, (e2 ++ e4 ++ e5)%list.
  rewrite B5, B4, B2, R5, R4, R2, <- !app_assoc.
  split; [reflexivity|]. split; [exact C5|]. split; [reflexivity|].
  subst text.
  assert (L2 : line_start (box_text (output_box ui) ++ command ++ nl)
               = String.length (box_text (output_box ui) ++ command ++ nl)).
  { rewrite <- append_assoc. apply line_start_newline_end. }
  assert (L4 : line_start
                 (box_text (output_box ui) ++ command ++ nl ++ shown ++ nl)
               = String.length
                   (box_text (output_box ui) ++ command ++ nl ++ shown ++ nl)).
  { rewrite <- !append_assoc. apply line_start_newline_end. }
  rewrite L2 in F2. rewrite L4 in F4. rewrite !append_assoc.
  repeat (apply Forall_app; split);
    (eapply Forall_impl; [|eassumption]); cbn beta; intros r Hr; lia.
Qed.

(** X16: Return asks for red on what looks like an error, and the red
    does not stay. After Return on an entry that is not blank: when the
    text returned for the command contains [Error:], [No such file] or
    [invalid], [append_output] is called with that text and the colour
    red, which is the case for every text the dispatcher makes from a
    raised exception and for every text the bridge makes from a timeout,
    a missing program, another failure to start, or a non-empty error
    stream. But the command and the text shown for it are inserted with
    a newline after them, so the last line of the widget, which is what
    [append_output] tags, is empty: a character that carries the tag
    after Return carried it before or belongs to the new prompt, and in
    a widget whose tag lies within its text no character of the two new
    lines carries it. When [run_command] returns, the one tag is
    configured with the colour of the last call, blue. *)
Theorem error_text_colour :
  forall ui : @TerminalUI W,
    ~ blank (entry ui) ->
    let command := strip (entry ui) in
    let output := fst (execute_command host command (terminal ui)) in
    let shown := if String.eqb output "EXIT" then "Goodbye!" else output in
    let ui' := run_command host ui in
    let from := String.length (box_text (output_box ui)) in
    let upto := from + String.length (command ++ nl ++ shown ++ nl) in
    (looks_like_error output = true ->
     In ((output ++ nl)%string, "red") (output_box ui')) /\
    (forall msg st',
       try_execute host command (terminal ui) = (Raised msg, st') ->
       looks_like_error output = true) /\
    (forall cmd args,
       route_of (aliases (term (terminal ui))) command = ToExternal cmd args ->
       (forall out w,
          subprocess_run host (cmd :: args)
            (current_dir (term (recorded command (terminal ui))))
            (machine (recorded command (terminal ui)))
          <> (Completed out EmptyString, w)) ->
       looks_like_error output = true) /\
    color_foreground ui' = Some "blue" /\
    (forall i, carries_tag ui' i = true -> carries_tag ui i = true \/ upto <= i)
    /\
    (tag_in_text ui ->
     tag_in_text ui' /\
     forall i, from <= i < upto -> carries_tag ui' i = false).
Proof.
  intros ui H command output shown ui' from upto.
  destruct (run_command_box ui H)
    as (p1 & p2 & extra & Hbox & Hfg & Hranges & Hextra).
  fold command output shown ui' in Hbox, Hfg, Hranges, Hextra.
  cbv zeta in Hextra.
  assert (Hupto : String.length (box_text (output_box ui) ++ command ++ nl
                                 ++ shown ++ nl) = upto)
    by (subst upto from; apply str_length_app).
  rewrite Hupto in Hextra.
  assert (Htag : forall i,
             carries_tag ui' i = true -> carries_tag ui i = true \/ upto <= i).
  { intros i Hi. apply carries_tag_ranges in Hi as (r & Hin & H1 & H2).
    rewrite Hranges in Hin. apply in_app_or in Hin as [Hin|Hin].
    - left. apply carries_tag_ranges. now exists r.
    - right. rewrite Forall_forall in Hextra.
      destruct (Hextra r Hin) as [Hlo _]. lia. }
  split; [|split; [|split; [|split; [exact Hfg | split; [exact Htag|]]]]].
  - intros He. rewrite Hbox. subst shown.
    assert (Hne : String.eqb output "EXIT" = false).
    { destruct (String.eqb_spec output "EXIT") as [E|]; [|reflexivity].
      rewrite E in He. discriminate He. }
    rewrite Hne, He. apply in_or_app. right. right. now left.
  - intros msg st' Ht. subst output. unfold execute_command. rewrite Ht.
    cbn [fst]. unfold looks_like_error. now rewrite error_word_in.
  - intros cmd args Hr Hrun. subst output. unfold execute_command.
    rewrite try_execute_follow, Hr. cbn [follow].
    unfold execute_external_command.
    destruct (subprocess_run host (cmd :: args) _ _) as [r w] eqn:Es.
    unfold looks_like_error.
    destruct r as [out err| | |msg]; cbn [fst].
    + destruct err as [|e err'].
      * exfalso. exact (Hrun out w eq_refl).
      * cbn [is_empty].
        change (out ++ nl ++ "Error: " ++ String e err')
          with (out ++ nl ++ "Error:" ++ " " ++ String e err').
        rewrite <- append_assoc. now rewrite strip_keeps_error.
    + reflexivity.
    + assert (E1 : str_in "Error:"
                     ("Error: Command " ++ SQ ++ cmd ++ SQ ++ " not found")
                   = true)
        by apply (error_word_in ("Command " ++ SQ ++ cmd ++ SQ ++ " not found")).
      now rewrite E1.
    + now rewrite error_word_in.
  - intros Hin. unfold tag_in_text in *.
    assert (Htext : String.length (box_text (output_box ui'))
                    = upto + String.length (p1 ++ p2)).
    { rewrite Hbox, box_text_app. cbn [box_text fold_right fst].
      rewrite append_empty_r, <- Hupto, !str_length_app. lia. }
    split.
    + rewrite Hranges. apply Forall_app. split.
      * eapply Forall_impl; [|exact Hin]. cbn beta. intros r Hr.
        subst upto from. lia.
      * eapply Forall_impl; [|exact Hextra]. cbn beta. intros r [_ Hr].
        rewrite str_length_app, Hupto in Hr. lia.
    + intros i [Hlo Hhi].
      destruct (carries_tag ui' i) eqn:E; [|reflexivity]. exfalso.
      destruct (Htag i E) as [Hold|Hnew]; [|lia].
      apply carries_tag_ranges in Hold as (r & Hr & _ & H2).
      rewrite Forall_forall in Hin. specialize (Hin r Hr).
      subst from. lia.
Qed.





End WindowFacts.

(** ** Listing and removing *)

Section FileFacts.

Context {W : Type} (host : Host W) (fs : FileOps W).

Lemma insert_sorted_perm (s : string) (l : list string) :
  Permutation (insert_sorted s l) (s :: l).
Proof.
  induction l as [|x r IH]; simpl; [reflexivity|].
  destruct (String.leb s x); [reflexivity|].
  rewrite IH. apply perm_swap.
Qed.

Lemma sorted_perm (l : list string) : Permutation (sorted l) l.
Proof.
  induction l as [|x r IH]; simpl; [reflexivity|].
  fold (sorted r). rewrite insert_sorted_perm. now constructor.
Qed.

Lemma insert_sorted_hd (a s : string) (l : list string) :
  str_le a s -> HdRel str_le a l -> HdRel str_le a (insert_sorted s l).
Proof.
  intros Has Hl. destruct l as [|x r]; simpl; [now constructor|].
  destruct (String.leb s x); constructor; [exact Has|].
  now inversion Hl.
Qed.

Lemma insert_sorted_ok (s : string) (l : list string) :
  Sorted str_le l -> Sorted str_le (insert_sorted s l).
Proof.
  induction l as [|x r IH]; intros H; simpl; [repeat constructor|].
  inversion H as [|? ? Hr Hhd]; subst.
  destruct (String.leb s x) eqn:E.
  - constructor; [exact H | now constructor].
  - constructor; [now apply IH|].
    apply insert_sorted_hd; [|exact Hhd].
    destruct (String.leb_total s x) as [Hsx|Hxs]; [congruence | exact Hxs].
Qed.

Lemma sorted_ok (l : list string) : Sorted str_le (sorted l).
Proof.
  induction l as [|x r IH]; simpl; [constructor|].
  now apply insert_sorted_ok.
Qed.

(** X18: [ls] shows the names of the directory, sorted, and hides the
    names that start with a dot unless [-a] or [--all] is given. For an
    existing target that is no regular file and that [os.listdir] can
    read, the items of the answer are a rearrangement of the listing
    (without the dotted names, or with them under the flag) in the order
    of the strings; the text is these items joined by two spaces, or one
    line per item in the long format; and the world is left as it
    was. *)
Theorem ls_lists_sorted_visible_names :
  forall (args : list string) (t : PythonTerminal) (m : Machine W)
         (listing : list string),
    let target := match operands args with
                  | p :: _ => p
                  | [] => current_dir t
                  end in
    let show_hidden := in_list "-a" args || in_list "--all" args in
    let long_format := in_list "-l" args || in_list "--long" args in
    path_exists host m target = true ->
    path_isfile fs m target = false ->
    os_listdir fs m target = Returned listing ->
    exists items,
      Sorted str_le items /\
      Permutation items
        (if show_hidden then listing else filter shown_name listing) /\
      (show_hidden = false -> Forall (fun i => shown_name i = true) items) /\
      cmd_ls host fs args t m
      = (Returned (if long_format
                   then join nl (map (ls_long_line host fs target m) items)
                   else join "  " items),
         world m).
Proof.
  intros args t m listing target show_hidden long_format He Hf Hl.
  exists (sorted (if show_hidden then listing else filter shown_name listing)).
  split; [apply sorted_ok|]. split; [apply sorted_perm|]. split.
  - intros Hs. rewrite Hs. apply Forall_forall. intros i Hi.
    apply (Permutation_in _ (sorted_perm _)) in Hi.
    now apply filter_In in Hi.
  - unfold cmd_ls. fold target show_hidden long_format.
    rewrite He. cbn [negb]. unfold ls_items. rewrite Hf, Hl.
    fold shown_name. destruct show_hidden, long_format; reflexivity.
Qed.

Lemma rm_loop_without_recursive
  (rmtree : Machine W -> string -> option os_error * W) (force : bool)
  (files : list string) :
  forall m results,
    rm_loop host (with_rmtree rmtree fs) false force files m results
    = rm_loop host fs false force files m results.
Proof.
  induction files as [|f rest IH]; intros m results; simpl; [reflexivity|].
  destruct (path_isdir host m f); [apply IH|].
  destruct (os_remove fs m f) as [e w]. apply IH.
Qed.

(** X19: [rm] without a recursive flag never removes a directory tree.
    When none of [-r], [-R] and [--recursive] is among the arguments,
    the answer and the world after [cmd_rm] are the same whatever
    [shutil.rmtree] would do: it is not called. A directory given as the
    only argument is reported as [is a directory] and nothing
    changes. *)
Theorem rm_needs_flag_for_directories :
  forall (args : list string) (t : PythonTerminal) (m : Machine W),
    in_list "-r" args = false ->
    in_list "-R" args = false ->
    in_list "--recursive" args = false ->
    (forall rmtree,
       cmd_rm host (with_rmtree rmtree fs) args t m
       = cmd_rm host fs args t m) /\
    (forall d,
       args = [d] -> startswith d "-" = false ->
       path_isdir host m d = true ->
       cmd_rm host fs args t m
       = (Returned ("rm: " ++ d ++ ": is a directory"), world m)).
Proof.
  intros args t m H1 H2 H3. split.
  - intros rmtree. unfold cmd_rm. destruct args as [|a l]; [reflexivity|].
    rewrite H1, H2, H3. cbn [orb].
    now rewrite rm_loop_without_recursive.
  - intros d -> Hd Hdir. unfold cmd_rm. rewrite H1, H2, H3. cbn [orb].
    unfold operands. cbn [filter]. rewrite Hd. cbn [negb rm_loop].
    rewrite Hdir. reflexivity.
Qed.

Lemma set_world_same (m : Machine W) : set_world (world m) m = m.
Proof. now destruct m. Qed.

Lemma rm_loop_missing (recursive force : bool) (m : Machine W)
  (files : list string) :
  (forall f, In f files ->
     path_isdir host m f = false /\
     exists msg, os_remove fs m f = (Some (NotFound msg), world m)) ->
  forall results,
    rm_loop host fs recursive force files m results
    = ((results
        ++ (if force then []
            else map (fun f =>
                        ("rm: " ++ f ++ ": No such file or directory")%string)
                   files))%list,
       world m).
Proof.
  induction files as [|f rest IH]; intros H results.
  - simpl. destruct force; now rewrite app_nil_r.
  - cbn [rm_loop]. destruct (H f (or_introl eq_refl)) as (Hd & msg & Hr).
    rewrite Hd, Hr, set_world_same.
    rewrite IH by (intros f' Hin; apply H; now right).
    unfold rm_report. destruct force; cbn [map].
    + now rewrite !app_nil_r.
    + now rewrite <- app_assoc.
Qed.

(** X20: [rm] on files that are not there. When no operand is a
    directory and [os.remove] raises [FileNotFoundError] for each of
    them, leaving the world as it is, [rm] answers with one line
    [No such file or directory] per operand, in the order given, and
    with the empty text when [-f] or [--force] is among the arguments;
    the flags themselves are never taken for files. *)
Theorem rm_missing_files :
  forall (args : list string) (t : PythonTerminal) (m : Machine W),
    args <> [] ->
    (forall f, In f (operands args) ->
       path_isdir host m f = false /\
       exists msg, os_remove fs m f = (Some (NotFound msg), world m)) ->
    cmd_rm host fs args t m
    = (Returned
         (if in_list "-f" args || in_list "--force" args then EmptyString
          else join nl
                 (map (fun f => "rm: " ++ f ++ ": No such file or directory")
                    (operands args))),
       world m).
Proof.
  intros args t m Hne H. unfold cmd_rm.
  destruct args as [|a l]; [congruence|].
  rewrite (rm_loop_missing _ _ _ _ H). cbn [app].
  now destruct (in_list "-f" (a :: l) || in_list "--force" (a :: l)).
Qed.

(** On [files_host] the registry entries [ls] and [rm] run the two
    handlers. *)
Lemma files_host_runs (args : list string) (st : State W) :
  run_handler (files_host host fs) H_rm args st
  = (fst (cmd_rm host fs args (term st) (machine st)),
     mkState (term st)
       (set_world (snd (cmd_rm host fs args (term st) (machine st)))
          (machine st))) /\
  run_handler (files_host host fs) H_ls args st
  = (fst (cmd_ls host fs args (term st) (machine st)),
     mkState (term st)
       (set_world (snd (cmd_ls host fs args (term st) (machine st)))
          (machine st))).
Proof.
  split; cbn [run_handler]; unfold cmd_host; cbn [host_handler files_host].
  - now destruct (cmd_rm host fs args (term st) (machine st)).
  - now destruct (cmd_ls host fs args (term st) (machine st)).
Qed.

End FileFacts.

(** ** The second window *)

Section SecondWindow.

Import UI2.

Lemma recall2_in_range (ui : UI2.TerminalUI) :
  (0 <= history_index ui < Z.of_nat (List.length (history ui)))%Z ->
  exists item,
    UI.getitem (history ui) (history_index ui) = Some item /\
    recall ui
    = (Returned tt,
       adjust_input_height (set_input item (set_input EmptyString ui))).
Proof.
  intros H. unfold recall. cbn [history history_index set_input].
  destruct (getitem_in_range _ _ H) as (x & Hx & _).
  rewrite Hx. now exists x.
Qed.

Lemma adjust_height_bounds (ui : UI2.TerminalUI) :
  1 <= input_height (adjust_input_height ui) <= 10.
Proof. unfold adjust_input_height. cbn [input_height]. lia. Qed.

(** X21: the arrow keys of the second window. With the index of the
    history between [-1] and its length, Up and Down raise no
    [IndexError] and keep the index in that range; after a key that
    acts, the height of the input box is between 1 and 10 lines. Down
    from the newest item (or from beyond it) empties the input box and
    puts the index past the end, and Up after that shows the newest item
    again. Outside shell mode, or with an empty history, the two keys
    change nothing. *)
Theorem second_window_arrow_keys :
  forall ui : UI2.TerminalUI,
    index_in_range ui ->
    (fst (history_up ui) = Returned tt /\
     index_in_range (snd (history_up ui))) /\
    (fst (history_down ui) = Returned tt /\
     index_in_range (snd (history_down ui))) /\
    (mode_shell ui = true -> history ui <> [] ->
     1 <= input_height (snd (history_up ui)) <= 10 /\
     1 <= input_height (snd (history_down ui)) <= 10) /\
    (mode_shell ui = true -> history ui <> [] ->
     (Z.of_nat (List.length (history ui)) - 1 <= history_index ui)%Z ->
     input_box (snd (history_down ui)) = EmptyString /\
     history_index (snd (history_down ui))
     = Z.of_nat (List.length (history ui)) /\
     input_box (snd (history_up (snd (history_down ui))))
     = last (history ui) EmptyString) /\
    (mode_shell ui = false \/ history ui = [] ->
     history_up ui = (Returned tt, ui) /\
     history_down ui = (Returned tt, ui)).
Proof.
  intros ui H. unfold index_in_range in H.
  destruct (mode_shell ui) eqn:Em; [destruct (history ui) as [|x l] eqn:Eh|].
  - unfold history_up, history_down, index_in_range. rewrite Em, Eh.
    cbn [fst snd]. rewrite Eh.
    repeat split; try tauto; try congruence; lia.
  - set (n := Z.of_nat (List.length (x :: l))) in *.
    assert (Hn : (1 <= n)%Z) by (subst n; cbn [List.length]; lia).
    assert (Hup : exists item,
               history_up ui
               = (Returned tt,
                  adjust_input_height
                    (set_input item
                       (set_input EmptyString
                          (set_index (Z.max 0 (history_index ui - 1)) ui))))).
    { unfold history_up. rewrite Em, Eh.
      destruct (recall2_in_range
                  (set_index (Z.max 0 (history_index ui - 1)) ui))
        as (item & _ & Hr).
      - cbn [history history_index set_index]. rewrite Eh. fold n. lia.
      - now exists item. }
    destruct Hup as (iu & Hup).
    assert (Hdown :
              ((history_index ui <? n - 1)%Z = true /\
               exists item,
                 history_down ui
                 = (Returned tt,
                    adjust_input_height
                      (set_input item
                         (set_input EmptyString
                            (set_index (history_index ui + 1) ui)))))
              \/ ((history_index ui <? n - 1)%Z = false /\
                  history_down ui
                  = (Returned tt,
                     adjust_input_height
                       (set_input EmptyString (set_index n ui))))).
    { unfold history_down. rewrite Em, Eh. cbv zeta. fold n.
      destruct (history_index ui <? n - 1)%Z eqn:El; [left | right; now split].
      split; [reflexivity|]. apply Z.ltb_lt in El.
      destruct (recall2_in_range (set_index (history_index ui + 1) ui))
        as (item & _ & Hr).
      - cbn [history history_index set_index]. rewrite Eh. fold n. lia.
      - now exists item. }
    split; [|split; [|split; [|split]]].
    + rewrite Hup. unfold index_in_range.
      cbn [fst snd history history_index adjust_input_height set_input
             set_index]. rewrite Eh. fold n. split; [reflexivity | lia].
    + destruct Hdown as [(El & item & ->) | (El & ->)];
        unfold index_in_range;
        cbn [fst snd history history_index adjust_input_height set_input
               set_index]; rewrite Eh; fold n;
        (split; [reflexivity|]).
      * apply Z.ltb_lt in El. lia.
      * lia.
    + intros _ _. rewrite Hup.
      destruct Hdown as [(El & item & ->) | (El & ->)]; cbn [snd];
        split; apply adjust_height_bounds.
    + intros _ _ Hlast.
      destruct Hdown as [(El & _) | (El & Hd)];
        [apply Z.ltb_lt in El; lia|].
      rewrite Hd. cbn [snd]. split; [reflexivity|]. split; [reflexivity|].
      unfold history_up.
      cbn [mode_shell history history_index adjust_input_height set_input
             set_index]. rewrite Em, Eh.
      replace (Z.max 0 (n - 1)) with (Z.of_nat (List.length l))
        by (subst n; cbn [List.length]; lia).
      unfold recall.
      cbn [history history_index adjust_input_height set_input set_index
             input_box snd].
      rewrite Eh.
      destruct (exists_last (l:=x :: l)) as (h & c & Ehc); [discriminate|].
      rewrite Ehc, last_last.
      assert (Hlen : List.length l = List.length h).
      { apply (f_equal (@List.length string)) in Ehc.
        rewrite length_app in Ehc. cbn [List.length] in Ehc. lia. }
      rewrite Hlen, getitem_last. reflexivity.
    + intros [F|F]; congruence.
  - unfold history_up, history_down, index_in_range. rewrite Em.
    cbn [fst snd].
    repeat split; try tauto; try congruence; try lia.
Qed.

End SecondWindow.

(** ** Which outputs can be the sentinel *)

Section Sentinel.

Context {W : Type} (host : Host W) (fs : FileOps W) (sys : SysOps W).

Ltac starts_otherwise :=
  unfold not_sentinel;
  let H := fresh in intros H; cbn [append] in H; discriminate H.

Lemma returned_inj {A : Type} (a b : A) : Returned a = Returned b -> a = b.
Proof. now intros [= ->]. Qed.

(** A text that holds a character the sentinel has not. *)
Lemma other_char_not_sentinel (c : ascii) (text : string) :
  mem_char c text = true -> mem_char c "EXIT" = false -> not_sentinel text.
Proof. intros H1 H2 E. rewrite E in H1. congruence. Qed.

(** Lines joined by newlines: no line is the sentinel, and two lines
    have a newline between them. *)
Lemma lines_not_sentinel (l : list string) :
  Forall not_sentinel l -> not_sentinel (join nl l).
Proof.
  intros H. destruct l as [|x [|y r]].
  - discriminate.
  - now inversion H.
  - apply (other_char_not_sentinel (chr 10)); [|reflexivity].
    rewrite join_cons, !mem_char_app. cbn [nl str1 mem_char].
    rewrite Ascii.eqb_refl. cbn [orb]. now rewrite orb_true_r.
Qed.

(** Lines after a first line that starts with another letter. *)
Lemma headed_not_sentinel (c : ascii) (x : string) (l : list string) :
  Ascii.eqb c "E" = false -> not_sentinel (join nl (String c x :: l)).
Proof.
  intros Hc E. rewrite join_cons in E.
  destruct l; cbn [append] in E; injection E as E _;
    subst c; discriminate Hc.
Qed.

Lemma mkdir_loop_lines (create_parents : bool) (dirs : list string) :
  forall (m : Machine W) (results : list string),
    Forall not_sentinel results ->
    Forall not_sentinel (fst (mkdir_loop sys create_parents dirs m results)).
Proof.
  induction dirs as [|d rest IH]; intros m results H; simpl; [exact H|].
  destruct (if create_parents then os_makedirs sys m d else os_mkdir sys m d)
    as [e w].
  apply IH. apply Forall_app. split; [exact H|].
  unfold mkdir_report. destruct e as [x|]; [|constructor].
  destruct (is_FileExistsError x); (constructor; [starts_otherwise | constructor]).
Qed.

Lemma rmdir_loop_lines (dirs : list string) :
  forall (m : Machine W) (results lines : list string),
    Forall not_sentinel results ->
    fst (rmdir_loop sys dirs m results) = Returned lines ->
    Forall not_sentinel lines.
Proof.
  induction dirs as [|d rest IH]; intros m results lines H E; simpl in E.
  - now injection E as <-.
  - destruct (os_rmdir sys m d) as [[x|] w].
    + destruct (is_OSError x); [|discriminate E].
      apply IH in E; [exact E|].
      apply Forall_app. split; [exact H|].
      constructor; [starts_otherwise | constructor].
    + now apply IH in E.
Qed.

Lemma rm_loop_lines (recursive force : bool) (files : list string) :
  forall (m : Machine W) (results : list string),
    Forall not_sentinel results ->
    Forall not_sentinel (fst (rm_loop host fs recursive force files m results)).
Proof.
  assert (R : forall f e, Forall not_sentinel (rm_report force f e)).
  { intros f e. unfold rm_report. destruct e as [[msg|msg]|];
      [destruct force| |]; repeat constructor; starts_otherwise. }
  induction files as [|f rest IH]; intros m results H; simpl; [exact H|].
  destruct (path_isdir host m f).
  - destruct recursive.
    + destruct (shutil_rmtree fs m f) as [e w].
      apply IH. apply Forall_app. split; [exact H | apply R].
    + apply IH. apply Forall_app. split; [exact H|].
      constructor; [starts_otherwise | constructor].
  - destruct (os_remove fs m f) as [e w].
    apply IH. apply Forall_app. split; [exact H | apply R].
Qed.

Lemma cp_loop_lines (recursive : bool) (destination : string)
  (sources : list string) :
  forall (m : Machine W) (results : list string),
    Forall not_sentinel results ->
    Forall not_sentinel
      (fst (cp_loop host sys recursive destination sources m results)).
Proof.
  assert (R : forall e, Forall not_sentinel (cp_report e)).
  { intros [msg|]; repeat constructor. starts_otherwise. }
  induction sources as [|src rest IH]; intros m results H; simpl; [exact H|].
  destruct (path_isdir host m src).
  - destruct recursive.
    + destruct (shutil_copytree sys m src _) as [e w].
      apply IH. apply Forall_app. split; [exact H | apply R].
    + apply IH. apply Forall_app. split; [exact H|].
      constructor; [starts_otherwise | constructor].
  - destruct (shutil_copy2 sys m src destination) as [e w].
    apply IH. apply Forall_app. split; [exact H | apply R].
Qed.

Lemma touch_loop_lines (files : list string) :
  forall (m : Machine W) (results : list string),
    Forall not_sentinel results ->
    Forall not_sentinel (fst (touch_loop sys files m results)).
Proof.
  induction files as [|f rest IH]; intros m results H; simpl; [exact H|].
  destruct (path_touch sys m f) as [e w].
  apply IH. apply Forall_app. split; [exact H|].
  destruct e; repeat constructor. starts_otherwise.
Qed.

(** A result of [cmd_grep] holds a colon. *)
Lemma colon_line (a b : string) : not_sentinel (a ++ ":" ++ b).
Proof.
  apply (other_char_not_sentinel ":"); [|reflexivity].
  rewrite mem_char_app. cbn [append mem_char].
  rewrite Ascii.eqb_refl. apply orb_true_r.
Qed.

Lemma grep_lines_lines (pattern file_path : string)
  (rows : list (nat * string)) :
  forall results,
    Forall not_sentinel results ->
    Forall not_sentinel (grep_lines sys pattern file_path rows results).
Proof.
  induction rows as [|[n line] rest IH]; intros results H; simpl; [exact H|].
  destruct (re_search sys pattern line) as [[|]|msg].
  - apply IH. apply Forall_app. split; [exact H|].
    constructor; [apply colon_line | constructor].
  - now apply IH.
  - apply Forall_app. split; [exact H|].
    constructor; [starts_otherwise | constructor].
Qed.

Lemma grep_files_lines (pattern : string) (m : Machine W)
  (files : list string) :
  forall results,
    Forall not_sentinel results ->
    Forall not_sentinel (fold_left (grep_file sys pattern m) files results).
Proof.
  induction files as [|f rest IH]; intros results H; simpl; [exact H|].
  apply IH. unfold grep_file.
  destruct (read_lines sys m f) as [lines|msg].
  - now apply grep_lines_lines.
  - apply Forall_app. split; [exact H|].
    constructor; [starts_otherwise | constructor].
Qed.

(** The handlers of fixed form, one by one. *)
Lemma mkdir_not_sentinel (args : list string) (t : PythonTerminal)
  (m : Machine W) : fst (cmd_mkdir sys args t m) <> Returned "EXIT".
Proof.
  unfold cmd_mkdir. destruct args as [|a r]; [discriminate|].
  pose proof (mkdir_loop_lines
                (in_list "-p" (a :: r) || in_list "--parents" (a :: r))
                (operands (a :: r)) m [] (Forall_nil _)) as H.
  destruct (mkdir_loop sys _ _ m []) as [results w]. cbn [fst] in *.
  intros E. injection E. now apply lines_not_sentinel.
Qed.

Lemma rmdir_not_sentinel (args : list string) (t : PythonTerminal)
  (m : Machine W) : fst (cmd_rmdir sys args t m) <> Returned "EXIT".
Proof.
  unfold cmd_rmdir. destruct args as [|a r]; [discriminate|].
  pose proof (rmdir_loop_lines (a :: r) m []) as H.
  destruct (rmdir_loop sys (a :: r) m []) as [[results|msg] w];
    cbn [fst] in *; [|discriminate].
  intros E. injection E.
  apply lines_not_sentinel. now apply H.
Qed.

Lemma rm_not_sentinel (args : list string) (t : PythonTerminal)
  (m : Machine W) : fst (cmd_rm host fs args t m) <> Returned "EXIT".
Proof.
  unfold cmd_rm. destruct args as [|a r]; [discriminate|].
  cbv zeta.
  match goal with
  | |- context [rm_loop host fs ?rec ?force ?files m []] =>
      pose proof (rm_loop_lines rec force files m [] (Forall_nil _)) as H;
      destruct (rm_loop host fs rec force files m []) as [results w]
  end.
  cbn [fst] in *. intros E. injection E. now apply lines_not_sentinel.
Qed.

Lemma cp_not_sentinel (args : list string) (t : PythonTerminal)
  (m : Machine W) : fst (cmd_cp host sys args t m) <> Returned "EXIT".
Proof.
  unfold cmd_cp. destruct (Nat.ltb (List.length args) 2); [discriminate|].
  cbv zeta.
  destruct (Nat.ltb (List.length (operands args)) 2); [discriminate|].
  match goal with
  | |- context [cp_loop host sys ?rec ?dst ?srcs m []] =>
      pose proof (cp_loop_lines rec dst srcs m [] (Forall_nil _)) as H;
      destruct (cp_loop host sys rec dst srcs m []) as [results w]
  end.
  cbn [fst] in *. intros E. injection E. now apply lines_not_sentinel.
Qed.

Lemma mv_not_sentinel (args : list string) (t : PythonTerminal)
  (m : Machine W) : fst (cmd_mv sys args t m) <> Returned "EXIT".
Proof.
  unfold cmd_mv. destruct args as [|a [|b r]]; try discriminate.
  destruct (shutil_move sys m a b) as [[msg|] w]; discriminate.
Qed.

Lemma touch_not_sentinel (args : list string) (t : PythonTerminal)
  (m : Machine W) : fst (cmd_touch sys args t m) <> Returned "EXIT".
Proof.
  unfold cmd_touch. destruct args as [|a r]; [discriminate|].
  pose proof (touch_loop_lines (a :: r) m [] (Forall_nil _)) as H.
  destruct (touch_loop sys (a :: r) m []) as [results w]. cbn [fst] in *.
  intros E. injection E. now apply lines_not_sentinel.
Qed.

Lemma grep_not_sentinel (args : list string) (t : PythonTerminal)
  (m : Machine W) : fst (cmd_grep sys args t m) <> Returned "EXIT".
Proof.
  unfold cmd_grep. destruct args as [|p [|f r]]; try discriminate.
  cbn [fst]. intros E. injection E.
  apply lines_not_sentinel.
  apply (grep_files_lines p m (f :: r) []). constructor.
Qed.

Lemma ps_not_sentinel (args : list string) (t : PythonTerminal)
  (m : Machine W) : fst (cmd_ps sys args t m) <> Returned "EXIT".
Proof.
  unfold cmd_ps. destruct (process_iter sys m) as [processes|msg];
    [|discriminate].
  destruct (format_rows _ _) as [rows|msg]; [|discriminate].
  cbn [fst]. intros E. injection E.
  apply (headed_not_sentinel "P"). reflexivity.
Qed.

Lemma top_not_sentinel (args : list string) (t : PythonTerminal)
  (m : Machine W) : fst (cmd_top sys args t m) <> Returned "EXIT".
Proof.
  unfold cmd_top.
  destruct (cpu_percent sys m) as [cpu|msg]; [|discriminate].
  destruct (virtual_memory sys m) as [memory|msg]; [|discriminate].
  destruct (disk_usage sys m) as [disk|msg]; [|discriminate].
  destruct (process_iter sys m) as [processes|msg]; [|discriminate].
  cbv zeta. destruct (format_rows _ _) as [rows|msg]; [|discriminate].
  cbn [fst app]. intros E. apply returned_inj in E. revert E.
  apply (headed_not_sentinel "S"). reflexivity.
Qed.

Lemma kill_not_sentinel (args : list string) (t : PythonTerminal)
  (m : Machine W) : fst (cmd_kill sys args t m) <> Returned "EXIT".
Proof.
  unfold cmd_kill. destruct args as [|a r]; [discriminate|].
  destruct (py_int a) as [pid|]; [|discriminate].
  destruct (process_terminate sys m pid) as [[x|] w]; [|discriminate].
  destruct (exc_class x); discriminate.
Qed.

Lemma date_not_sentinel (args : list string) (t : PythonTerminal)
  (m : Machine W) : fst (cmd_date sys args t m) <> Returned "EXIT".
Proof.
  unfold cmd_date. cbn [fst]. intros E. injection E.
  apply (other_char_not_sentinel " "); [|reflexivity].
  rewrite mem_char_app. cbn [append mem_char].
  rewrite Ascii.eqb_refl. apply orb_true_r.
Qed.

Lemma uptime_not_sentinel (args : list string) (t : PythonTerminal)
  (m : Machine W) : fst (cmd_uptime sys args t m) <> Returned "EXIT".
Proof.
  unfold cmd_uptime. destruct (uptime_delta sys m) as [[days seconds]|];
    discriminate.
Qed.

Lemma df_not_sentinel (args : list string) (t : PythonTerminal)
  (m : Machine W) : fst (cmd_df sys args t m) <> Returned "EXIT".
Proof.
  unfold cmd_df. destruct (disk_usage sys m) as [disk|msg]; discriminate.
Qed.

Lemma free_not_sentinel (args : list string) (t : PythonTerminal)
  (m : Machine W) : fst (cmd_free sys args t m) <> Returned "EXIT".
Proof.
  unfold cmd_free.
  destruct (virtual_memory sys m) as [memory|msg]; [|discriminate].
  destruct (swap_memory sys m) as [swap|msg]; [|discriminate].
  cbn [fst]. intros E. apply returned_inj in E. revert E.
  apply (headed_not_sentinel "T"). reflexivity.
Qed.

(** What the host handler of a line returns is what the line returns. *)
Lemma host_handler_output (h : handler) (args : list string) (st : State W) :
  fst (cmd_host (full_host host fs sys) h args st)
  = fst (host_handler (full_host host fs sys) h args (term st) (machine st)).
Proof.
  unfold cmd_host. now destruct (host_handler _ h args (term st) (machine st)).
Qed.

Lemma fixed_form_not_sentinel (h : handler) (args : list string)
  (st : State W) :
  fixed_form h = true ->
  fst (run_handler (full_host host fs sys) h args st) <> Returned "EXIT".
Proof.
  destruct h; intros Hf; try discriminate Hf; clear Hf;
    cbn [run_handler]; rewrite ?host_handler_output;
    cbn [full_host host_handler].
  - apply cd_not_sentinel.
  - apply mkdir_not_sentinel.
  - apply rmdir_not_sentinel.
  - apply rm_not_sentinel.
  - apply cp_not_sentinel.
  - apply mv_not_sentinel.
  - apply touch_not_sentinel.
  - apply grep_not_sentinel.
  - apply ps_not_sentinel.
  - apply top_not_sentinel.
  - apply kill_not_sentinel.
  - unfold cmd_export. destruct args;
      [simpl; discriminate | apply export_loop_not_sentinel].
  - unfold cmd_history. cbn [fst]. intros H. injection H.
    apply history_text_not_sentinel.
  - vm_compute. discriminate.
  - vm_compute. discriminate.
  - apply date_not_sentinel.
  - apply uptime_not_sentinel.
  - apply df_not_sentinel.
  - apply free_not_sentinel.
  - unfold cmd_alias. destruct args; [|apply alias_loop_not_sentinel].
    cbn [fst]. intros H. injection H. apply alias_listing_not_sentinel.
  - unfold cmd_unalias. destruct args;
      [simpl; discriminate | apply unalias_loop_not_sentinel].
Qed.

(** A path with a separator is not the sentinel. *)
Lemma separator_not_sentinel (p : string) :
  has_separator p = true -> not_sentinel p.
Proof.
  unfold has_separator. intros H. apply orb_true_iff in H as [H|H].
  - now apply (other_char_not_sentinel "/").
  - now apply (other_char_not_sentinel "\").
Qed.

Lemma find_not_sentinel (args : list string) (t : PythonTerminal)
  (m : Machine W) :
  (forall root name,
     root <> EmptyString -> has_separator (path_join host root name) = true) ->
  (forall path triples,
     os_walk sys m path = Returned triples ->
     Forall (fun triple => fst (fst triple) <> EmptyString) triples) ->
  fst (cmd_find host sys args t m) <> Returned "EXIT".
Proof.
  intros Hjoin Hwalk. unfold cmd_find.
  destruct (find_target host args t m) as [path pattern].
  destruct (os_walk sys m path) as [triples|msg] eqn:Ew; [|discriminate].
  cbn [fst]. intros E. injection E. apply lines_not_sentinel.
  apply Forall_forall. intros p Hp.
  apply in_flat_map in Hp as ([[root dirs] files] & Hin & Hp).
  unfold find_in in Hp. apply in_map_iff in Hp as (name & <- & _).
  apply separator_not_sentinel, Hjoin.
  pose proof (Hwalk path triples Ew) as Hr. rewrite Forall_forall in Hr.
  exact (Hr _ Hin).
Qed.

(** C3 (amended): the exit handler always returns the sentinel, but the
    dispatcher returns the text of every handler as it is, so the
    sentinel is not reserved to it. Five handlers hand on a text they
    were given and return [EXIT] when that text is [EXIT]: [echo] its
    arguments joined by single spaces, [env] the value of a variable,
    [whoami] the name of the user, [cat] the text of a file, [ls] the
    one visible name of a directory; the bridge does so with what a
    program prints. A line routed to any of cd, mkdir, rmdir, rm, cp,
    mv, touch, grep, ps, top, kill, export, history, clear, help, date,
    uptime, df, free, alias or unalias never gives the exact text
    [EXIT]; neither does [pwd] as long as the current directory holds a
    path separator, as an absolute path does; neither does [find] on a
    host whose [os.path.join] puts a separator into what it joins to a
    non-empty root and whose [os.walk] yields no empty root; and
    neither does the error line of the dispatch boundary. These are all
    the handlers of the registry. *)
Theorem sentinel_sources :
  forall (line : string) (st : State W),
    let r := route_of (aliases (term st)) line in
    let output := fst (execute_command (full_host host fs sys) line st) in
    (forall args, r = ToBuiltin H_exit args -> output = "EXIT") /\
    ((forall args, r = ToBuiltin H_echo args -> output = join " " args) /\
     (forall var_name args value,
        r = ToBuiltin H_env (var_name :: args) ->
        Dict.get var_name (environment_vars (term st)) = Some value ->
        output = value) /\
     (forall args, r = ToBuiltin H_whoami args -> output = whoami (machine st))
     /\
     (forall file_path text,
        r = ToBuiltin H_cat [file_path] ->
        read_text sys (machine st) file_path = Returned text ->
        output = text) /\
     (forall name,
        r = ToBuiltin H_ls [] ->
        path_exists host (machine st) (current_dir (term st)) = true ->
        path_isfile fs (machine st) (current_dir (term st)) = false ->
        os_listdir fs (machine st) (current_dir (term st)) = Returned [name] ->
        startswith name "." = false ->
        output = name)) /\
    (forall h args,
       r = ToBuiltin h args -> fixed_form h = true -> output <> "EXIT") /\
    (forall args,
       r = ToBuiltin H_pwd args ->
       has_separator (current_dir (term st)) = true ->
       output <> "EXIT") /\
    (forall args,
       r = ToBuiltin H_find args ->
       (forall root name,
          root <> EmptyString ->
          has_separator (path_join host root name) = true) ->
       (forall path triples,
          os_walk sys (machine st) path = Returned triples ->
          Forall (fun triple => fst (fst triple) <> EmptyString) triples) ->
       output <> "EXIT") /\
    (forall msg st',
       try_execute (full_host host fs sys) line st = (Raised msg, st') ->
       output <> "EXIT") /\
    (forall h,
       h = H_exit \/ relays_text h = true \/ fixed_form h = true \/
       h = H_pwd \/ h = H_find).
Proof.
  intros line st r output. subst r output.
  pose proof (recorded_frame line st) as (R1 & _ & R3).
  unfold execute_command. rewrite try_execute_follow.
  split; [|split; [|split; [|split; [|split; [|split]]]]].
  - intros args Hr. rewrite Hr. reflexivity.
  - split; [|split; [|split; [|split]]].
    + intros args Hr. rewrite Hr. reflexivity.
    + intros var_name args value Hr Hv. rewrite Hr.
      cbn [follow run_handler cmd_env fst]. rewrite R3.
      unfold Dict.get_default. now rewrite Hv.
    + intros args Hr. rewrite Hr. reflexivity.
    + intros file_path text Hr Ht. rewrite Hr.
      cbn [follow run_handler].
      pose proof (host_handler_output H_cat [file_path] (recorded line st))
        as Ho.
      cbn [full_host host_handler] in Ho. unfold cmd_cat, cat_item in Ho.
      change (machine (recorded line st)) with (machine st) in Ho.
      cbn [map fst] in Ho. rewrite Ht in Ho.
      destruct (cmd_host (full_host host fs sys) H_cat [file_path]
                  (recorded line st)) as [[out|msg] st'];
        cbn [fst] in *; [now injection Ho | discriminate Ho].
    + intros name Hr Hx Hf Hl Hd. rewrite Hr.
      cbn [follow run_handler].
      pose proof (host_handler_output H_ls [] (recorded line st)) as Ho.
      cbn [full_host host_handler] in Ho. unfold cmd_ls, ls_items in Ho.
      change (machine (recorded line st)) with (machine st) in Ho.
      cbn [operands filter in_list existsb orb] in Ho. rewrite R1, Hx in Ho.
      cbn [negb] in Ho. rewrite Hf, Hl in Ho. cbn [filter] in Ho.
      rewrite Hd in Ho. cbn in Ho.
      destruct (cmd_host (full_host host fs sys) H_ls [] (recorded line st))
        as [[out|msg] st'];
        cbn [fst] in *; [now injection Ho | discriminate Ho].
  - intros h args Hr Hf. rewrite Hr. cbn [follow].
    pose proof (fixed_form_not_sentinel h args (recorded line st) Hf) as Hn.
    destruct (run_handler (full_host host fs sys) h args (recorded line st))
      as [[out|msg] st'];
      cbn [fst] in *; [congruence | discriminate].
  - intros args Hr Hs. rewrite Hr. cbn [follow run_handler cmd_pwd fst].
    rewrite R1. now apply separator_not_sentinel.
  - intros args Hr Hjoin Hwalk. rewrite Hr. cbn [follow run_handler].
    pose proof (find_not_sentinel args (term (recorded line st)) (machine st)
                  Hjoin Hwalk) as Hn.
    pose proof (host_handler_output H_find args (recorded line st)) as Ho.
    cbn [full_host host_handler] in Ho.
    change (machine (recorded line st)) with (machine st) in Ho.
    destruct (cmd_host (full_host host fs sys) H_find args (recorded line st))
      as [[out|msg] st'];
      cbn [fst] in *; [congruence | discriminate].
  - intros msg st' H. rewrite H. cbn [fst]. discriminate.
  - intros h. destruct h; cbn [relays_text fixed_form]; tauto.
Qed.

End Sentinel.

(** ** More scenarios on the sample machine *)

Section MoreScenarios.

(** The theorem [typed_words_reach_handler] on the line [echo a b]. *)
Lemma typed_words_witness :
  route_of [] "echo a b" = ToBuiltin H_echo ["a"; "b"] /\
  fst (execute_command Posix.host "echo a b" Posix.start) = "a b".
Proof.
  assert (H : Forall (fun w => plain_word w = true) ["echo"; "a"; "b"])
    by (repeat constructor).
  destruct (typed_words_reach_handler Posix.host Posix.start "echo"
              ["a"; "b"] H) as [H1 H2].
  split; [exact H1 | now apply H2].
Defined.

(** The theorem [export_then_env] for [EDITOR=vi]. *)
Lemma export_then_env_witness :
  fst (execute_command Posix.host "export EDITOR=vi" Posix.start)
  = EmptyString /\
  fst (execute_command Posix.host "env EDITOR"
         (snd (execute_command Posix.host "export EDITOR=vi" Posix.start)))
  = "vi" /\
  Dict.get "EDITOR"
    (os_environ
       (machine (snd (execute_command Posix.host "export EDITOR=vi"
                        Posix.start))))
  = Some "vi".
Proof.
  apply (export_then_env Posix.host Posix.start "EDITOR" "vi");
    reflexivity.
Defined.

(** The theorem [export_user_changes_whoami] for the name [bob]. *)
Lemma export_user_witness :
  fst (execute_command Posix.host "whoami"
         (snd (execute_command Posix.host "export USER=bob" Posix.start)))
  = "bob" /\
  exists rest,
    get_prompt Posix.host
      (snd (execute_command Posix.host "export USER=bob" Posix.start))
    = "bob" ++ "@" ++ rest.
Proof.
  apply (export_user_changes_whoami Posix.host Posix.start "bob");
    reflexivity.
Defined.

(** The theorem [bad_argument_stops_loop] for [export A=1 oops B=2],
    for [export oops A=1], where the bad argument comes first, and for
    [unalias ll nope la] and [unalias nope ll]. *)
Lemma bad_argument_witness :
  (cmd_export Posix.host ["A=1"; "oops"; "B=2"] Posix.start
   = (Returned "export: invalid format 'oops'",
      snd (cmd_export Posix.host ["A=1"] Posix.start)) /\
   cmd_export Posix.host ["oops"; "A=1"] Posix.start
   = (Returned "export: invalid format 'oops'", Posix.start)) /\
  (cmd_unalias ["ll"; "nope"; "la"]
     (Posix.after ["alias ll=ls la=ls"] Posix.start)
   = (Returned "unalias: nope: not found",
      snd (cmd_unalias ["ll"]
             (Posix.after ["alias ll=ls la=ls"] Posix.start))) /\
   cmd_unalias ["nope"; "ll"] (Posix.after ["alias ll=ls la=ls"] Posix.start)
   = (Returned "unalias: nope: not found",
      Posix.after ["alias ll=ls la=ls"] Posix.start)).
Proof.
  split; split.
  - apply (proj1 (bad_argument_stops_loop Posix.host ["A=1"] ["B=2"] "oops"
                    Posix.start)); reflexivity.
  - apply (proj1 (bad_argument_stops_loop Posix.host [] ["A=1"] "oops"
                    Posix.start)); reflexivity.
  - apply (proj2 (proj2 (bad_argument_stops_loop Posix.host ["ll"] ["la"]
                           "nope"
                           (Posix.after ["alias ll=ls la=ls"] Posix.start))));
      reflexivity.
  - apply (proj2 (proj2 (bad_argument_stops_loop Posix.host [] ["ll"]
                           "nope"
                           (Posix.after ["alias ll=ls la=ls"] Posix.start))));
      reflexivity.
Defined.

(** The theorem [alias_then_unalias] for the alias [ll] with a quoted
    text, in the sample session. *)
Lemma alias_then_unalias_witness :
  Dict.get "ll"
    (aliases (term (snd (cmd_alias ["ll=" ++ SQ ++ "ls" ++ SQ] Posix.start))))
  = Some "ls" /\
  snd (cmd_unalias ["ll"]
         (snd (cmd_alias ["ll=" ++ SQ ++ "ls" ++ SQ] Posix.start)))
  = Posix.start.
Proof.
  pose proof (alias_then_unalias Posix.start "ll" (SQ ++ "ls" ++ SQ) eq_refl)
    as (_ & H1 & _ & _ & H2).
  split; [exact H1 | exact (proj1 (H2 eq_refl))].
Defined.


(** The theorem [cd_sets_session_directory] on [cd link], where the
    link leads to [/tmp], and on [cd vault], the directory the process
    may not enter. *)
Lemma cd_sets_session_witness :
  (fst (execute_command Posix.host "cd link" Posix.linked) = EmptyString /\
   current_dir (term (snd (execute_command Posix.host "cd link"
                             Posix.linked)))
   = "/home/user/link" /\
   os_cwd (machine (snd (execute_command Posix.host "cd link" Posix.linked)))
   = "/tmp") /\
  (fst (execute_command Posix.host "cd vault" Posix.start)
   = "cd: [Errno 13] Permission denied: '/home/user/vault'" /\
   current_dir (term (snd (execute_command Posix.host "cd vault"
                             Posix.start)))
   = "/home/user/vault" /\
   os_cwd (machine (snd (execute_command Posix.host "cd vault" Posix.start)))
   = "/home/user").
Proof.
  pose proof (cd_sets_session_directory Posix.host "cd link" ["link"]
                Posix.linked) as A.
  pose proof (cd_sets_session_directory Posix.host "cd vault" ["vault"]
                Posix.start) as B.
  cbv zeta in A, B.
  split.
  - destruct A as (A1 & _ & A2 & _); try (vm_compute; reflexivity).
    destruct (A2 "/tmp") as [A3 A4]; [vm_compute; reflexivity|].
    repeat split; assumption.
  - destruct B as (B1 & _ & _ & B2); try (vm_compute; reflexivity).
    destruct (B2 "[Errno 13] Permission denied: '/home/user/vault'")
      as [B3 B4]; [vm_compute; reflexivity|].
    repeat split; assumption.
Defined.

(** The theorem [cd_minus_swaps] after [cd subdir]. *)
Lemma cd_minus_witness :
  current_dir
    (term (snd (cmd_cd Posix.host ["-"]
                  (Posix.after ["cd subdir"] Posix.start))))
  = "/home/user" /\
  current_dir
    (term (snd (cmd_cd Posix.host ["-"]
                  (snd (cmd_cd Posix.host ["-"]
                          (Posix.after ["cd subdir"] Posix.start))))))
  = "/home/user/subdir".
Proof.
  assert (H1 : enterable Posix.host
                 (machine (Posix.after ["cd subdir"] Posix.start))
                 "/home/user")
    by (repeat (split; [vm_compute; reflexivity|]);
        eexists; vm_compute; reflexivity).
  pose proof (cd_minus_swaps Posix.host
                (Posix.after ["cd subdir"] Posix.start) H1) as [Ha Hb].
  split.
  - apply Ha.
  - apply Hb. repeat (split; [vm_compute; reflexivity|]).
    eexists. vm_compute. reflexivity.
Defined.

(** The theorem [external_output_trimmed] on the program of the sample
    machine, which prints a word and a newline. *)
Lemma external_output_witness :
  exists text,
    fst (execute_external_command Posix.host "banner" [] Posix.start)
    = Returned text /\
    strip text = text /\
    (forall c r, text = String c r -> is_space c = false) /\
    (forall r c, text = r ++ str1 c -> is_space c = false) /\
    (is_empty EmptyString = true -> text = strip ("EXIT" ++ nl)) /\
    (is_empty EmptyString = false -> str_in "Error:" text = true).
Proof.
  apply (external_output_trimmed Posix.host "banner" [] Posix.start
           ("EXIT" ++ nl) EmptyString (world (machine Posix.start))).
  reflexivity.
Defined.

(** The theorem [run_records_trimmed_lines] on a padded line. *)
Lemma run_records_witness :
  run_loop Posix.host [Line "   "; Line " pwd "] Posix.start []
  = run_loop Posix.host [Line " pwd "] Posix.start [] /\
  command_history
    (term (session (run_loop Posix.host [Line " pwd "] Posix.start [])))
  = ["pwd"].
Proof.
  split.
  - apply (proj1 (run_records_trimmed_lines Posix.host "   "
                    [Line " pwd "] Posix.start [])).
    reflexivity.
  - apply (proj2 (run_records_trimmed_lines Posix.host " pwd " []
                    Posix.start [])).
    unfold blank. simpl. discriminate.
Defined.

(** The theorem [history_keys_never_fail] in the window just created. *)
Lemma history_keys_witness :
  fst (UI.history_up (sample_window "x")) = Returned tt /\
  UI.index_in_range (UI.run_command Posix.host (sample_window "pwd")).
Proof.
  pose proof (proj1 (history_keys_never_fail Posix.host) Posix.start) as H0.
  pose proof (proj2 (history_keys_never_fail Posix.host)
                (sample_window "x") H0) as (Hu & _).
  pose proof (proj2 (history_keys_never_fail Posix.host)
                (sample_window "pwd") H0) as (_ & _ & Hr & _).
  split; [apply Hu | exact Hr].
Defined.

(** The theorem [up_recalls_last_command] on the entry [  pwd ]. *)
Lemma up_recalls_witness :
  UI.entry (UI.run_command Posix.host (sample_window "  pwd ")) = EmptyString
  /\ UI.entry
       (snd (UI.history_up
               (UI.run_command Posix.host (sample_window "  pwd "))))
     = "pwd".
Proof.
  assert (H : ~ blank (UI.entry (sample_window "  pwd ")))
    by (unfold blank; simpl; discriminate).
  pose proof (up_recalls_last_command Posix.host (sample_window "  pwd ") H)
    as (H1 & _ & H2 & _).
  split; [exact H1 | exact H2].
Defined.

(** The theorem [error_text_colour] on the sample window after the line
    [export =x] has been typed: red is asked for the error text, none of
    its characters carries the tag, and the tag is left blue. *)
Lemma error_text_colour_witness :
  In (("Error: [Errno 22] Invalid argument" ++ nl)%string, "red")
    (UI.output_box (UI.run_command Posix.host (sample_window "export =x")))
  /\
  UI.color_foreground (UI.run_command Posix.host (sample_window "export =x"))
  = Some "blue" /\
  UI.carries_tag (UI.run_command Posix.host (sample_window "export =x")) 10
  = false.
Proof.
  assert (H : ~ blank (UI.entry (sample_window "export =x")))
    by (unfold blank; simpl; discriminate).
  pose proof (error_text_colour Posix.host (sample_window "export =x") H)
    as (H1 & H2 & _ & H3 & _ & H4).
  split; [|split].
  - apply H1.
    apply (H2 "[Errno 22] Invalid argument"
             (snd (try_execute Posix.host "export =x" Posix.start))).
    reflexivity.
  - exact H3.
  - apply H4; [constructor | vm_compute; lia].
Defined.

(** The theorem [second_window_arrow_keys] with the index past the end
    of a history of two commands. *)
Lemma second_window_witness :
  UI2.input_box (snd (UI2.history_down sample_window2)) = EmptyString /\
  UI2.input_box
    (snd (UI2.history_up (snd (UI2.history_down sample_window2))))
  = "pwd".
Proof.
  assert (H : UI2.index_in_range sample_window2)
    by (unfold UI2.index_in_range; simpl; lia).
  pose proof (second_window_arrow_keys sample_window2 H)
    as (_ & _ & _ & Hd & _).
  assert (Hne : UI2.history sample_window2 <> []) by discriminate.
  assert (Hi : (Z.of_nat (List.length (UI2.history sample_window2)) - 1
                <= UI2.history_index sample_window2)%Z) by (simpl; lia).
  destruct (Hd eq_refl Hne Hi) as (H1 & _ & H3).
  split; [exact H1 | exact H3].
Defined.

(** The theorem [ls_lists_sorted_visible_names] in the home directory of
    the sample machine, which holds a hidden file. *)
Lemma ls_witness :
  exists items,
    Sorted str_le items /\
    Permutation items
      (filter shown_name ["subdir"; "vault"; "notes.txt"; ".profile"]) /\
    (false = false -> Forall (fun i => shown_name i = true) items) /\
    cmd_ls Posix.host PosixFiles.ops [] (term PosixFiles.start)
      (machine PosixFiles.start)
    = (Returned (join "  " items), world (machine PosixFiles.start)).
Proof.
  apply (ls_lists_sorted_visible_names Posix.host PosixFiles.ops []
           (term PosixFiles.start) (machine PosixFiles.start)
           ["subdir"; "vault"; "notes.txt"; ".profile"]);
    reflexivity.
Defined.

(** The theorem [rm_needs_flag_for_directories] on [rm subdir]. *)
Lemma rm_directory_witness :
  cmd_rm Posix.host PosixFiles.ops ["subdir"] (term PosixFiles.start)
    (machine PosixFiles.start)
  = (Returned "rm: subdir: is a directory", world (machine PosixFiles.start)).
Proof.
  apply (proj2 (rm_needs_flag_for_directories Posix.host PosixFiles.ops
                  ["subdir"] (term PosixFiles.start)
                  (machine PosixFiles.start) eq_refl eq_refl eq_refl)
           "subdir"); reflexivity.
Defined.

(** The theorem [rm_missing_files] on [rm -f a b]. *)
Lemma rm_missing_witness :
  cmd_rm Posix.host PosixFiles.ops ["-f"; "a"; "b"] (term PosixFiles.start)
    (machine PosixFiles.start)
  = (Returned EmptyString, world (machine PosixFiles.start)).
Proof.
  apply (rm_missing_files Posix.host PosixFiles.ops ["-f"; "a"; "b"]
           (term PosixFiles.start) (machine PosixFiles.start)).
  - discriminate.
  - intros f Hf. simpl in Hf.
    destruct Hf as [<-|[<-|[]]]; (split; [reflexivity | eexists; reflexivity]).
Defined.

(** The theorem [dispatch_boundary_catches] on the sample machine: the
    line [export =x], whose store into [os.environ] raises, after which
    the loop goes on to print the working directory; and the programs
    that do not end in time, are not there, cannot be started, or write
    to the error stream. *)
Lemma dispatch_boundary_witness :
  (execute_command Posix.host "export =x" Posix.start
   = ("Error: [Errno 22] Invalid argument",
      snd (try_execute Posix.host "export =x" Posix.start)) /\
   printed (run_loop Posix.host [Line "export =x"; Line "pwd"] Posix.start [])
   = ["Error: [Errno 22] Invalid argument"; "/home/user"]) /\
  (fst (execute_command Posix.host "sleeper 9" Posix.start)
   = "Error: Command timed out" /\
   fst (execute_command Posix.host "nosuch" Posix.start)
   = "Error: Command 'nosuch' not found" /\
   fst (execute_command Posix.host "broken" Posix.start)
   = "Error: [Errno 8] Exec format error: 'broken'" /\
   fst (execute_command Posix.host "moan" Posix.start) = "Error: no luck").
Proof.
  split; [split | split; [|split; [|split]]].
  - apply (proj1 (proj2 (proj2 (dispatch_boundary_catches Posix.host
                                  "export =x" Posix.start)))
             H_export ["=x"]);
      vm_compute; reflexivity.
  - rewrite (proj1 (proj2 (proj2 (proj2
               (dispatch_boundary_catches Posix.host "export =x"
                  Posix.start))))
               "[Errno 22] Invalid argument"
               (snd (try_execute Posix.host "export =x" Posix.start)));
      vm_compute; reflexivity.
  - pose proof (proj1 (proj2 (dispatch_boundary_catches Posix.host
                                "sleeper 9" Posix.start)) "sleeper" ["9"]) as H.
    cbv zeta in H. destruct H as (H & _); [vm_compute; reflexivity|].
    apply H. vm_compute. reflexivity.
  - pose proof (proj1 (proj2 (dispatch_boundary_catches Posix.host
                                "nosuch" Posix.start)) "nosuch" []) as H.
    cbv zeta in H. destruct H as (_ & H & _); [vm_compute; reflexivity|].
    apply H. vm_compute. reflexivity.
  - pose proof (proj1 (proj2 (dispatch_boundary_catches Posix.host
                                "broken" Posix.start)) "broken" []) as H.
    cbv zeta in H. destruct H as (_ & _ & H & _); [vm_compute; reflexivity|].
    apply H. vm_compute. reflexivity.
  - pose proof (proj1 (proj2 (dispatch_boundary_catches Posix.host
                                "moan" Posix.start)) "moan" []) as H.
    cbv zeta in H. destruct H as (_ & _ & _ & H); [vm_compute; reflexivity|].
    destruct (H EmptyString ("no luck" ++ nl)) as [H1 _];
      [vm_compute; reflexivity|].
    rewrite H1. vm_compute. reflexivity.
Defined.

(** [posixpath.join] puts a separator into what it joins to a root. *)
Lemma ends_with_slash_mem (a : string) :
  Posix.ends_with_slash a = true -> mem_char "/" a = true.
Proof.
  induction a as [|c r IH]; [discriminate|].
  destruct r as [|d r']; cbn [Posix.ends_with_slash]; intros H.
  - apply Ascii.eqb_eq in H as ->. reflexivity.
  - change (mem_char "/" (String c (String d r')))
      with (Ascii.eqb "/" c || mem_char "/" (String d r')).
    rewrite (IH H). apply orb_true_r.
Qed.

Lemma join2_has_separator (root name : string) :
  root <> EmptyString -> has_separator (Posix.join2 root name) = true.
Proof.
  intros Hr.
  assert (Hs : mem_char "/" (Posix.join2 root name) = true).
  { unfold Posix.join2, startswith.
    destruct (String.prefix "/" name) eqn:Ep.
    - destruct name as [|c n]; [discriminate Ep|].
      cbn [String.prefix] in Ep.
      destruct (ascii_dec "/" c) as [<-|Hc]; [|discriminate Ep].
      cbn [mem_char]. now rewrite Ascii.eqb_refl.
    - destruct root as [|x r]; [congruence|]. cbn [is_empty orb].
      destruct (Posix.ends_with_slash (String x r)) eqn:E.
      + now rewrite mem_char_app, (ends_with_slash_mem _ E).
      + rewrite mem_char_app.
        change ("/" ++ name) with (String "/" name).
        cbn [mem_char]. rewrite Ascii.eqb_refl. cbn [orb].
        apply orb_true_r. }
  unfold has_separator. now rewrite Hs.
Qed.

Lemma join2_not_empty (root name : string) :
  root <> EmptyString -> Posix.join2 root name <> EmptyString.
Proof.
  intros Hr E. pose proof (join2_has_separator root name Hr) as H.
  rewrite E in H. discriminate H.
Qed.

(** The walk of the sample machine yields no empty root. *)
Lemma walk_roots (m : Machine Posix.PosixWorld) (path : string)
  (triples : list (string * list string * list string)) :
  PosixSys.walk m path = Returned triples ->
  Forall (fun triple => fst (fst triple) <> EmptyString) triples.
Proof.
  unfold PosixSys.walk. cbv zeta.
  destruct (is_empty path) eqn:Ep; cbn [orb].
  - intros [= <-]. constructor.
  - destruct (negb _); intros [= <-]; [constructor|].
    assert (Hp : path <> EmptyString) by (intros ->; discriminate Ep).
    apply Forall_forall. intros triple Hin.
    apply in_map_iff in Hin as (d & <- & _). cbn [fst].
    destruct (String.eqb d _); [exact Hp | now apply join2_not_empty].
Qed.

(** The theorem [sentinel_sources] on the sample machine: the lines
    [exit now] and [echo a b], a file that is there, a line of each
    kind that cannot give the sentinel, and a line that raises. *)
Lemma sentinel_sources_witness :
  fst (execute_command PosixSys.host "exit now" PosixSys.start) = "EXIT" /\
  fst (execute_command PosixSys.host "echo a  b" PosixSys.start) = "a b" /\
  fst (execute_command PosixSys.host "cat notes.txt" PosixSys.start)
  = "milk" ++ nl ++ "Eggs" ++ nl /\
  fst (execute_command PosixSys.host "mkdir /tmp" PosixSys.start) <> "EXIT" /\
  fst (execute_command PosixSys.host "pwd" PosixSys.start) <> "EXIT" /\
  fst (execute_command PosixSys.host "find /tmp EXIT" PosixSys.start)
  <> "EXIT" /\
  fst (execute_command PosixSys.host "export =x" PosixSys.start) <> "EXIT".
Proof.
  pose proof (sentinel_sources Posix.host PosixFiles.ops PosixSys.ops) as T.
  cbv zeta in T. fold PosixSys.host in T.
  split; [|split; [|split; [|split; [|split; [|split]]]]].
  - apply (proj1 (T "exit now" PosixSys.start) ["now"]).
    vm_compute. reflexivity.
  - apply (proj1 (proj1 (proj2 (T "echo a  b" PosixSys.start))) ["a"; "b"]).
    vm_compute. reflexivity.
  - destruct (proj1 (proj2 (T "cat notes.txt" PosixSys.start)))
      as (_ & _ & _ & H & _).
    apply (H "notes.txt"); vm_compute; reflexivity.
  - apply (proj1 (proj2 (proj2 (T "mkdir /tmp" PosixSys.start)))
             H_mkdir ["/tmp"]); vm_compute; reflexivity.
  - apply (proj1 (proj2 (proj2 (proj2 (T "pwd" PosixSys.start)))) []);
      vm_compute; reflexivity.
  - apply (proj1 (proj2 (proj2 (proj2 (proj2
             (T "find /tmp EXIT" PosixSys.start))))) ["/tmp"; "EXIT"]).
    + vm_compute. reflexivity.
    + exact join2_has_separator.
    + intros path triples. apply walk_roots.
  - apply (proj1 (proj2 (proj2 (proj2 (proj2 (proj2
             (T "export =x" PosixSys.start))))))
             "[Errno 22] Invalid argument"
             (snd (try_execute PosixSys.host "export =x" PosixSys.start))).
    vm_compute. reflexivity.
Defined.

(** C3, as the claim states it, fails: none of these lines is routed to
    the exit handler, and each returns exactly [EXIT]: [echo EXIT]; [env
    X] and [whoami] once the variable and the user name have that
    value; [ls], or [dir], on a directory that holds the one file
    [EXIT]; [cat] on a file with that text; and a program that prints
    that word. Any of them stops the loop of [run]. *)
Lemma relayed_text_is_sentinel :
  route_of [] "echo EXIT" = ToBuiltin H_echo ["EXIT"]
  /\ fst (execute_command PosixSys.host "echo EXIT" PosixSys.start) = "EXIT"
  /\ route_of [] "env X" = ToBuiltin H_env ["X"]
  /\ fst (execute_command PosixSys.host "env X"
            (snd (execute_command PosixSys.host "export X=EXIT"
                    PosixSys.start)))
     = "EXIT"
  /\ route_of [] "whoami" = ToBuiltin H_whoami []
  /\ fst (execute_command PosixSys.host "whoami"
            (snd (execute_command PosixSys.host "export USER=EXIT"
                    PosixSys.start)))
     = "EXIT"
  /\ route_of [] "ls /tmp" = ToBuiltin H_ls ["/tmp"]
  /\ fst (execute_command PosixSys.host "ls /tmp" PosixSys.start) = "EXIT"
  /\ fst (execute_command PosixSys.host "dir /tmp" PosixSys.start) = "EXIT"
  /\ route_of [] "cat /tmp/EXIT" = ToBuiltin H_cat ["/tmp/EXIT"]
  /\ fst (execute_command PosixSys.host "cat /tmp/EXIT" PosixSys.start)
     = "EXIT"
  /\ route_of [] "banner" = ToExternal "banner" []
  /\ fst (execute_command PosixSys.host "banner" PosixSys.start) = "EXIT"
  /\ stopped (run_loop PosixSys.host [Line "ls /tmp"; Line "pwd"]
                PosixSys.start [])
     = true.
Proof. repeat split; vm_compute; reflexivity. Qed.

End MoreScenarios.
